(** * Bookstore data models: a shallow embedding of
      [backend/app/storage/json_data_model.py]

    The development follows the layout of the Python module:

    - the parts of the Python runtime the module calls ([str.strip],
      [re.sub], [re.split], [int], [float], [str], [datetime.strptime]);
    - the [Book] model with its field validators, [extract_metadata]
      and [get_all_metadata];
    - [BookCollection];
    - [EntityTypeRegistry] and [_detect_book_format];
    - the properties of the specification, stated over these definitions.

    Modelling conventions.  A Python [str] is a [string] whose characters
    are the code points U+0000..U+00FF, one [ascii] per code point.  A
    Python [int] is a [Z]; conversions between [int] and [str] observe
    the interpreter's limit of 4300 digits, its default.  A Python
    [float] is a binary64 [spec_float].  A Python [dict] is an
    association list in insertion order, the order in which [str] prints
    it and [get_all_metadata] fills its result.  Log records and raised
    exceptions are explicit in the result of every function that can log
    or raise; an exception is caught by the [except] clauses that name
    its class, so [except Exception] lets [KeyboardInterrupt],
    [SystemExit] and [GeneratorExit] pass.  The validation library is
    modelled as far as the declarations of the two model classes use
    it. *)

From Stdlib Require Import Bool List ZArith Lia Ascii String.
From Stdlib Require Import DecimalString SpecFloat.
Import ListNotations.

Local Open Scope string_scope.
Local Open Scope list_scope.
Local Open Scope Z_scope.

(** ** Python strings *)

Module Str.

(** [str.isspace] on one code point below U+0100; it is also the class
    [\s] of [re] on [str] patterns and the set that [str.strip] removes. *)
Definition isspace (c : ascii) : bool :=
  let n := N_of_ascii c in
  (((9 <=? n) && (n <=? 13)) || ((28 <=? n) && (n <=? 32))
   || (n =? 133) || (n =? 160))%N.

Definition space : ascii := " "%char.

(** Removal of the leading, respectively trailing, characters that
    satisfy [p]. *)
Fixpoint lstrip_with (p : ascii -> bool) (s : string) : string :=
  match s with
  | String c s' => if p c then lstrip_with p s' else s
  | EmptyString => EmptyString
  end.

Fixpoint rstrip_with (p : ascii -> bool) (s : string) : string :=
  match s with
  | String c s' =>
      match rstrip_with p s' with
      | EmptyString => if p c then EmptyString else String c EmptyString
      | r => String c r
      end
  | EmptyString => EmptyString
  end.

Definition strip_with (p : ascii -> bool) (s : string) : string :=
  rstrip_with p (lstrip_with p s).

(** [s.strip()] *)
Definition strip (s : string) : string := strip_with isspace s.

(** [re.sub(r"\s+", " ", s)]: every maximal run of whitespace becomes one
    space.  [in_run] tells that the previous character was whitespace. *)
Fixpoint sub_spaces (in_run : bool) (s : string) : string :=
  match s with
  | String c s' =>
      if isspace c
      then if in_run then sub_spaces true s'
           else String space (sub_spaces true s')
      else String c (sub_spaces false s')
  | EmptyString => EmptyString
  end.

Definition re_sub_spaces (s : string) : string := sub_spaces false s.

(** [re.split(r"[,;]", s)] *)
Definition is_separator (c : ascii) : bool :=
  Ascii.eqb c ","%char || Ascii.eqb c ";"%char.

Fixpoint re_split_separators (s : string) : list string :=
  match s with
  | String c s' =>
      if is_separator c then EmptyString :: re_split_separators s'
      else match re_split_separators s' with
           | p :: ps => String c p :: ps
           | [] => [String c EmptyString]
           end
  | EmptyString => [EmptyString]
  end.

(** Truth value of a string: [bool(s)]. *)
Definition nonempty (s : string) : bool :=
  match s with EmptyString => false | String _ _ => true end.

(** [sep.join(parts)] *)
Definition join (sep : string) (parts : list string) : string :=
  String.concat sep parts.

(** [sub in s] for strings *)
Fixpoint contains (sub s : string) : bool :=
  prefix sub s ||
  match s with
  | String _ s' => contains sub s'
  | EmptyString => false
  end.

(** [s.lower()] restricted to the letters A..Z, which is all the
    keywords of [float] need. *)
Definition lower_ascii (c : ascii) : ascii :=
  let n := N_of_ascii c in
  if ((65 <=? n) && (n <=? 90))%N then ascii_of_N (n + 32) else c.

Fixpoint lower (s : string) : string :=
  match s with
  | String c s' => String (lower_ascii c) (lower s')
  | EmptyString => EmptyString
  end.

(** The first and the last character. *)
Definition head (s : string) : option ascii :=
  match s with String c _ => Some c | EmptyString => None end.

Fixpoint last (s : string) : option ascii :=
  match s with
  | String c EmptyString => Some c
  | String _ s' => last s'
  | EmptyString => None
  end.

(** All characters of [s] satisfy [p]. *)
Fixpoint forallb (p : ascii -> bool) (s : string) : bool :=
  match s with
  | String c s' => p c && forallb p s'
  | EmptyString => true
  end.

End Str.

(** ** Python numbers *)

Module Num.

(** The decimal digits of [int] and [float] literals.  Below U+0100 the
    only characters of category Nd are the ASCII digits. *)
Definition digit_value (c : ascii) : option Z :=
  let n := Z.of_N (N_of_ascii c) in
  if (48 <=? n) && (n <=? 57) then Some (n - 48) else None.

(** The whitespace that [int] and [float] accept around a literal: the
    ASCII set of C's [isspace] together with the non-ASCII spaces. *)
Definition isspace_literal (c : ascii) : bool :=
  let n := N_of_ascii c in
  (((9 <=? n) && (n <=? 13)) || (n =? 32) || (n =? 133) || (n =? 160))%N.

(** Longest prefix of [s] of the form [digit (["_"] digit)*], read after
    [n] digits of value [acc]: the value, the number of digits and the
    rest of the string. *)
Fixpoint digitpart (acc : Z) (n : nat) (s : string)
  : (Z * nat * string)%type :=
  match s with
  | String c s' =>
      match digit_value c with
      | Some d => digitpart (10 * acc + d) (S n) s'
      | None =>
          match n, s' with
          | S _, String c' s'' =>
              match digit_value c' with
              | Some d =>
                  if Ascii.eqb c "_"%char
                  then digitpart (10 * acc + d) (S n) s''
                  else (acc, n, s)
              | None => (acc, n, s)
              end
          | _, _ => (acc, n, s)
          end
      end
  | EmptyString => (acc, n, s)
  end.

Definition split_sign (s : string) : bool * string :=
  match s with
  | String c s' =>
      if Ascii.eqb c "-"%char then (true, s')
      else if Ascii.eqb c "+"%char then (false, s')
      else (false, s)
  | EmptyString => (false, s)
  end.

(** [sys.get_int_max_str_digits()]: the greatest number of digits that
    [int] reads from a string and that [str] writes for an integer. *)
Definition int_max_str_digits : Z := 4300.

(** [int(s)] for a string, base 10; [None] is [ValueError], which is
    also what a literal of more than 4300 digits gives. *)
Definition int_of_str (s : string) : option Z :=
  let '(neg, r) := split_sign (Str.strip_with isspace_literal s) in
  match digitpart 0 0 r with
  | (v, S n, EmptyString) =>
      if Z.of_nat (S n) <=? int_max_str_digits
      then Some (if neg then - v else v)
      else None
  | _ => None
  end.

(** The number of digits [int] has counted when it refuses a string for
    their number: the digits are counted before the characters after
    them are looked at, unless the next one is an underscore. *)
Definition int_too_many_digits (s : string) : option Z :=
  let '(_, r) := split_sign (Str.strip_with isspace_literal s) in
  let '(_, n, rest) := digitpart 0 0 r in
  if Z.of_nat n <=? int_max_str_digits then None
  else
    match rest with
    | String c _ => if Ascii.eqb c "_"%char then None else Some (Z.of_nat n)
    | EmptyString => Some (Z.of_nat n)
    end.

(** The digits of an integer, which [str(n)] returns when they are not
    too many. *)
Definition str_of_int (n : Z) : string :=
  DecimalString.NilZero.string_of_int (Z.to_int n).

(** [n] has more than 4300 digits: [str(n)] raises [ValueError]. *)
Definition too_many_digits (n : Z) : bool :=
  10 ^ int_max_str_digits <=? Z.abs n.

(** *** binary64 *)

Definition prec : Z := 53.
Definition emax : Z := 1024.

Definition float := spec_float.

(** The float nearest to [m * 10^e] (ties to even) with sign [neg], for
    [0 <= m]. *)
Definition float_of_decimal (neg : bool) (m e : Z) : float :=
  match m with
  | Z0 => S754_zero neg
  | Zpos p =>
      if 0 <=? e
      then binary_round prec emax neg (Z.to_pos (m * 10 ^ e)) 0
      else
        let '(q, e', l) := SFdiv_core_binary prec emax m 0 (10 ^ (- e)) 0 in
        binary_round_aux prec emax neg q e' l
  | Zneg _ => S754_nan
  end.

(** [float(s)] for a string; [None] is [ValueError]. *)
Definition float_of_str (s : string) : option float :=
  let '(neg, r) := split_sign (Str.strip_with isspace_literal s) in
  let word := Str.lower r in
  if String.eqb word "inf" || String.eqb word "infinity"
  then Some (S754_infinity neg)
  else if String.eqb word "nan" then Some S754_nan
  else
    let '(ip, ni, r1) := digitpart 0 0 r in
    let '(m, nf, r2) :=
      match r1 with
      | String c r1' =>
          if Ascii.eqb c "."%char then digitpart ip 0 r1' else (ip, 0%nat, r1)
      | EmptyString => (ip, 0%nat, r1)
      end in
    match (ni + nf)%nat with
    | O => None
    | S _ =>
        match r2 with
        | EmptyString => Some (float_of_decimal neg m (- Z.of_nat nf))
        | String c r2' =>
            if Ascii.eqb c "e"%char || Ascii.eqb c "E"%char
            then
              let '(eneg, r3) := split_sign r2' in
              match digitpart 0 0 r3 with
              | (ev, S _, EmptyString) =>
                  Some (float_of_decimal neg m
                          ((if eneg then - ev else ev) - Z.of_nat nf))
              | _ => None
              end
            else None
        end
    end.

(** [float(n)] for an integer; [None] is [OverflowError]. *)
Definition float_of_int (n : Z) : option float :=
  match binary_normalize prec emax n 0 false with
  | S754_infinity _ => None
  | f => Some f
  end.

(** [int(f)] for a float: truncation toward zero. *)
Inductive trunc_result := Trunc (n : Z) | TruncInfinity | TruncNaN.

Definition int_of_float (f : float) : trunc_result :=
  match f with
  | S754_zero _ => Trunc 0
  | S754_infinity _ => TruncInfinity
  | S754_nan => TruncNaN
  | S754_finite s m e =>
      let a := if 0 <=? e then Z.shiftl (Zpos m) e
               else Z.shiftr (Zpos m) (- e) in
      Trunc (if s then - a else a)
  end.

(** [f >= 0] *)
Definition float_nonneg (f : float) : bool :=
  SFleb (S754_zero false) f.

(** [bool(f)] *)
Definition float_truth (f : float) : bool :=
  match f with S754_zero _ => false | _ => true end.

(** *** [repr(f)]: the shortest decimal string that reads back as [f] *)

Definition float_eqb (f g : float) : bool :=
  match f, g with
  | S754_zero s, S754_zero t => Bool.eqb s t
  | S754_infinity s, S754_infinity t => Bool.eqb s t
  | S754_nan, S754_nan => true
  | S754_finite s m e, S754_finite t n d =>
      Bool.eqb s t && Pos.eqb m n && Z.eqb e d
  | _, _ => false
  end.

(** [m * 2^e * 10^j] as a fraction of two positive integers. *)
Definition scaled (m : positive) (e j : Z) : Z * Z :=
  let n := Zpos m * 2 ^ (Z.max e 0) in
  let d := 2 ^ (Z.max (- e) 0) in
  if 0 <=? j then (n * 10 ^ j, d) else (n, d * 10 ^ (- j)).

(** [m * 2^e < 10^k] *)
Definition below_pow10 (m : positive) (e k : Z) : bool :=
  let '(n, d) := scaled m e (- k) in n <? d.

Fixpoint search_exponent (fuel : nat) (m : positive) (e k : Z) : Z :=
  match fuel with
  | O => k
  | S fuel' =>
      if below_pow10 m e k then k else search_exponent fuel' m e (k + 1)
  end.

(** The [k] with [10^(k-1) <= m * 2^e < 10^k]. *)
Definition decimal_exponent (m : positive) (e : Z) : Z :=
  let bits := Zpos (digits2_pos m) + e in
  search_exponent 8 m e (bits * 1233 / 4096 - 2).

(** The [n]-digit decimal [c * 10^(k-n)] nearest to [m * 2^e] among
    those that read back as [target], if there is one. *)
Definition digits_at (target : float) (m : positive) (e k : Z) (n : Z)
  : option Z :=
  let '(a, b) := scaled m e (n - k) in
  let lo := a / b in
  let r := a mod b in
  let reads c := float_eqb (float_of_decimal false c (k - n)) target in
  if r =? 0 then Some lo
  else
    match reads lo, reads (lo + 1) with
    | true, true =>
        match 2 * r ?= b with
        | Lt => Some lo
        | Gt => Some (lo + 1)
        | Eq => Some (if Z.even lo then lo else lo + 1)
        end
    | true, false => Some lo
    | false, true => Some (lo + 1)
    | false, false => None
    end.

Fixpoint shortest_digits (fuel : nat) (target : float) (m : positive)
    (e k : Z) (n : Z) : Z * Z :=
  match fuel with
  | O => (fst (scaled m e (n - k)) / snd (scaled m e (n - k)), n)
  | S fuel' =>
      match digits_at target m e k n with
      | Some c => (c, n)
      | None => shortest_digits fuel' target m e k (n + 1)
      end
  end.

Fixpoint rstrip_zeros (s : string) : string :=
  match s with
  | String c s' =>
      match rstrip_zeros s' with
      | EmptyString =>
          if Ascii.eqb c "0"%char then EmptyString else String c EmptyString
      | r => String c r
      end
  | EmptyString => EmptyString
  end.

Fixpoint zeros (n : nat) : string :=
  match n with O => EmptyString | S n' => String "0"%char (zeros n') end.

(** The layout of [repr]: [digits] are the significant digits and the
    decimal point stands before digit number [decpt]. *)
Definition format_repr (digits : string) (decpt : Z) : string :=
  let len := Z.of_nat (String.length digits) in
  if (decpt <=? -4) || (16 <? decpt) then
    let e := decpt - 1 in
    let mantissa :=
      match digits with
      | String c EmptyString => digits
      | String c rest => String c (String "."%char rest)
      | EmptyString => digits
      end in
    let ex := str_of_int (Z.abs e) in
    mantissa ++ "e" ++ (if e <? 0 then "-" else "+")
      ++ (if Z.abs e <? 10 then "0" ++ ex else ex)
  else if decpt <=? 0 then
    "0." ++ zeros (Z.to_nat (- decpt)) ++ digits
  else if len <=? decpt then
    digits ++ zeros (Z.to_nat (decpt - len)) ++ ".0"
  else
    substring 0 (Z.to_nat decpt) digits ++ "."
      ++ substring (Z.to_nat decpt) (Z.to_nat (len - decpt)) digits.

Definition repr_finite (m : positive) (e : Z) : string :=
  let target := binary_round prec emax false m e in
  let k := decimal_exponent m e in
  let '(c, n) := shortest_digits 17 target m e k 1 in
  let ds := str_of_int c in
  format_repr (rstrip_zeros ds) (k - n + Z.of_nat (String.length ds)).

Definition float_repr (f : float) : string :=
  match f with
  | S754_nan => "nan"
  | S754_infinity s => if s then "-inf" else "inf"
  | S754_zero s => if s then "-0.0" else "0.0"
  | S754_finite s m e => (if s then "-" else "") ++ repr_finite m e
  end.

End Num.

(** ** [datetime.date] and [datetime.strptime] *)

Module Date.

Record date := mkdate { year : Z; month : Z; day : Z }.

Definition is_leap (y : Z) : bool :=
  (y mod 4 =? 0) && (negb (y mod 100 =? 0) || (y mod 400 =? 0)).

Definition days_in_month (y m : Z) : Z :=
  if m =? 2 then (if is_leap y then 29 else 28)
  else if (m =? 4) || (m =? 6) || (m =? 9) || (m =? 11) then 30
  else 31.

(** [date(y, m, d)]; [None] is [ValueError]. *)
Definition make_date (y m d : Z) : option date :=
  if (1 <=? y) && (y <=? 9999) && (1 <=? m) && (m <=? 12)
     && (1 <=? d) && (d <=? days_in_month y m)
  then Some (mkdate y m d) else None.

Definition zero_pad (width : nat) (s : string) : string :=
  Num.zeros (width - String.length s) ++ s.

(** [str(d)], that is [d.isoformat()] *)
Definition isoformat (d : date) : string :=
  zero_pad 4 (Num.str_of_int (year d)) ++ "-"
  ++ zero_pad 2 (Num.str_of_int (month d)) ++ "-"
  ++ zero_pad 2 (Num.str_of_int (day d)).

(** [repr(d)] *)
Definition repr (d : date) : string :=
  "datetime.date(" ++ Num.str_of_int (year d) ++ ", "
  ++ Num.str_of_int (month d) ++ ", " ++ Num.str_of_int (day d) ++ ")".

(** *** [strptime]

    A format is a sequence of directives and literal characters.  Each
    directive stands for the regular expression the library builds for
    it, an ordered choice between fixed-length alternatives:
    [%Y] is [\d\d\d\d], [%m] is [1[0-2]|0[1-9]|[1-9]] and [%d] is
    [3[0-1]|[1-2]\d|0[1-9]|[1-9]| [1-9]]. *)

Inductive directive := dir_Y | dir_m | dir_d.

Inductive item := Dir (d : directive) | Lit (c : ascii).

Definition char_class := ascii -> bool.

Definition between (lo hi : ascii) : char_class :=
  fun c => ((N_of_ascii lo <=? N_of_ascii c)
            && (N_of_ascii c <=? N_of_ascii hi))%N.

Definition only (a : ascii) : char_class := Ascii.eqb a.

Definition digit : char_class := between "0" "9".

Definition alternatives (d : directive) : list (list char_class) :=
  match d with
  | dir_Y => [[digit; digit; digit; digit]]
  | dir_m => [[only "1"; between "0" "2"];
              [only "0"; between "1" "9"];
              [between "1" "9"]]
  | dir_d => [[only "3"; between "0" "1"];
              [between "1" "2"; digit];
              [only "0"; between "1" "9"];
              [between "1" "9"];
              [only " "; between "1" "9"]]
  end.

(** One alternative at the head of [s]: the matched text and the rest. *)
Fixpoint match_classes (cs : list char_class) (s : string)
  : option (string * string) :=
  match cs with
  | [] => Some (EmptyString, s)
  | p :: cs' =>
      match s with
      | String c s' =>
          if p c then
            match match_classes cs' s' with
            | Some (txt, rest) => Some (String c txt, rest)
            | None => None
            end
          else None
      | EmptyString => None
      end
  end.

(** The groups [Y], [m] and [d] of a match; the defaults are those of
    the library. *)
Record groups := mkgroups { g_Y : Z; g_m : Z; g_d : Z }.

Definition no_groups : groups := mkgroups 1900 1 1.

Definition set_group (d : directive) (txt : string) (g : groups) : groups :=
  let n := match Num.int_of_str txt with Some n => n | None => 0 end in
  match d with
  | dir_Y => mkgroups n (g_m g) (g_d g)
  | dir_m => mkgroups (g_Y g) n (g_d g)
  | dir_d => mkgroups (g_Y g) (g_m g) n
  end.

(** The first success of [k] over a list of choices, in order: the
    backtracking of the regular expression engine. *)
Fixpoint first_success {A B : Type} (k : A -> option B) (l : list A)
  : option B :=
  match l with
  | [] => None
  | a :: l' => match k a with Some b => Some b | None => first_success k l' end
  end.

(** [format_regex.match(s)]: the groups and the text left after the
    match. *)
Fixpoint match_format (fmt : list item) (s : string) (g : groups)
  : option (groups * string) :=
  match fmt with
  | [] => Some (g, s)
  | Lit a :: fmt' =>
      match s with
      | String c s' => if Ascii.eqb a c then match_format fmt' s' g else None
      | EmptyString => None
      end
  | Dir d :: fmt' =>
      first_success
        (fun cs =>
           match match_classes cs s with
           | Some (txt, rest) => match_format fmt' rest (set_group d txt g)
           | None => None
           end)
        (alternatives d)
  end.

(** The format as the string the program writes. *)
Fixpoint format_string (fmt : list item) : string :=
  match fmt with
  | [] => EmptyString
  | Lit a :: fmt' => String a (format_string fmt')
  | Dir d :: fmt' =>
      String "%"%char
        (String (match d with
                 | dir_Y => "Y" | dir_m => "m" | dir_d => "d"
                 end)%char
           (format_string fmt'))
  end.

(** Why [strptime] raises [ValueError]. *)
Inductive strptime_error :=
| NoMatch
| UnconvertedData (rest : string)
| ImpossibleDate (y : Z).

(** [datetime.strptime(s, fmt).date()]: no match, unconverted data
    left, or an impossible date raise [ValueError]. *)
Definition strptime (s : string) (fmt : list item)
  : strptime_error + date :=
  match match_format fmt s no_groups with
  | Some (g, EmptyString) =>
      match make_date (g_Y g) (g_m g) (g_d g) with
      | Some d => inr d
      | None => inl (ImpossibleDate (g_Y g))
      end
  | Some (_, rest) => inl (UnconvertedData rest)
  | None => inl NoMatch
  end.

(** ["%Y-%m-%d"], ["%Y/%m/%d"] and ["%m/%d/%Y"] *)
Definition fmt_Y_m_d_dash : list item :=
  [Dir dir_Y; Lit "-"; Dir dir_m; Lit "-"; Dir dir_d].
Definition fmt_Y_m_d_slash : list item :=
  [Dir dir_Y; Lit "/"; Dir dir_m; Lit "/"; Dir dir_d].
Definition fmt_m_d_Y_slash : list item :=
  [Dir dir_m; Lit "/"; Dir dir_d; Lit "/"; Dir dir_Y].

End Date.

(** ** Python values

    The objects the validators can receive: what [json.loads] produces,
    and [datetime.date] objects. *)

#[local] Unset Elimination Schemes.

Inductive value :=
| VNone
| VBool (b : bool)
| VInt (n : Z)
| VFloat (f : Num.float)
| VStr (s : string)
| VList (l : list value)
| VDict (d : list (string * value))
| VDate (d : Date.date).

#[local] Set Elimination Schemes.

Definition pydict := list (string * value).

(** *** Dictionaries, in insertion order *)

Module Dict.

Section Ops.
Context {V : Type}.

(** [d.get(k)] *)
Fixpoint get (k : string) (d : list (string * V)) : option V :=
  match d with
  | [] => None
  | (k', v) :: d' => if String.eqb k k' then Some v else get k d'
  end.

(** [k in d] *)
Definition mem (k : string) (d : list (string * V)) : bool :=
  match get k d with Some _ => true | None => false end.

(** [d[k] = v]: a present key keeps its place, a new key goes last. *)
Fixpoint set (k : string) (v : V) (d : list (string * V))
  : list (string * V) :=
  match d with
  | [] => [(k, v)]
  | (k', v') :: d' =>
      if String.eqb k k' then (k, v) :: d' else (k', v') :: set k v d'
  end.

(** [d.update(other)] *)
Definition update (d other : list (string * V)) : list (string * V) :=
  fold_left (fun acc kv => set (fst kv) (snd kv) acc) other d.

Definition keys (d : list (string * V)) : list string := map fst d.

(** The representation invariant of a dictionary: no key twice. *)
Definition wf (d : list (string * V)) : Prop := NoDup (keys d).

End Ops.

End Dict.

(** *** [repr] and [str] *)

Definition hex_digit (n : N) : ascii :=
  match n with
  | 0 => "0" | 1 => "1" | 2 => "2" | 3 => "3" | 4 => "4" | 5 => "5"
  | 6 => "6" | 7 => "7" | 8 => "8" | 9 => "9" | 10 => "a" | 11 => "b"
  | 12 => "c" | 13 => "d" | 14 => "e" | _ => "f"
  end%N%char.

(** [c.isprintable()] below U+0100 *)
Definition isprintable (c : ascii) : bool :=
  let n := N_of_ascii c in
  ((32 <=? n) && (n <=? 126) || (161 <=? n) && negb (n =? 173))%N.

Definition repr_char (quote c : ascii) : string :=
  let n := N_of_ascii c in
  if Ascii.eqb c quote || Ascii.eqb c "\"%char
  then String "\"%char (String c EmptyString)
  else if (n =? 9)%N then "\t"
  else if (n =? 10)%N then "\n"
  else if (n =? 13)%N then "\r"
  else if isprintable c then String c EmptyString
  else String "\"%char
         (String "x"%char
            (String (hex_digit (n / 16)) (String (hex_digit (n mod 16))
               EmptyString))).

Fixpoint repr_chars (quote : ascii) (s : string) : string :=
  match s with
  | String c s' => repr_char quote c ++ repr_chars quote s'
  | EmptyString => EmptyString
  end.

Definition has_char (a : ascii) (s : string) : bool :=
  negb (Str.forallb (fun c => negb (Ascii.eqb a c)) s).

(** [repr(s)] for a string: single quotes, unless the string has a
    single quote and no double quote. *)
Definition single_quote : ascii := "'"%char.
Definition double_quote : ascii := "034"%char.

Definition str_repr (s : string) : string :=
  let quote := if has_char single_quote s && negb (has_char double_quote s)
               then double_quote else single_quote in
  String quote (repr_chars quote s ++ String quote EmptyString).

(** The text of [repr(v)], which [repr] returns unless it raises (see
    [str_raises] below). *)
Fixpoint repr_text (v : value) : string :=
  match v with
  | VNone => "None"
  | VBool b => if b then "True" else "False"
  | VInt n => Num.str_of_int n
  | VFloat f => Num.float_repr f
  | VStr s => str_repr s
  | VList l => "[" ++ Str.join ", " (map repr_text l) ++ "]"
  | VDict d =>
      "{" ++ Str.join ", "
               (map (fun kv =>
                       (str_repr (fst kv) ++ ": " ++ repr_text (snd kv))%string)
                     d)
          ++ "}"
  | VDate d => Date.repr d
  end.

(** The text of [str(v)], likewise. *)
Definition str_text (v : value) : string :=
  match v with
  | VStr s => s
  | VDate d => Date.isoformat d
  | _ => repr_text v
  end.

(** [str(v)] and [repr(v)] raise when [v] is an integer of more than
    4300 digits, or an array or object that holds one at any depth; the
    text of a string, a float or a date is always written. *)
Fixpoint str_raises (v : value) : bool :=
  match v with
  | VInt n => Num.too_many_digits n
  | VList l => existsb str_raises l
  | VDict d => existsb (fun kv => str_raises (snd kv)) d
  | _ => false
  end.

(** [type(v).__name__], as error messages show it *)
Definition type_name (v : value) : string :=
  match v with
  | VNone => "NoneType"
  | VBool _ => "bool"
  | VInt _ => "int"
  | VFloat _ => "float"
  | VStr _ => "str"
  | VList _ => "list"
  | VDict _ => "dict"
  | VDate _ => "datetime.date"
  end.

(** [bool(v)] *)
Definition truthy (v : value) : bool :=
  match v with
  | VNone => false
  | VBool b => b
  | VInt n => negb (n =? 0)
  | VFloat f => Num.float_truth f
  | VStr s => Str.nonempty s
  | VList l => match l with [] => false | _ => true end
  | VDict d => match d with [] => false | _ => true end
  | VDate _ => true
  end.

(** [v is None] *)
Definition is_None (v : value) : bool :=
  match v with VNone => true | _ => false end.

(** [v == ""] *)
Definition eq_empty_str (v : value) : bool :=
  match v with VStr EmptyString => true | _ => false end.

(** ** Exceptions and the logger *)

(** An exception is its class and its message.  [OtherException] is any
    other class derived from [Exception]; the last four are the classes
    derived from [BaseException] and not from [Exception]. *)
Inductive exception :=
| ValueError (msg : string)
| TypeError (msg : string)
| OverflowError (msg : string)
| KeyError (msg : string)
| OtherException (msg : string)
| SystemExit (msg : string)
| KeyboardInterrupt (msg : string)
| GeneratorExit (msg : string)
| OtherBaseException (msg : string).

(** [str(e)] *)
Definition exception_str (e : exception) : string :=
  match e with
  | ValueError msg | TypeError msg | OverflowError msg
  | KeyError msg | OtherException msg | SystemExit msg
  | KeyboardInterrupt msg | GeneratorExit msg | OtherBaseException msg => msg
  end.

(** [isinstance(e, Exception)]: what [except Exception] catches. *)
Definition is_Exception (e : exception) : bool :=
  match e with
  | SystemExit _ | KeyboardInterrupt _ | GeneratorExit _
  | OtherBaseException _ => false
  | _ => true
  end.

Inductive log_level := DEBUG | WARNING.

Record log_record := mklog { level : log_level; message : string }.

(** A computation that writes log records and then returns or raises. *)
Definition M (A : Type) : Type := (list log_record * (exception + A))%type.

Definition ret {A : Type} (a : A) : M A := ([], inr a).

Definition raise {A : Type} (e : exception) : M A := ([], inl e).

Definition bind {A B : Type} (m : M A) (k : A -> M B) : M B :=
  match m with
  | (l, inl e) => (l, inl e)
  | (l, inr a) => let '(l', r) := k a in (l ++ l', r)
  end.

Notation "x <- m ;; k" := (bind m (fun x => k))
  (at level 61, m at next level, right associativity).
Notation "m ;;; k" := (bind m (fun _ => k))
  (at level 61, right associativity).

(** [logger.warning(msg)], [logger.debug(msg)] *)
Definition logger_warning (msg : string) : M unit :=
  ([mklog WARNING msg], inr tt).
Definition logger_debug (msg : string) : M unit :=
  ([mklog DEBUG msg], inr tt).

(** [try: m except <classes>: handler]; an exception outside [classes]
    goes on. *)
Definition try_except {A : Type} (m : M A) (classes : exception -> bool)
    (handler : M A) : M A :=
  match m with
  | (l, inl e) =>
      if classes e then let '(l', r) := handler in (l ++ l', r)
      else (l, inl e)
  | (l, inr a) => (l, inr a)
  end.

Definition lift {A : Type} (r : exception + A) : M A := ([], r).

(** The tuple [(ValueError, TypeError)] of an [except] clause. *)
Definition ValueError_or_TypeError (e : exception) : bool :=
  match e with
  | ValueError _ | TypeError _ => true
  | _ => false
  end.

(** ** The conversions [str(v)], [int(v)] and [float(v)] *)

Definition digit_limit_message : string :=
  "Exceeds the limit (4300 digits) for integer string conversion".

Definition digit_limit_advice : string :=
  "; use sys.set_int_max_str_digits() to increase the limit".

(** What [str] and [repr] raise for an integer of too many digits. *)
Definition digit_limit_error : exception :=
  ValueError (digit_limit_message ++ digit_limit_advice).

(** [str(v)], also [f"{v}"] *)
Definition py_str (v : value) : exception + string :=
  if str_raises v then inl digit_limit_error else inr (str_text v).

Definition py_int (v : value) : exception + Z :=
  match v with
  | VInt n => inr n
  | VBool b => inr (if b then 1 else 0)
  | VFloat f =>
      match Num.int_of_float f with
      | Num.Trunc n => inr n
      | Num.TruncInfinity =>
          inl (OverflowError "cannot convert float infinity to integer")
      | Num.TruncNaN => inl (ValueError "cannot convert float NaN to integer")
      end
  | VStr s =>
      match Num.int_of_str s with
      | Some n => inr n
      | None =>
          match Num.int_too_many_digits s with
          | Some digits =>
              inl (ValueError
                     (digit_limit_message ++ ": value has "
                      ++ Num.str_of_int digits ++ " digits"
                      ++ digit_limit_advice))
          | None =>
              inl (ValueError
                     ("invalid literal for int() with base 10: "
                      ++ str_repr s))
          end
      end
  | _ =>
      inl (TypeError
             ("int() argument must be a string, a bytes-like object or a "
              ++ "real number, not '" ++ type_name v ++ "'"))
  end.

Definition py_float (v : value) : exception + Num.float :=
  match v with
  | VFloat f => inr f
  | VInt n =>
      match Num.float_of_int n with
      | Some f => inr f
      | None => inl (OverflowError "int too large to convert to float")
      end
  | VBool b =>
      inr (if b then binary_normalize Num.prec Num.emax 1 0 false
           else S754_zero false)
  | VStr s =>
      match Num.float_of_str s with
      | Some f => inr f
      | None =>
          inl (ValueError ("could not convert string to float: " ++ str_repr s))
      end
  | _ =>
      inl (TypeError
             ("float() argument must be a string or a real number, not '"
              ++ type_name v ++ "'"))
  end.

(** [k in c], for a string [k] *)
Definition py_in (k : string) (c : value) : exception + bool :=
  match c with
  | VDict d => inr (Dict.mem k d)
  | VStr s => inr (Str.contains k s)
  | VList l =>
      inr (existsb (fun x => match x with
                             | VStr s => String.eqb s k
                             | _ => false
                             end) l)
  | _ =>
      inl (TypeError ("argument of type '" ++ type_name c
                      ++ "' is not iterable"))
  end.

(** [c[k]], for a string [k] *)
Definition py_getitem (c : value) (k : string) : exception + value :=
  match c with
  | VDict d =>
      match Dict.get k d with
      | Some v => inr v
      | None => inl (KeyError (str_repr k))
      end
  | VStr _ => inl (TypeError "string indices must be integers, not 'str'")
  | VList _ =>
      inl (TypeError "list indices must be integers or slices, not str")
  | _ =>
      inl (TypeError ("'" ++ type_name c ++ "' object is not subscriptable"))
  end.

(** [datetime.strptime(s, fmt).date()] with its exception. *)
Definition py_strptime (s : string) (fmt : list Date.item) : M Date.date :=
  match Date.strptime s fmt with
  | inr d => ret d
  | inl Date.NoMatch =>
      raise (ValueError ("time data " ++ str_repr s
                         ++ " does not match format "
                         ++ str_repr (Date.format_string fmt)))
  | inl (Date.UnconvertedData rest) =>
      raise (ValueError ("unconverted data remains: " ++ rest))
  | inl (Date.ImpossibleDate y) =>
      raise (ValueError (if y =? 0 then "year 0 is out of range"
                         else "day is out of range for month"))
  end.

Definition is_ValueError (e : exception) : bool :=
  match e with ValueError _ => true | _ => false end.

(** ** Model validation

    What the validation library does with a model class: the model's
    "before" validator runs on the raw input; then every declared field,
    in declaration order, takes the value under its name or its default;
    a value goes through the field's "before" validator and then through
    the validator of the declared type.  Keys that name no field are
    ignored.  Type errors are collected and reported together when all
    fields have run; an exception raised by a validator (other than
    [ValueError], which counts as a type error) leaves at once. *)

Inductive loc_item := LocField (name : string) | LocIndex (i : nat).

Record line_error := mkerr { err_loc : list loc_item; err_type : string }.

(** A validator's result: log records, then either an exception or the
    line errors found together with the value when there are none. *)
Definition Val (A : Type) : Type :=
  (list log_record * (exception + (list line_error * option A)))%type.

Definition valid {A : Type} (a : A) : Val A := ([], inr ([], Some a)).

Definition invalid {A : Type} (type : string) : Val A :=
  ([], inr ([mkerr [] type], None)).

Definition ap {A B : Type} (f : Val (A -> B)) (x : Val A) : Val B :=
  match f with
  | (l, inl e) => (l, inl e)
  | (l, inr (errs, g)) =>
      match x with
      | (l', inl e) => (l ++ l', inl e)
      | (l', inr (errs', a)) =>
          (l ++ l',
           inr (errs ++ errs',
                match g, a with
                | Some g, Some a => Some (g a)
                | _, _ => None
                end))
      end
  end.

Notation "f <*> x" := (ap f x) (at level 52, left associativity).

(** The errors of [x], reported under the location [i]. *)
Definition at_loc {A : Type} (i : loc_item) (x : Val A) : Val A :=
  match x with
  | (l, inr (errs, a)) =>
      (l, inr (map (fun e => mkerr (i :: err_loc e) (err_type e)) errs, a))
  | (l, inl e) => (l, inl e)
  end.

(** A "before" validator [m] followed by the validator [type] of the
    declared type. *)
Definition validated {A B : Type} (m : M A) (type : A -> Val B) : Val B :=
  match m with
  | (l, inl (ValueError _)) => (l, inr ([mkerr [] "value_error"], None))
  | (l, inl e) => (l, inl e)
  | (l, inr a) => let '(l', r) := type a in (l ++ l', r)
  end.

(** A declared field: the value under [name] validated, or the default. *)
Definition field {A : Type} (name : string) (default : A)
    (validate : value -> Val A) (d : pydict) : Val A :=
  match Dict.get name d with
  | Some v => at_loc (LocField name) (validate v)
  | None => valid default
  end.

(** A required field. *)
Definition required_field {A : Type} (name : string)
    (validate : value -> Val A) (d : pydict) : Val A :=
  match Dict.get name d with
  | Some v => at_loc (LocField name) (validate v)
  | None => ([], inr ([mkerr [LocField name] "missing"], None))
  end.

(** The elements of a list, validated one after the other. *)
Fixpoint each {A : Type} (validate : value -> Val A) (i : nat)
    (l : list value) : Val (list A) :=
  match l with
  | [] => valid []
  | v :: l' =>
      valid cons <*> at_loc (LocIndex i) (validate v)
                 <*> each validate (S i) l'
  end.

(** What the caller of [Model.model_validate] or [Model(...)] sees. *)
Inductive outcome (A : Type) :=
| Valid (a : A)
| ValidationError (errors : list line_error)
| Raised (e : exception).

Arguments Valid {A} a.
Arguments ValidationError {A} errors.
Arguments Raised {A} e.

Definition run {A : Type} (x : Val A) : list log_record * outcome A :=
  match x with
  | (l, inl e) => (l, Raised e)
  | (l, inr ([], Some a)) => (l, Valid a)
  | (l, inr (errs, _)) => (l, ValidationError errs)
  end.

(** The validators of the declared types. *)

(** [str]: [None] is not a string. *)
Definition str_type (v : option string) : Val string :=
  match v with
  | Some s => valid s
  | None => invalid "string_type"
  end.

(** [dict[str, Any]] *)
Definition dict_type (v : value) : Val pydict :=
  match v with
  | VDict d => valid d
  | _ => invalid "dict_type"
  end.

(** A type that admits every value the "before" validator returns
    ([str | None], [list[str]], [int | None], [float | None],
    [date | str | None]). *)
Definition any_of_them {A : Type} (a : A) : Val A := valid a.

(** ** [class Book] *)

(** A value of type [date | str]. *)
Inductive date_or_str := a_date (d : Date.date) | a_str (s : string).

Record Book := mkBook {
  name : string;
  title : option string;
  authors : list string;
  isbn : option string;
  publication_date : option date_or_str;
  pages : option Z;
  price : option Num.float;
  description : option string;
  cover_image_url : option string;
  purchase_url : option string;
  publisher : option string;
  genre : option string;
  language : option string;
  format : option string;
  raw_metadata : pydict
}.

Definition handle_string_fields (v : value) : M (option string) :=
  if is_None v || eq_empty_str v
     || match v with
        | VStr s => negb (Str.nonempty (Str.strip s))
        | _ => false
        end
  then ret None
  else
    match v with
    | VStr s =>
        let normalized := Str.re_sub_spaces (Str.strip s) in
        ret (if Str.nonempty normalized then Some normalized else None)
    | _ =>
        if negb (is_None v) then text <- lift (py_str v) ;; ret (Some text)
        else ret None
    end.

(** [[str(author).strip() for author in v if str(author).strip()]] *)
Fixpoint authors_of_list (v : list value) : M (list string) :=
  match v with
  | [] => ret []
  | author :: v' =>
      text <- lift (py_str author) ;;
      if Str.nonempty (Str.strip text)
      then
        text' <- lift (py_str author) ;;
        rest <- authors_of_list v' ;;
        ret (Str.strip text' :: rest)
      else authors_of_list v'
  end.

Definition handle_authors_field (v : value) : M (list string) :=
  match v with
  | VNone => ret []
  | VStr s =>
      ret (map Str.strip
             (filter (fun author => Str.nonempty (Str.strip author))
                (Str.re_split_separators s)))
  | VList l => authors_of_list l
  | _ =>
      text <- lift (py_str v) ;;
      if Str.nonempty (Str.strip text)
      then text' <- lift (py_str v) ;; ret [Str.strip text']
      else ret []
  end.

Definition handle_pages_field (v : value) : M (option Z) :=
  if is_None v || eq_empty_str v then ret None
  else
    try_except
      (pages <- lift (py_int v) ;;
       ret (if 0 <? pages then Some pages else None))
      ValueError_or_TypeError
      (text <- lift (py_str v) ;;
       logger_warning
         ("Cannot parse pages value: " ++ text ++ ". Setting to None.") ;;;
       ret None).

Definition handle_price_field (v : value) : M (option Num.float) :=
  if is_None v || eq_empty_str v then ret None
  else
    try_except
      (price <- lift (py_float v) ;;
       ret (if Num.float_nonneg price then Some price else None))
      ValueError_or_TypeError
      (text <- lift (py_str v) ;;
       logger_warning
         ("Cannot parse price value: " ++ text ++ ". Setting to None.") ;;;
       ret None).

Definition handle_publication_date_field (v : value)
  : M (option date_or_str) :=
  if is_None v || eq_empty_str v then ret None
  else
    match v with
    | VDate d => ret (Some (a_date d))
    | VStr s =>
        let v := Str.strip s in
        try_except
          (d <- py_strptime v Date.fmt_Y_m_d_dash ;; ret (Some (a_date d)))
          is_ValueError
          (try_except
             (d <- py_strptime v Date.fmt_Y_m_d_slash ;;
              ret (Some (a_date d)))
             is_ValueError
             (try_except
                (d <- py_strptime v Date.fmt_m_d_Y_slash ;;
                 ret (Some (a_date d)))
                is_ValueError
                (logger_warning
                   ("Cannot parse date format: " ++ v
                    ++ ". Storing as string.") ;;;
                 ret (Some (a_str v)))))
    | _ => text <- lift (py_str v) ;; ret (Some (a_str text))
    end.

Definition core_fields : list string :=
  ["name"; "title"; "authors"; "isbn"; "publication_date"; "pages";
   "price"; "description"; "cover_image_url"; "purchase_url";
   "publisher"; "genre"; "language"; "format"].

(** [key in core_fields] *)
Definition is_core_field (key : string) : bool :=
  existsb (String.eqb key) core_fields.

(** [k in d and d[k]] *)
Definition present_and_truthy (k : string) (d : pydict) : bool :=
  match Dict.get k d with
  | Some v => truthy v
  | None => false
  end.

Definition extract_metadata (data : value) : value :=
  match data with
  | VDict data =>
      let processed_data := data in
      let raw_metadata :=
        fold_left
          (fun raw_metadata kv =>
             if negb (is_core_field (fst kv))
             then Dict.set (fst kv) (snd kv) raw_metadata
             else raw_metadata)
          data [] in
      let processed_data :=
        Dict.set "raw_metadata" (VDict raw_metadata) processed_data in
      let processed_data :=
        if present_and_truthy "title" processed_data
        then
          match Dict.get "title" processed_data with
          | Some t => Dict.set "name" t processed_data
          | None => processed_data
          end
        else if negb (Dict.mem "name" processed_data)
                || negb (present_and_truthy "name" processed_data)
        then Dict.set "name" (VStr "Untitled Book") processed_data
        else processed_data in
      VDict processed_data
  | _ => data
  end.

(** The fields of [Book], in declaration order, over the dictionary that
    [extract_metadata] returned. *)
Definition Book_fields (d : pydict) : Val Book :=
  let string_field name :=
    field name None
      (fun v => validated (handle_string_fields v) any_of_them) d in
  valid mkBook
  <*> field "name" "Untitled Book"
        (fun v => validated (handle_string_fields v) str_type) d
  <*> string_field "title"
  <*> field "authors" []
        (fun v => validated (handle_authors_field v) any_of_them) d
  <*> string_field "isbn"
  <*> field "publication_date" None
        (fun v => validated (handle_publication_date_field v) any_of_them) d
  <*> field "pages" None
        (fun v => validated (handle_pages_field v) any_of_them) d
  <*> field "price" None
        (fun v => validated (handle_price_field v) any_of_them) d
  <*> string_field "description"
  <*> string_field "cover_image_url"
  <*> string_field "purchase_url"
  <*> string_field "publisher"
  <*> string_field "genre"
  <*> string_field "language"
  <*> string_field "format"
  <*> field "raw_metadata" [] dict_type d.

(** The validator of the class [Book]: [extract_metadata] first, then
    the fields of a dictionary; anything else is not a [Book]. *)
Definition Book_validator (data : value) : Val Book :=
  match extract_metadata data with
  | VDict d => Book_fields d
  | _ => invalid "model_type"
  end.

(** [Book.model_validate(data)]; when [data] is a dictionary this is
    also the call of the class on the keyword arguments [data]. *)
Definition Book_validate (data : value) : list log_record * outcome Book :=
  run (Book_validator data).

Definition str_of_date_or_str (d : date_or_str) : string :=
  match d with
  | a_date d => Date.isoformat d
  | a_str s => s
  end.

Definition get_all_metadata (self : Book) : pydict :=
  let metadata : pydict := [] in
  let metadata :=
    match title self with
    | Some v => Dict.set "title" (VStr v) metadata
    | None => metadata
    end in
  let metadata :=
    match authors self with
    | [] => metadata
    | _ => Dict.set "authors" (VList (map VStr (authors self))) metadata
    end in
  let metadata :=
    match isbn self with
    | Some v => Dict.set "isbn" (VStr v) metadata
    | None => metadata
    end in
  let metadata :=
    match publication_date self with
    | Some v =>
        Dict.set "publication_date" (VStr (str_of_date_or_str v)) metadata
    | None => metadata
    end in
  let metadata :=
    match pages self with
    | Some v => Dict.set "pages" (VInt v) metadata
    | None => metadata
    end in
  let metadata :=
    match price self with
    | Some v => Dict.set "price" (VFloat v) metadata
    | None => metadata
    end in
  let metadata :=
    match description self with
    | Some v => Dict.set "description" (VStr v) metadata
    | None => metadata
    end in
  let metadata :=
    match cover_image_url self with
    | Some v => Dict.set "cover_image_url" (VStr v) metadata
    | None => metadata
    end in
  let metadata :=
    match purchase_url self with
    | Some v => Dict.set "purchase_url" (VStr v) metadata
    | None => metadata
    end in
  Dict.update metadata (raw_metadata self).

(** ** [class BookCollection] *)

Record BookCollection := mkBookCollection { books : list Book }.

(** [list[Book]] *)
Definition list_of_Book (v : value) : Val (list Book) :=
  match v with
  | VList l => each Book_validator 0 l
  | _ => invalid "list_type"
  end.

(** The validator of the class: one required field, [books]. *)
Definition BookCollection_validator (data : value) : Val BookCollection :=
  match data with
  | VDict d => valid mkBookCollection <*> required_field "books" list_of_Book d
  | _ => invalid "model_type"
  end.

(** [BookCollection.model_validate(data)] *)
Definition BookCollection_validate (data : value)
  : list log_record * outcome BookCollection :=
  run (BookCollection_validator data).

Definition get_entities (self : BookCollection) : list Book := books self.

(** The two abstract base classes. *)
Class BaseEntityData (A : Type) := { all_metadata : A -> pydict }.

Class BaseEntityCollection (C A : Type) `{BaseEntityData A} :=
  { entities : C -> list A }.

#[export] Instance Book_is_entity : BaseEntityData Book :=
  {| all_metadata := get_all_metadata |}.

#[export] Instance BookCollection_is_collection
  : BaseEntityCollection BookCollection Book :=
  {| entities := get_entities |}.

(** ** [class EntityTypeRegistry]

    The class attributes are the fields of a record that the class
    methods take and return.  [list_registered_classes], which prints
    function objects for debugging, is left out. *)

Section Registry.

(** The class objects that are registered, and [cls.__name__]. *)
Variables entity_class collection_class : Type.
Variable class_name : collection_class -> string.

(** A detection function returns a truth value or raises. *)
Definition detection_func := value -> exception + bool.

Record EntityTypeRegistry := mkRegistry {
  _entity_classes : list (string * entity_class);
  _collection_classes : list (string * collection_class);
  _detection_rules : list (detection_func * collection_class)
}.

Definition empty_registry : EntityTypeRegistry := mkRegistry [] [] [].

Definition register_entity_class (name : string) (c : entity_class)
    (cls : EntityTypeRegistry) : EntityTypeRegistry :=
  mkRegistry (Dict.set name c (_entity_classes cls))
    (_collection_classes cls) (_detection_rules cls).

Definition register_collection_class (name : string) (c : collection_class)
    (cls : EntityTypeRegistry) : EntityTypeRegistry :=
  mkRegistry (_entity_classes cls)
    (Dict.set name c (_collection_classes cls)) (_detection_rules cls).

Definition register_detection_rule (f : detection_func)
    (c : collection_class) (cls : EntityTypeRegistry) : EntityTypeRegistry :=
  mkRegistry (_entity_classes cls) (_collection_classes cls)
    (_detection_rules cls ++ [(f, c)]).

(** The loop of [detect_collection_class] over the rules that are left. *)
Fixpoint detect_in (rules : list (detection_func * collection_class))
    (raw_data : value) : M (option collection_class) :=
  match rules with
  | (f, c) :: rules' =>
      match f raw_data with
      | inr true =>
          logger_debug ("Detected format for " ++ class_name c) ;;;
          ret (Some c)
      | inr false => detect_in rules' raw_data
      | inl e =>
          if is_Exception e
          then
            logger_warning ("Detection failed for " ++ class_name c ++ ": "
                            ++ exception_str e) ;;;
            detect_in rules' raw_data
          else raise e
      end
  | [] =>
      logger_warning "No suitable data format detected" ;;;
      ret None
  end.

Definition detect_collection_class (cls : EntityTypeRegistry)
    (raw_data : value) : M (option collection_class) :=
  detect_in (_detection_rules cls) raw_data.

Definition get_entity_class (cls : EntityTypeRegistry) (name : string)
  : option entity_class :=
  Dict.get name (_entity_classes cls).

Definition get_collection_class (cls : EntityTypeRegistry) (name : string)
  : option collection_class :=
  Dict.get name (_collection_classes cls).

Definition get_default_collection_class (cls : EntityTypeRegistry)
  : option collection_class :=
  match _collection_classes cls with
  | (_, c) :: _ => Some c
  | [] => None
  end.

End Registry.

Arguments mkRegistry {entity_class collection_class}.
Arguments _detection_rules {entity_class collection_class}.
Arguments _collection_classes {entity_class collection_class}.
Arguments _entity_classes {entity_class collection_class}.
Arguments empty_registry {entity_class collection_class}.
Arguments register_entity_class {entity_class collection_class}.
Arguments register_collection_class {entity_class collection_class}.
Arguments register_detection_rule {entity_class collection_class}.
Arguments detect_in {collection_class}.
Arguments detect_collection_class {entity_class collection_class}.
Arguments get_default_collection_class {entity_class collection_class}.

Definition _detect_book_format (raw_data : value) : exception + bool :=
  match py_in "books" raw_data with
  | inl e => inl e
  | inr false => inr false
  | inr true =>
      match py_getitem raw_data "books" with
      | inl e => inl e
      | inr (VList _) => inr true
      | inr _ => inr false
      end
  end.

(** The classes this module registers when it is imported. *)
Inductive entity_classes := class_Book.
Inductive collection_classes := class_BookCollection.

Definition collection_class_name (c : collection_classes) : string :=
  match c with class_BookCollection => "BookCollection" end.

Definition module_registry
  : EntityTypeRegistry entity_classes collection_classes :=
  register_detection_rule _detect_book_format class_BookCollection
    (register_collection_class "BookCollection" class_BookCollection
       (register_entity_class "Book" class_Book empty_registry)).

(** * Notions used to state the properties *)

(** The dictionary that the loop of [extract_metadata] builds. *)
Definition overflow_of (data : pydict) : pydict :=
  fold_left
    (fun raw_metadata kv =>
       if negb (is_core_field (fst kv))
       then Dict.set (fst kv) (snd kv) raw_metadata
       else raw_metadata)
    data [].

(** What [handle_string_fields] and [handle_authors_field] return when
    no [str] in them raises: the same expressions over the text of
    [str]. *)
Definition string_value (v : value) : option string :=
  if is_None v || eq_empty_str v
     || match v with
        | VStr s => negb (Str.nonempty (Str.strip s))
        | _ => false
        end
  then None
  else
    match v with
    | VStr s =>
        let normalized := Str.re_sub_spaces (Str.strip s) in
        if Str.nonempty normalized then Some normalized else None
    | _ => if negb (is_None v) then Some (str_text v) else None
    end.

Definition authors_value (v : value) : list string :=
  match v with
  | VNone => []
  | VStr s =>
      map Str.strip
        (filter (fun author => Str.nonempty (Str.strip author))
           (Str.re_split_separators s))
  | VList l =>
      map (fun author => Str.strip (str_text author))
        (filter (fun author => Str.nonempty (Str.strip (str_text author))) l)
  | _ =>
      if Str.nonempty (Str.strip (str_text v)) then [Str.strip (str_text v)]
      else []
  end.

(** The fields whose validator calls [str] on a value that is not a
    string, and the two whose validator calls it, to write a warning,
    on a value that [int] or [float] refuses. *)
Definition stringified_fields : list string :=
  ["title"; "authors"; "isbn"; "publication_date"; "description";
   "cover_image_url"; "purchase_url"; "publisher"; "genre"; "language";
   "format"].

Definition numeric_fields : list string := ["pages"; "price"].

(** The value that [extract_metadata] leaves under ["name"]: a truthy
    title, else a truthy name, else the default. *)
Definition name_or_default (data : pydict) : value :=
  match Dict.get "name" data with
  | Some n => if truthy n then n else VStr "Untitled Book"
  | None => VStr "Untitled Book"
  end.

Definition name_source (data : pydict) : value :=
  match Dict.get "title" data with
  | Some t => if truthy t then t else name_or_default data
  | None => name_or_default data
  end.

(** The value of a field with a pure "before" validator [h]. *)
Definition field_of {A : Type} (nm : string) (dflt : A) (h : value -> A)
    (d : pydict) : A :=
  match Dict.get nm d with Some v => h v | None => dflt end.

(** The result of a field with an effectful "before" validator [h]. *)
Definition field_returns {A : Type} (nm : string) (dflt : A)
    (h : value -> M A) (d : pydict) (a : A) : Prop :=
  match Dict.get nm d with
  | Some v => exists l, h v = (l, inr a)
  | None => a = dflt
  end.

(** The metadata view in the words of the specification: every
    descriptive core field that is not null (the authors when there are
    some, the publication date as a string), in the order of the class. *)
Definition item_if {A : Type} (k : string) (f : A -> value) (o : option A)
  : pydict :=
  match o with Some a => [(k, f a)] | None => [] end.

Definition descriptive_items (b : Book) : pydict :=
  item_if "title" VStr (title b)
  ++ match authors b with
     | [] => []
     | a => [("authors", VList (map VStr a))]
     end
  ++ item_if "isbn" VStr (isbn b)
  ++ item_if "publication_date" (fun d => VStr (str_of_date_or_str d))
       (publication_date b)
  ++ item_if "pages" VInt (pages b)
  ++ item_if "price" VFloat (price b)
  ++ item_if "description" VStr (description b)
  ++ item_if "cover_image_url" VStr (cover_image_url b)
  ++ item_if "purchase_url" VStr (purchase_url b).

Definition descriptive_fields : list string :=
  ["title"; "authors"; "isbn"; "publication_date"; "pages"; "price";
   "description"; "cover_image_url"; "purchase_url"].

Definition navigation_and_name : list string :=
  ["publisher"; "genre"; "language"; "format"; "name"].

(** Detection in the words of the specification: the rules are tried in
    registration order, a rule whose predicate raises or returns false
    is passed over, the first rule whose predicate returns true gives
    its class, and there is no class when no rule matches. *)
Definition returns_true {C : Type} (raw : value)
    (rule : detection_func * C) : bool :=
  match fst rule raw with inr true => true | _ => false end.

(** A rule whose predicate raises an exception that is not an
    [Exception]: [except Exception] does not catch it. *)
Definition aborts {C : Type} (raw : value)
    (rule : detection_func * C) : bool :=
  match fst rule raw with
  | inl e => negb (is_Exception e)
  | inr _ => false
  end.

Definition first_matching_class {C : Type}
    (rules : list (detection_func * C)) (raw : value) : option C :=
  option_map snd (find (returns_true raw) rules).

(** One warning for each of the rules in [rules] whose predicate raises. *)
Definition failure_warnings {C : Type} (class_name : C -> string)
    (rules : list (detection_func * C)) (raw : value) : list log_record :=
  flat_map
    (fun rule =>
       match fst rule raw with
       | inl e =>
           [mklog WARNING
              ("Detection failed for " ++ class_name (snd rule) ++ ": "
               ++ exception_str e)]
       | inr _ => []
       end)
    rules.

(** The rules before the first one whose predicate returns true. *)
Fixpoint rules_before_match {C : Type} (rules : list (detection_func * C))
    (raw : value) : list (detection_func * C) :=
  match rules with
  | [] => []
  | rule :: rules' =>
      if returns_true raw rule then []
      else rule :: rules_before_match rules' raw
  end.

(** Two rules that both match every object, registered after a rule
    whose predicate raises. *)
Definition always_true : detection_func := fun _ => inr true.
Definition always_raises : detection_func :=
  fun _ => inl (OtherException "boom").

Definition three_rules : EntityTypeRegistry entity_classes string :=
  register_detection_rule always_true "R2"
    (register_detection_rule always_true "R1"
       (register_detection_rule always_raises "R0"
          (register_collection_class "Default" "D" empty_registry))).

(** A rule that matches every object, registered after a rule whose
    predicate raises [KeyboardInterrupt]. *)
Definition interrupted : detection_func :=
  fun _ => inl (KeyboardInterrupt "").

Definition interrupted_rules : EntityTypeRegistry entity_classes string :=
  register_detection_rule always_true "R1"
    (register_detection_rule interrupted "R0" empty_registry).

(** Date normalization in the words of the specification: the formats
    in the order they are tried, and the first that parses. *)
Definition date_formats : list (list Date.item) :=
  [Date.fmt_Y_m_d_dash; Date.fmt_Y_m_d_slash; Date.fmt_m_d_Y_slash].

Definition first_parse (s : string) : option Date.date :=
  Date.first_success
    (fun fmt =>
       match Date.strptime s fmt with
       | inr d => Some d
       | inl _ => None
       end)
    date_formats.

Definition normalized_date (v : value)
  : list log_record * option date_or_str :=
  match v with
  | VNone => ([], None)
  | VStr EmptyString => ([], None)
  | VDate d => ([], Some (a_date d))
  | VStr s =>
      let trimmed := Str.strip s in
      match first_parse trimmed with
      | Some d => ([], Some (a_date d))
      | None =>
          ([mklog WARNING
              ("Cannot parse date format: " ++ trimmed
               ++ ". Storing as string.")],
           Some (a_str trimmed))
      end
  | _ => ([], Some (a_str (str_text v)))
  end.

(** Pages normalization in the words of the specification. *)
Definition normalized_pages (v : value) : list log_record * option Z :=
  match v with
  | VNone => ([], None)
  | VStr EmptyString => ([], None)
  | _ =>
      match py_int v with
      | inr n => ([], if 0 <? n then Some n else None)
      | inl _ =>
          ([mklog WARNING
              ("Cannot parse pages value: " ++ str_text v
               ++ ". Setting to None.")],
           None)
      end
  end.

(** The shape of a normalized string, in the words of the
    specification: no whitespace at either end and no two whitespace
    characters in a row. *)
Definition no_leading_whitespace (s : string) : bool :=
  match Str.head s with
  | Some c => negb (Str.isspace c)
  | None => true
  end.

Definition no_trailing_whitespace (s : string) : bool :=
  match Str.last s with
  | Some c => negb (Str.isspace c)
  | None => true
  end.

Fixpoint no_doubled_whitespace (s : string) : bool :=
  match s with
  | String c s' =>
      negb (Str.isspace c && negb (no_leading_whitespace s'))
      && no_doubled_whitespace s'
  | EmptyString => true
  end.

(** Every whitespace character of [s] is the space U+0020. *)
Definition whitespace_is_space (s : string) : bool :=
  Str.forallb (fun c => negb (Str.isspace c) || Ascii.eqb c Str.space) s.

(** No character of [s] is whitespace. *)
Definition no_whitespace (s : string) : bool :=
  Str.forallb (fun c => negb (Str.isspace c)) s.

(** A value that is neither an array nor an object. *)
Definition is_scalar (v : value) : bool :=
  match v with
  | VList _ | VDict _ => false
  | _ => true
  end.

(** A key that is absent from the record, or whose value is [None] or
    the empty string. *)
Definition absent_or_empty (k : string) (R : pydict) : Prop :=
  Dict.get k R = None \/ Dict.get k R = Some VNone
  \/ Dict.get k R = Some (VStr "").

(** A validator's result that is a value, with no line error. *)
Definition is_valid {A : Type} (x : Val A) : Prop :=
  exists l a, x = (l, inr ([], Some a)).

(** A validator's result that holds a value whenever it lists no line
    error. *)
Definition reports {A : Type} (x : Val A) : Prop :=
  forall l a, x = (l, inr ([], a)) -> a <> None.

(** A string that is not empty and has no whitespace at either end. *)
Definition is_trimmed (s : string) : bool :=
  Str.nonempty s && no_leading_whitespace s && no_trailing_whitespace s.

(** A string without comma and semicolon. *)
Definition no_separator (s : string) : bool :=
  Str.forallb (fun c => negb (Str.is_separator c)) s.

(** The string fields of a book that may be null. *)
Definition optional_strings (b : Book) : list (option string) :=
  [title b; isbn b; description b; cover_image_url b; purchase_url b;
   publisher b; genre b; language b; format b].

(** A date of the calendar: the constructor of [date] accepts it. *)
Definition valid_date (d : Date.date) : Prop :=
  Date.make_date (Date.year d) (Date.month d) (Date.day d) = Some d.

(** The year [y], written with four digits, is four digits that [int]
    reads as [y]. *)
Definition four_digit_year (y : Z) : bool :=
  match Date.zero_pad 4 (Num.str_of_int y) with
  | String a (String b (String c (String e EmptyString))) as txt =>
      Date.digit a && Date.digit b && Date.digit c && Date.digit e
      && match Num.int_of_str txt with
         | Some n => n =? y
         | None => false
         end
  | _ => false
  end.

(** The number of digits at the head of [s] and the character after
    them. *)
Fixpoint leading_digits (s : string) : nat * option ascii :=
  match s with
  | EmptyString => (O, None)
  | String c s' =>
      if Date.digit c then
        let '(n, x) := leading_digits s' in (S n, x)
      else (O, Some c)
  end.

(** The head a string needs for one of the three formats to read it:
    four digits and a dash or a slash, or one or two digits and a
    slash. *)
Definition date_shape (s : string) : bool :=
  match leading_digits s with
  | (4%nat, Some sep) => Ascii.eqb sep "-" || Ascii.eqb sep "/"
  | (1%nat, Some sep) | (2%nat, Some sep) => Ascii.eqb sep "/"
  | _ => false
  end.

(** The descriptive string fields of a book and its navigation
    fields. *)
Definition descriptive_strings (b : Book) : list (option string) :=
  [title b; isbn b; description b; cover_image_url b; purchase_url b].

Definition navigation_fields (b : Book) : list (option string) :=
  [publisher b; genre b; language b; format b].

(** What the validator [h] of the field [nm] logs for the record [R]. *)
Definition field_log {A : Type} (nm : string) (h : value -> M A)
    (R : pydict) : list log_record :=
  match Dict.get nm R with
  | Some v => fst (h v)
  | None => []
  end.

(** A record whose date, pages and price are not understood, the book
    built from it and the log of the construction. *)
Definition unparsed_record : pydict :=
  [("title", VStr "Dune"); ("publication_date", VStr "Jan 2020");
   ("pages", VStr "many"); ("price", VStr "free")].

Definition unparsed_book : Book :=
  {| name := "Dune"; title := Some "Dune"; authors := []; isbn := None;
     publication_date := Some (a_str "Jan 2020"); pages := None;
     price := None; description := None; cover_image_url := None;
     purchase_url := None; publisher := None; genre := None;
     language := None; format := None; raw_metadata := [] |}.

Definition unparsed_log : list log_record :=
  [mklog WARNING "Cannot parse date format: Jan 2020. Storing as string.";
   mklog WARNING "Cannot parse pages value: many. Setting to None.";
   mklog WARNING "Cannot parse price value: free. Setting to None."].

(** The letter a, a tab, the letter b. *)
Definition a_tab_b : string :=
  String "a" (String "009" (String "b" EmptyString)).

(** The record of the specification's scenario A and the book built
    from it; 4.5 is the float [5066549580791808 * 2^-50]. *)
Definition rating_4_5 : value := VFloat (S754_finite false 5066549580791808 (-50)).

Definition hobbit_record : pydict :=
  [("title", VStr " The Hobbit "); ("authors", VStr "J.R.R. Tolkien");
   ("pages", VStr "310"); ("rating", rating_4_5)].

Definition hobbit : Book :=
  {| name := "The Hobbit"; title := Some "The Hobbit";
     authors := ["J.R.R. Tolkien"]; isbn := None; publication_date := None;
     pages := Some 310; price := None; description := None;
     cover_image_url := None; purchase_url := None; publisher := None;
     genre := None; language := None; format := None;
     raw_metadata := [("rating", rating_4_5)] |}.

(** * Properties *)

(** ** Dictionaries *)

Section DictFacts.
Context {V : Type}.
Implicit Types (d : list (string * V)) (k : string) (v : V).

Lemma get_set_same k v d : Dict.get k (Dict.set k v d) = Some v.
Proof.
  induction d as [|[k' v'] d IH]; simpl.
  - now rewrite String.eqb_refl.
  - destruct (String.eqb k k') eqn:E; simpl.
    + now rewrite String.eqb_refl.
    + now rewrite E.
Qed.

Lemma get_set_other k k' v d :
  k <> k' -> Dict.get k (Dict.set k' v d) = Dict.get k d.
Proof.
  intros Hk. apply String.eqb_neq in Hk.
  induction d as [|[k0 v0] d IH]; simpl.
  - now rewrite Hk.
  - destruct (String.eqb k' k0) eqn:E; simpl.
    + apply String.eqb_eq in E. subst k0. now rewrite Hk.
    + now rewrite IH.
Qed.

Lemma get_set k k' v d :
  Dict.get k (Dict.set k' v d)
  = if String.eqb k k' then Some v else Dict.get k d.
Proof.
  destruct (String.eqb k k') eqn:E.
  - apply String.eqb_eq in E. subst. apply get_set_same.
  - apply String.eqb_neq in E. now apply get_set_other.
Qed.

Lemma get_None_not_key k d : Dict.get k d = None <-> ~ In k (Dict.keys d).
Proof.
  induction d as [|[k' v'] d IH]; simpl.
  - tauto.
  - destruct (String.eqb k k') eqn:E.
    + apply String.eqb_eq in E. subst. split; [discriminate|]. tauto.
    + apply String.eqb_neq in E. rewrite IH. split.
      * intros H [H'|H']; [now subst|tauto].
      * tauto.
Qed.

Lemma mem_true_iff k d : Dict.mem k d = true <-> In k (Dict.keys d).
Proof.
  unfold Dict.mem. destruct (Dict.get k d) eqn:E.
  - split; [|reflexivity]. intros _.
    destruct (in_dec string_dec k (Dict.keys d)) as [H|H]; [exact H|].
    apply get_None_not_key in H. congruence.
  - split; [discriminate|]. intros H.
    apply get_None_not_key in E. contradiction.
Qed.

Lemma keys_set k v d :
  Dict.keys (Dict.set k v d)
  = if Dict.mem k d then Dict.keys d else Dict.keys d ++ [k].
Proof.
  unfold Dict.mem. induction d as [|[k' v'] d IH]; simpl.
  - reflexivity.
  - destruct (String.eqb k k') eqn:E; simpl.
    + apply String.eqb_eq in E. now subst.
    + rewrite IH. now destruct (Dict.get k d).
Qed.

Lemma wf_set k v d : Dict.wf d -> Dict.wf (Dict.set k v d).
Proof.
  unfold Dict.wf. intros H. rewrite keys_set.
  destruct (Dict.mem k d) eqn:E; [exact H|].
  assert (Hk : ~ In k (Dict.keys d)).
  { intros Hin. apply mem_true_iff in Hin. congruence. }
  clear E. induction (Dict.keys d) as [|a l IH]; simpl.
  - constructor; [tauto|constructor].
  - inversion H; subst. constructor.
    + rewrite in_app_iff. simpl. intros [Hin|[->|[]]]; [tauto|].
      apply Hk. now left.
    + apply IH; [assumption|]. intros Hin. apply Hk. now right.
Qed.

(** [d.update(other)]: a key of [other] takes its value from [other],
    any other key keeps the value it has in [d]. *)
Lemma get_update k d other :
  Dict.wf other ->
  Dict.get k (Dict.update d other)
  = match Dict.get k other with
    | Some v => Some v
    | None => Dict.get k d
    end.
Proof.
  unfold Dict.update, Dict.wf. revert d.
  induction other as [|[k' v'] other IH]; intros d Hwf; simpl.
  - reflexivity.
  - inversion Hwf as [|? ? Hnotin Hwf']; subst.
    rewrite IH by assumption.
    destruct (String.eqb k k') eqn:E.
    + apply String.eqb_eq in E. subst k'.
      apply get_None_not_key in Hnotin. rewrite Hnotin.
      apply get_set_same.
    + destruct (Dict.get k other); [reflexivity|].
      apply String.eqb_neq in E. now apply get_set_other.
Qed.

End DictFacts.

(** ** The validation combinators *)

Lemma ap_valid_inv {A B : Type} (f : Val (A -> B)) (x : Val A) l b :
  f <*> x = (l, inr ([], Some b)) ->
  exists l1 l2 g a,
    f = (l1, inr ([], Some g)) /\ x = (l2, inr ([], Some a))
    /\ l = l1 ++ l2 /\ b = g a.
Proof.
  destruct f as [l1 [e|[errs g]]]; simpl; [discriminate|].
  destruct x as [l2 [e|[errs' a]]]; [discriminate|].
  intros H. injection H as Hl Herrs Hb.
  apply app_eq_nil in Herrs as [-> ->].
  destruct g as [g|]; [|discriminate].
  destruct a as [a|]; [|discriminate].
  injection Hb as <-. subst l. now exists l1, l2, g, a.
Qed.

Lemma run_valid_inv {A : Type} (x : Val A) l a :
  run x = (l, Valid a) -> x = (l, inr ([], Some a)).
Proof.
  destruct x as [l' [e|[[|e errs] [a'|]]]]; simpl; intros H;
    try discriminate.
  now injection H as -> ->.
Qed.

Lemma at_loc_valid_inv {A : Type} i (x : Val A) l a :
  at_loc i x = (l, inr ([], Some a)) -> x = (l, inr ([], Some a)).
Proof.
  destruct x as [l' [e|[errs a']]]; simpl; [discriminate|].
  intros H. injection H as -> Herrs ->.
  destruct errs; [reflexivity|discriminate].
Qed.

(** Every combinator lists a line error when it gives no value. *)
Lemma valid_reports {A : Type} (a : A) : reports (valid a).
Proof. intros l a' H. injection H as _ <-. discriminate. Qed.

Lemma invalid_reports {A : Type} (type : string) :
  reports (@invalid A type).
Proof. intros l a H. discriminate. Qed.

Lemma ap_reports {A B : Type} (f : Val (A -> B)) (x : Val A) :
  reports f -> reports x -> reports (f <*> x).
Proof.
  intros Hf Hx l b. destruct f as [l1 [e|[errs g]]]; simpl; [discriminate|].
  destruct x as [l2 [e|[errs' a]]]; [discriminate|].
  intros H. injection H as _ Herrs <-.
  apply app_eq_nil in Herrs as [-> ->].
  specialize (Hf l1 g eq_refl). specialize (Hx l2 a eq_refl).
  destruct g; [|contradiction]. destruct a; [discriminate|contradiction].
Qed.

Lemma at_loc_reports {A : Type} i (x : Val A) :
  reports x -> reports (at_loc i x).
Proof.
  intros Hx l a. destruct x as [l' [e|[errs a']]]; simpl; [discriminate|].
  intros H. injection H as _ Herrs <-.
  destruct errs; [|discriminate]. exact (Hx l' a' eq_refl).
Qed.

Lemma validated_reports {A B : Type} (m : M A) (type : A -> Val B) :
  (forall a, reports (type a)) -> reports (validated m type).
Proof.
  intros Ht l b. unfold validated.
  destruct m as [l' [e|a]]; [destruct e; discriminate|].
  specialize (Ht a). destruct (type a) as [l2 r]. intros H.
  injection H as _ ->. exact (Ht l2 b eq_refl).
Qed.

Lemma field_reports {A : Type} nm (dflt : A) (validate : value -> Val A) d :
  (forall v, reports (validate v)) -> reports (field nm dflt validate d).
Proof.
  intros H. unfold field. destruct (Dict.get nm d).
  - apply at_loc_reports, H.
  - apply valid_reports.
Qed.

Lemma required_field_reports {A : Type} nm (validate : value -> Val A) d :
  (forall v, reports (validate v)) -> reports (required_field nm validate d).
Proof.
  intros H. unfold required_field. destruct (Dict.get nm d).
  - apply at_loc_reports, H.
  - intros l a E. discriminate.
Qed.

Lemma each_reports {A : Type} (validate : value -> Val A) i items :
  (forall v, reports (validate v)) -> reports (each validate i items).
Proof.
  intros H. revert i. induction items as [|v items IH]; intros i; cbn [each].
  - apply valid_reports.
  - repeat apply ap_reports; [apply valid_reports| |apply IH].
    apply at_loc_reports, H.
Qed.

Lemma run_error_inv {A : Type} (x : Val A) l errs :
  reports x -> run x = (l, ValidationError errs) -> errs <> [].
Proof.
  intros Hx. destruct x as [l' [e|[[|e errs'] a]]]; simpl.
  - discriminate.
  - specialize (Hx l' a eq_refl). destruct a; [discriminate|contradiction].
  - intros H. injection H as _ <-. discriminate.
Qed.

(** An exception that leaves a list comes from one of its elements. *)
Lemma each_raised_inv {A : Type} (validate : value -> Val A) (i : nat)
    (items : list value) l e :
  each validate i items = (l, inl e) ->
  exists v l', In v items /\ validate v = (l', inl e).
Proof.
  revert i l. induction items as [|v items IH]; intros i l; cbn [each].
  - discriminate.
  - destruct (validate v) as [l1 [e1|[errs1 a1]]] eqn:Ev.
    + cbn. intros H. injection H as _ <-. exists v, l1.
      split; [now left|exact Ev].
    + destruct (each validate (S i) items) as [l2 [e2|[errs2 a2]]] eqn:Et.
      * cbn. intros H. injection H as _ <-.
        destruct (IH _ _ Et) as (v' & l' & Hin & Hv).
        exists v', l'. split; [now right|exact Hv].
      * cbn. discriminate.
Qed.

(** A field whose "before" validator is a computation. *)
Lemma field_validated_valid_inv {A : Type} nm (dflt : A)
    (h : value -> M A) d l a :
  field nm dflt (fun v => validated (h v) any_of_them) d
  = (l, inr ([], Some a)) ->
  match Dict.get nm d with
  | Some v => h v = (l, inr a)
  | None => a = dflt /\ l = []
  end.
Proof.
  unfold field. destruct (Dict.get nm d) as [v|].
  - intros H. apply at_loc_valid_inv in H. unfold validated in H.
    destruct (h v) as [l' [e|a']].
    + destruct e; discriminate.
    + simpl in H. rewrite app_nil_r in H. congruence.
  - unfold valid. intros H. injection H as <- <-. now split.
Qed.

(** ** [extract_metadata] *)

Lemma get_overflow_gen (k : string) (data acc : pydict) :
  Dict.wf data ->
  Dict.get k
    (fold_left
       (fun raw_metadata kv =>
          if negb (is_core_field (fst kv))
          then Dict.set (fst kv) (snd kv) raw_metadata
          else raw_metadata)
       data acc)
  = match Dict.get k data with
    | Some v => if is_core_field k then Dict.get k acc else Some v
    | None => Dict.get k acc
    end.
Proof.
  unfold Dict.wf. revert acc.
  induction data as [|[k' v'] data IH]; intros acc Hwf; simpl.
  - reflexivity.
  - inversion Hwf as [|? ? Hnotin Hwf']; subst.
    rewrite IH by assumption.
    destruct (String.eqb k k') eqn:E.
    + apply String.eqb_eq in E. subst k'.
      apply get_None_not_key in Hnotin. rewrite Hnotin.
      destruct (is_core_field k); simpl; [reflexivity|apply get_set_same].
    + apply String.eqb_neq in E.
      assert (Hacc : Dict.get k
                (if negb (is_core_field k')
                 then Dict.set k' v' acc else acc) = Dict.get k acc).
      { destruct (negb (is_core_field k')); [|reflexivity].
        now apply get_set_other. }
      rewrite Hacc. reflexivity.
Qed.

(** The overflow holds the items of [data] whose key is not a core
    field, and nothing else. *)
Lemma get_overflow (k : string) (data : pydict) :
  Dict.wf data ->
  Dict.get k (overflow_of data)
  = if is_core_field k then None else Dict.get k data.
Proof.
  intros Hwf. unfold overflow_of. rewrite get_overflow_gen by assumption.
  simpl. destruct (Dict.get k data), (is_core_field k); reflexivity.
Qed.

Lemma extract_metadata_dict (data : pydict) :
  exists processed_data,
    extract_metadata (VDict data) = VDict processed_data
    /\ Dict.get "raw_metadata" processed_data = Some (VDict (overflow_of data))
    /\ Dict.get "name" processed_data = Some (name_source data)
    /\ forall k, k <> "name" -> k <> "raw_metadata" ->
                 Dict.get k processed_data = Dict.get k data.
Proof.
  unfold extract_metadata. fold (overflow_of data).
  set (d1 := Dict.set "raw_metadata" (VDict (overflow_of data)) data).
  assert (Hraw : Dict.get "raw_metadata" d1 = Some (VDict (overflow_of data)))
    by apply get_set_same.
  assert (Hother : forall k, k <> "raw_metadata" ->
                             Dict.get k d1 = Dict.get k data)
    by (intros; now apply get_set_other).
  assert (Hset : forall v,
    Dict.get "raw_metadata" (Dict.set "name" v d1)
      = Some (VDict (overflow_of data))
    /\ Dict.get "name" (Dict.set "name" v d1) = Some v
    /\ forall k, k <> "name" -> k <> "raw_metadata" ->
                 Dict.get k (Dict.set "name" v d1) = Dict.get k data).
  { intros v. split; [|split].
    - rewrite get_set_other by discriminate. exact Hraw.
    - apply get_set_same.
    - intros k H1 H2. rewrite get_set_other by assumption. now apply Hother. }
  unfold name_source, name_or_default, present_and_truthy, Dict.mem.
  rewrite !Hother by discriminate.
  destruct (Dict.get "title" data) as [t|] eqn:Et.
  - destruct (truthy t) eqn:Tt.
    + eexists. split; [reflexivity|]. apply Hset.
    + destruct (Dict.get "name" data) as [n|] eqn:En; simpl.
      * destruct (truthy n) eqn:Tn; simpl.
        -- eexists. split; [reflexivity|]. split; [exact Hraw|].
           split; [|intros; now apply Hother].
           rewrite Hother by discriminate. exact En.
        -- eexists. split; [reflexivity|]. apply Hset.
      * eexists. split; [reflexivity|]. apply Hset.
  - destruct (Dict.get "name" data) as [n|] eqn:En; simpl.
    + destruct (truthy n) eqn:Tn; simpl.
      * eexists. split; [reflexivity|]. split; [exact Hraw|].
        split; [|intros; now apply Hother].
        rewrite Hother by discriminate. exact En.
      * eexists. split; [reflexivity|]. apply Hset.
    + eexists. split; [reflexivity|]. apply Hset.
Qed.

(** ** The validators that call [str] *)

Lemma py_str_cases (v : value) :
  py_str v = if str_raises v then inl digit_limit_error
             else inr (str_text v).
Proof. reflexivity. Qed.

Lemma py_str_returns (v : value) (text : string) :
  py_str v = inr text -> str_raises v = false /\ text = str_text v.
Proof.
  unfold py_str. destruct (str_raises v); [discriminate|].
  intros H. injection H as <-. now split.
Qed.

Lemma str_raises_strings (l : list string) :
  str_raises (VList (map VStr l)) = false.
Proof.
  cbn [str_raises]. induction l as [|x l IH]; [reflexivity|exact IH].
Qed.

(** [handle_string_fields] raises when [str] does, and returns
    [string_value] otherwise; it logs nothing. *)
Lemma handle_string_fields_value (v : value) :
  handle_string_fields v
  = if str_raises v then raise digit_limit_error else ret (string_value v).
Proof.
  unfold handle_string_fields, string_value.
  destruct v as [|b|n|f|s|l|d|d]; try reflexivity;
    cbn [is_None eq_empty_str orb negb];
    try (unfold py_str; destruct (str_raises _); reflexivity).
  destruct s as [|c s]; [reflexivity|].
  cbn [eq_empty_str orb].
  now destruct (negb (Str.nonempty (Str.strip (String c s)))).
Qed.

Lemma authors_of_list_value (l : list value) :
  authors_of_list l
  = if existsb str_raises l then raise digit_limit_error
    else ret (map (fun author => Str.strip (str_text author))
                (filter (fun author =>
                           Str.nonempty (Str.strip (str_text author))) l)).
Proof.
  induction l as [|author l IH]; [reflexivity|].
  cbn [authors_of_list existsb filter]. unfold py_str.
  destruct (str_raises author); [reflexivity|].
  cbn [orb lift bind app].
  destruct (Str.nonempty (Str.strip (str_text author)));
    cbn [bind app]; rewrite IH;
    destruct (existsb str_raises l); reflexivity.
Qed.

(** So does [handle_authors_field], with [authors_value]. *)
Lemma handle_authors_field_value (v : value) :
  handle_authors_field v
  = if str_raises v then raise digit_limit_error else ret (authors_value v).
Proof.
  destruct v as [|b|n|f|s|l|d|d];
    cbn [handle_authors_field authors_value];
    try reflexivity;
    try (unfold py_str; destruct (str_raises _); [reflexivity|];
         cbn [lift bind app];
         now destruct (Str.nonempty (Str.strip _))).
  apply authors_of_list_value.
Qed.

Lemma handle_string_fields_returns (v : value) l (r : option string) :
  handle_string_fields v = (l, inr r) ->
  l = [] /\ r = string_value v /\ str_raises v = false.
Proof.
  rewrite handle_string_fields_value.
  destruct (str_raises v); [discriminate|].
  intros H. injection H as <- <-. now repeat split.
Qed.

Lemma handle_authors_field_returns (v : value) l (r : list string) :
  handle_authors_field v = (l, inr r) ->
  l = [] /\ r = authors_value v /\ str_raises v = false.
Proof.
  rewrite handle_authors_field_value.
  destruct (str_raises v); [discriminate|].
  intros H. injection H as <- <-. now repeat split.
Qed.

(** ** What a valid [Book] holds *)

(** The [name] field: its type refuses [None]. *)
Lemma field_str_valid_inv nm dflt (h : value -> M (option string)) d l a :
  field nm dflt (fun v => validated (h v) str_type) d
  = (l, inr ([], Some a)) ->
  match Dict.get nm d with
  | Some v => h v = (l, inr (Some a))
  | None => a = dflt /\ l = []
  end.
Proof.
  unfold field. destruct (Dict.get nm d) as [v|].
  - intros H. apply at_loc_valid_inv in H. unfold validated in H.
    destruct (h v) as [l' [e|[a'|]]].
    + destruct e; discriminate.
    + simpl in H. rewrite app_nil_r in H. congruence.
    + discriminate.
  - unfold valid. intros H. injection H as <- <-. now split.
Qed.

Lemma Book_fields_valid_inv (d : pydict) l b :
  Book_fields d = (l, inr ([], Some b)) ->
  field_returns "name" (Some "Untitled Book") handle_string_fields d
    (Some (name b))
  /\ field_returns "title" None handle_string_fields d (title b)
  /\ field_returns "authors" [] handle_authors_field d (authors b)
  /\ field_returns "isbn" None handle_string_fields d (isbn b)
  /\ field_returns "publication_date" None handle_publication_date_field d
       (publication_date b)
  /\ field_returns "pages" None handle_pages_field d (pages b)
  /\ field_returns "price" None handle_price_field d (price b)
  /\ field_returns "description" None handle_string_fields d (description b)
  /\ field_returns "cover_image_url" None handle_string_fields d
       (cover_image_url b)
  /\ field_returns "purchase_url" None handle_string_fields d
       (purchase_url b)
  /\ field_returns "publisher" None handle_string_fields d (publisher b)
  /\ field_returns "genre" None handle_string_fields d (genre b)
  /\ field_returns "language" None handle_string_fields d (language b)
  /\ field_returns "format" None handle_string_fields d (format b)
  /\ field_of "raw_metadata" (Some [])
       (fun v => match v with VDict m => Some m | _ => None end) d
     = Some (raw_metadata b).
Proof.
  unfold Book_fields. intros H.
  repeat match type of H with
         | _ <*> _ = _ =>
             let l1 := fresh "l" in let l2 := fresh "l" in
             let g := fresh "g" in let a := fresh "a" in
             let Hx := fresh "Hx" in
             apply ap_valid_inv in H as (l1 & l2 & g & a & H & Hx & -> & ->)
         end.
  unfold valid in H. injection H as <- <-. simpl.
  repeat match goal with
         | Hf : field _ _ (fun v => validated _ any_of_them) _ = _ |- _ =>
             apply field_validated_valid_inv in Hf
         | Hf : field _ _ (fun v => validated _ str_type) _ = _ |- _ =>
             apply field_str_valid_inv in Hf
         end.
  unfold field_of, field_returns.
  repeat match goal with
         | |- _ /\ _ => split
         | Hf : match Dict.get ?k d with _ => _ end
           |- match Dict.get ?k d with _ => _ end =>
             destruct (Dict.get k d); [eauto|]; destruct Hf; congruence
         end.
  unfold field in *.
  destruct (Dict.get "raw_metadata" d) as [v|].
  + match goal with
    | Hf : at_loc _ (dict_type _) = _ |- _ =>
        apply at_loc_valid_inv in Hf; unfold dict_type in Hf;
        destruct v; try discriminate; unfold valid in Hf; congruence
    end.
  + match goal with
    | Hf : valid [] = (_, inr ([], Some ?x)) |- _ =>
        unfold valid in Hf; congruence
    end.
Qed.

(** A valid [Book] comes from a dictionary; each of its fields is what
    the validator of the field returns for the value of the dictionary,
    its [name] is what [handle_string_fields] returns for [name_source],
    and its [raw_metadata] is the overflow. *)
Lemma Book_validate_returns (data : value) l b :
  Book_validate data = (l, Valid b) ->
  exists R,
    data = VDict R
    /\ (exists l', handle_string_fields (name_source R)
                   = (l', inr (Some (name b))))
    /\ raw_metadata b = overflow_of R
    /\ field_returns "title" None handle_string_fields R (title b)
    /\ field_returns "authors" [] handle_authors_field R (authors b)
    /\ field_returns "isbn" None handle_string_fields R (isbn b)
    /\ field_returns "publication_date" None handle_publication_date_field R
         (publication_date b)
    /\ field_returns "pages" None handle_pages_field R (pages b)
    /\ field_returns "price" None handle_price_field R (price b)
    /\ field_returns "description" None handle_string_fields R
         (description b)
    /\ field_returns "cover_image_url" None handle_string_fields R
         (cover_image_url b)
    /\ field_returns "purchase_url" None handle_string_fields R
         (purchase_url b)
    /\ field_returns "publisher" None handle_string_fields R (publisher b)
    /\ field_returns "genre" None handle_string_fields R (genre b)
    /\ field_returns "language" None handle_string_fields R (language b)
    /\ field_returns "format" None handle_string_fields R (format b).
Proof.
  unfold Book_validate. intros H. apply run_valid_inv in H.
  unfold Book_validator in H.
  destruct data as [| | | | |?|R|?];
    try (simpl in H; unfold invalid in H; discriminate).
  destruct (extract_metadata_dict R) as (P & HP & Hraw & Hname & Hother).
  rewrite HP in H. apply Book_fields_valid_inv in H.
  unfold field_of, field_returns in *.
  rewrite Hraw, Hname in H.
  rewrite !Hother in H by discriminate.
  destruct H as (Hn & Ht & Ha & Hi & Hd & Hp & Hpr & H1 & H2 & H3 & H4
                 & H5 & H6 & H7 & Hr).
  exists R. repeat split; try assumption. congruence.
Qed.

(** The same with the values written out: the strings and the authors
    are [string_value] and [authors_value] of values on which [str] does
    not raise. *)
Lemma field_returns_string (nm : string) (R : pydict) (o : option string) :
  field_returns nm None handle_string_fields R o ->
  o = field_of nm None string_value R
  /\ forall v, Dict.get nm R = Some v -> str_raises v = false.
Proof.
  unfold field_returns, field_of.
  destruct (Dict.get nm R) as [v|]; [|intros ->; split; congruence].
  intros (l & H). apply handle_string_fields_returns in H as (_ & -> & Hv).
  split; [reflexivity|]. intros v' E. now injection E as <-.
Qed.

Lemma field_returns_authors (R : pydict) (a : list string) :
  field_returns "authors" [] handle_authors_field R a ->
  a = field_of "authors" [] authors_value R
  /\ forall v, Dict.get "authors" R = Some v -> str_raises v = false.
Proof.
  unfold field_returns, field_of.
  destruct (Dict.get "authors" R) as [v|]; [|intros ->; split; congruence].
  intros (l & H). apply handle_authors_field_returns in H as (_ & -> & Hv).
  split; [reflexivity|]. intros v' E. now injection E as <-.
Qed.

Lemma Book_validate_valid_inv (data : value) l b :
  Book_validate data = (l, Valid b) ->
  exists R,
    data = VDict R
    /\ string_value (name_source R) = Some (name b)
    /\ raw_metadata b = overflow_of R
    /\ title b = field_of "title" None string_value R
    /\ authors b = field_of "authors" [] authors_value R
    /\ isbn b = field_of "isbn" None string_value R
    /\ field_returns "publication_date" None handle_publication_date_field R
         (publication_date b)
    /\ field_returns "pages" None handle_pages_field R (pages b)
    /\ field_returns "price" None handle_price_field R (price b)
    /\ description b = field_of "description" None string_value R
    /\ cover_image_url b
       = field_of "cover_image_url" None string_value R
    /\ purchase_url b = field_of "purchase_url" None string_value R
    /\ publisher b = field_of "publisher" None string_value R
    /\ genre b = field_of "genre" None string_value R
    /\ language b = field_of "language" None string_value R
    /\ format b = field_of "format" None string_value R.
Proof.
  intros H.
  apply Book_validate_returns in H
    as (R & -> & (l' & Hn) & Hraw & Ht & Ha & Hi & Hd & Hp & Hpr & H1 & H2
        & H3 & H4 & H5 & H6 & H7).
  apply handle_string_fields_returns in Hn as (_ & Hn & _).
  exists R. repeat split;
    try assumption;
    try (now apply field_returns_string);
    try (now apply field_returns_authors).
  now symmetry.
Qed.

Lemma is_core_field_In (k : string) :
  is_core_field k = true <-> In k core_fields.
Proof.
  unfold is_core_field. rewrite existsb_exists. split.
  - intros (x & Hin & E). apply String.eqb_eq in E. now subst.
  - intros Hin. exists k. split; [assumption|apply String.eqb_refl].
Qed.

(** ** The partition of a record into core fields and overflow *)

(** C1: when a book is built from a record [R], every item of [R] whose
    key is not a core field is in [raw_metadata] with the same value;
    every key of [R] is a core field or a key of [raw_metadata]; and no
    core field is a key of [raw_metadata]. *)
Theorem no_data_loss (R : pydict) (l : list log_record) (b : Book) :
  Dict.wf R ->
  Book_validate (VDict R) = (l, Valid b) ->
  (forall k v, Dict.get k R = Some v -> ~ In k core_fields ->
               Dict.get k (raw_metadata b) = Some v)
  /\ (forall k, In k (Dict.keys R) ->
                In k core_fields \/ In k (Dict.keys (raw_metadata b)))
  /\ (forall k, In k core_fields -> ~ In k (Dict.keys (raw_metadata b))).
Proof.
  intros Hwf H. apply Book_validate_valid_inv in H as (R' & HR & _ & Hraw & _).
  injection HR as <-. rewrite Hraw.
  assert (Hget := fun k => get_overflow k R Hwf).
  split; [|split].
  - intros k v Hk Hcore. rewrite Hget.
    destruct (is_core_field k) eqn:E; [|exact Hk].
    apply is_core_field_In in E. contradiction.
  - intros k Hin. destruct (is_core_field k) eqn:E.
    + left. now apply is_core_field_In.
    + right. apply mem_true_iff. unfold Dict.mem. rewrite Hget, E.
      apply mem_true_iff in Hin. unfold Dict.mem in Hin.
      now destruct (Dict.get k R).
  - intros k Hcore. apply get_None_not_key. rewrite Hget.
    apply is_core_field_In in Hcore. now rewrite Hcore.
Qed.

Lemma hobbit_record_wf : Dict.wf hobbit_record.
Proof.
  unfold Dict.wf. simpl.
  repeat (constructor; [simpl; intuition discriminate|]). constructor.
Defined.

Lemma hobbit_validates : Book_validate (VDict hobbit_record) = ([], Valid hobbit).
Proof. vm_compute. reflexivity. Defined.

Lemma no_data_loss_witness :
  (forall k v, Dict.get k hobbit_record = Some v -> ~ In k core_fields ->
               Dict.get k (raw_metadata hobbit) = Some v)
  /\ (forall k, In k (Dict.keys hobbit_record) ->
                In k core_fields \/ In k (Dict.keys (raw_metadata hobbit)))
  /\ (forall k, In k core_fields -> ~ In k (Dict.keys (raw_metadata hobbit))).
Proof.
  exact (no_data_loss hobbit_record [] hobbit hobbit_record_wf
           hobbit_validates).
Defined.

(** ** The metadata view *)

Lemma set_fresh {V : Type} (k : string) (v : V) (d : list (string * V)) :
  ~ In k (Dict.keys d) -> Dict.set k v d = d ++ [(k, v)].
Proof.
  induction d as [|[k' v'] d IH]; simpl; intros Hk.
  - reflexivity.
  - destruct (String.eqb k k') eqn:E.
    + apply String.eqb_eq in E. subst. tauto.
    + rewrite IH by tauto. reflexivity.
Qed.

Lemma update_disjoint {V : Type} (d other : list (string * V)) :
  Dict.wf other ->
  (forall k, In k (Dict.keys other) -> ~ In k (Dict.keys d)) ->
  Dict.update d other = d ++ other.
Proof.
  unfold Dict.update, Dict.wf. revert d.
  induction other as [|[k v] other IH]; intros d Hwf Hdis; simpl.
  - now rewrite app_nil_r.
  - inversion Hwf as [|? ? Hnotin Hwf']; subst.
    rewrite set_fresh by (apply Hdis; now left).
    rewrite IH; [now rewrite <- app_assoc|assumption|].
    intros k' Hin. unfold Dict.keys. rewrite map_app, in_app_iff. simpl.
    intros [H|[H|[]]].
    + apply (Hdis k'); [now right|exact H].
    + subst. contradiction.
Qed.

(** The overflow is a dictionary and none of its keys is a core field,
    whatever the input list. *)
Lemma overflow_keys_gen (data acc : pydict) :
  Dict.wf acc ->
  (forall k, In k (Dict.keys acc) -> is_core_field k = false) ->
  let r :=
    fold_left
      (fun raw_metadata kv =>
         if negb (is_core_field (fst kv))
         then Dict.set (fst kv) (snd kv) raw_metadata
         else raw_metadata)
      data acc in
  Dict.wf r /\ forall k, In k (Dict.keys r) -> is_core_field k = false.
Proof.
  revert acc. induction data as [|[k v] data IH]; intros acc Hwf Hkeys; simpl.
  - now split.
  - apply IH.
    + destruct (negb (is_core_field k)); [now apply wf_set|assumption].
    + intros k' Hin. destruct (is_core_field k) eqn:E; simpl in Hin.
      * now apply Hkeys.
      * rewrite keys_set in Hin. destruct (Dict.mem k acc).
        -- now apply Hkeys.
        -- apply in_app_iff in Hin as [Hin|[<-|[]]];
             [now apply Hkeys|exact E].
Qed.

Lemma overflow_keys (data : pydict) :
  Dict.wf (overflow_of data)
  /\ forall k, In k (Dict.keys (overflow_of data)) -> ~ In k core_fields.
Proof.
  destruct (overflow_keys_gen data []) as [Hwf Hkeys].
  - constructor.
  - intros k [].
  - split; [exact Hwf|]. intros k Hin Hcore.
    apply is_core_field_In in Hcore. apply Hkeys in Hin. congruence.
Qed.

Lemma descriptive_items_keys (b : Book) (k : string) :
  In k (Dict.keys (descriptive_items b)) -> In k descriptive_fields.
Proof.
  unfold descriptive_items, Dict.keys, item_if, descriptive_fields.
  rewrite !map_app, !in_app_iff.
  destruct (title b), (authors b), (isbn b), (publication_date b),
    (pages b), (price b), (description b), (cover_image_url b),
    (purchase_url b); simpl; tauto.
Qed.

Lemma get_all_metadata_update (b : Book) :
  get_all_metadata b = Dict.update (descriptive_items b) (raw_metadata b).
Proof.
  unfold get_all_metadata, descriptive_items, item_if. f_equal.
  destruct (title b), (authors b), (isbn b), (publication_date b),
    (pages b), (price b), (description b), (cover_image_url b),
    (purchase_url b); reflexivity.
Qed.

Lemma descriptive_fields_core (k : string) :
  In k descriptive_fields -> In k core_fields.
Proof. unfold descriptive_fields, core_fields. simpl. tauto. Qed.

Lemma navigation_and_name_core (k : string) :
  In k navigation_and_name -> In k core_fields /\ ~ In k descriptive_fields.
Proof.
  unfold navigation_and_name, descriptive_fields, core_fields. simpl.
  intros [<-|[<-|[<-|[<-|[<-|[]]]]]]; (split; [tauto|intuition discriminate]).
Qed.

(** C4: for a book that was built, [get_all_metadata] is the descriptive
    core fields that are not null, followed by the whole overflow; the
    two parts share no key; and the navigation fields and [name] are not
    among the keys. *)
Theorem metadata_view (data : value) (l : list log_record) (b : Book) :
  Book_validate data = (l, Valid b) ->
  get_all_metadata b = descriptive_items b ++ raw_metadata b
  /\ (forall k, In k (Dict.keys (descriptive_items b)) ->
                ~ In k (Dict.keys (raw_metadata b)))
  /\ (forall k, In k navigation_and_name ->
                ~ In k (Dict.keys (get_all_metadata b))).
Proof.
  intros H. apply Book_validate_valid_inv in H as (R & _ & _ & Hraw & _).
  destruct (overflow_keys R) as [Hwf Hkeys]. rewrite <- Hraw in Hwf, Hkeys.
  assert (Hdis : forall k, In k (Dict.keys (descriptive_items b)) ->
                           ~ In k (Dict.keys (raw_metadata b))).
  { intros k Hd Hr. apply (Hkeys k Hr).
    now apply descriptive_fields_core, (descriptive_items_keys b). }
  assert (Heq : get_all_metadata b = descriptive_items b ++ raw_metadata b).
  { rewrite get_all_metadata_update. apply update_disjoint; [exact Hwf|].
    intros k Hr Hd. exact (Hdis k Hd Hr). }
  split; [exact Heq|]. split; [exact Hdis|].
  intros k Hnav. rewrite Heq. unfold Dict.keys. rewrite map_app, in_app_iff.
  apply navigation_and_name_core in Hnav as [Hcore Hnd].
  intros [Hin|Hin].
  - apply Hnd. now apply (descriptive_items_keys b).
  - exact (Hkeys k Hin Hcore).
Qed.

Lemma metadata_view_witness :
  get_all_metadata hobbit = descriptive_items hobbit ++ raw_metadata hobbit
  /\ (forall k, In k (Dict.keys (descriptive_items hobbit)) ->
                ~ In k (Dict.keys (raw_metadata hobbit)))
  /\ (forall k, In k navigation_and_name ->
                ~ In k (Dict.keys (get_all_metadata hobbit))).
Proof.
  exact (metadata_view (VDict hobbit_record) [] hobbit hobbit_validates).
Defined.

(** Scenario A of the specification. *)
Example scenario_A :
  Book_validate (VDict hobbit_record) = ([], Valid hobbit)
  /\ get_all_metadata hobbit
     = [("title", VStr "The Hobbit");
        ("authors", VList [VStr "J.R.R. Tolkien"]);
        ("pages", VInt 310); ("rating", rating_4_5)].
Proof. split; vm_compute; reflexivity. Qed.

(** ** Detection *)

Section DetectionFacts.
Context {E C : Type} (class_name : C -> string).

(** The closed form of the loop when no rule before the first match
    raises past [except Exception]. *)
Lemma detect_in_spec (rules : list (detection_func * C)) (raw : value) :
  Forall (fun rule => aborts raw rule = false)
    (rules_before_match rules raw) ->
  detect_in class_name rules raw
  = (failure_warnings class_name (rules_before_match rules raw) raw
     ++ [match first_matching_class rules raw with
         | Some c => mklog DEBUG ("Detected format for " ++ class_name c)
         | None => mklog WARNING "No suitable data format detected"
         end],
     inr (first_matching_class rules raw)).
Proof.
  unfold first_matching_class, failure_warnings.
  induction rules as [|[f c] rules IH]; intros Hno.
  - reflexivity.
  - cbn [detect_in rules_before_match find flat_map] in *.
    destruct (f raw) as [e|[|]] eqn:Ef.
    + assert (Hr : returns_true raw (f, c) = false)
        by (unfold returns_true; cbn [fst]; now rewrite Ef).
      rewrite Hr in *. inversion Hno as [|? ? Hf Hrest]; subst.
      unfold aborts in Hf. cbn [fst] in Hf. rewrite Ef in Hf.
      apply negb_false_iff in Hf. rewrite Hf, (IH Hrest).
      unfold bind, logger_warning.
      cbn [flat_map fst snd]. rewrite Ef. now rewrite <- app_assoc.
    + assert (Hr : returns_true raw (f, c) = true)
        by (unfold returns_true; cbn [fst]; now rewrite Ef).
      rewrite Hr. reflexivity.
    + assert (Hr : returns_true raw (f, c) = false)
        by (unfold returns_true; cbn [fst]; now rewrite Ef).
      rewrite Hr in *. inversion Hno as [|? ? Hf Hrest]; subst.
      rewrite (IH Hrest). cbn [flat_map fst snd]. rewrite Ef. reflexivity.
Qed.

(** The loop is left by the first such exception, with the warnings of
    the rules before it. *)
Lemma detect_in_aborts (before after : list (detection_func * C))
    (f : detection_func) (c : C) (raw : value) (e : exception) :
  Forall (fun rule => returns_true raw rule = false
                      /\ aborts raw rule = false) before ->
  f raw = inl e -> is_Exception e = false ->
  detect_in class_name (before ++ (f, c) :: after) raw
  = (failure_warnings class_name before raw, inl e).
Proof.
  intros Hbefore Hf He. unfold failure_warnings.
  induction Hbefore as [|[g c'] before [Hg Ha] _ IH];
    cbn [app detect_in flat_map fst snd].
  - now rewrite Hf, He.
  - unfold returns_true, aborts in Hg, Ha. cbn [fst] in Hg, Ha.
    destruct (g raw) as [e'|[|]]; [|discriminate|exact IH].
    apply negb_false_iff in Ha. rewrite Ha, IH. reflexivity.
Qed.

Lemma first_matching_class_app (before after : list (detection_func * C))
    (raw : value) :
  Forall (fun rule => fst rule raw <> inr true) before ->
  first_matching_class (before ++ after) raw
  = first_matching_class after raw.
Proof.
  unfold first_matching_class.
  induction 1 as [|[f c] before Hf _ IH]; [reflexivity|].
  cbn [app find]. unfold returns_true at 1. cbn [fst] in *.
  destruct (f raw) as [e|[|]]; [exact IH|congruence|exact IH].
Qed.

Lemma rules_before_match_app (before after : list (detection_func * C))
    (raw : value) :
  Forall (fun rule => fst rule raw <> inr true) before ->
  rules_before_match (before ++ after) raw
  = before ++ rules_before_match after raw.
Proof.
  induction 1 as [|[f c] before Hf _ IH]; [reflexivity|].
  cbn [app rules_before_match]. unfold returns_true. cbn [fst] in *.
  destruct (f raw) as [e|[|]]; [now rewrite IH|congruence|now rewrite IH].
Qed.

(** C5, as amended: when no rule that is tried raises an exception that
    is not an [Exception], [detect_collection_class] does not raise; its
    result is the class of the first rule, in registration order, whose
    predicate returns true, rules whose predicate raises being passed
    over with one warning each; it is [None], whatever classes are
    registered, when no predicate returns true; and of two matching
    rules the one that was registered first wins. *)
Theorem detection_order (cls : EntityTypeRegistry E C) (raw : value) :
  Forall (fun rule => aborts raw rule = false)
    (rules_before_match (_detection_rules cls) raw) ->
  snd (detect_collection_class class_name cls raw)
  = inr (first_matching_class (_detection_rules cls) raw)
  /\ (forall before f c after,
        _detection_rules cls = before ++ (f, c) :: after ->
        f raw = inr true ->
        Forall (fun rule => fst rule raw <> inr true) before ->
        first_matching_class (_detection_rules cls) raw = Some c)
  /\ (Forall (fun rule => fst rule raw <> inr true) (_detection_rules cls) ->
      first_matching_class (_detection_rules cls) raw = None)
  /\ incl (failure_warnings class_name
             (rules_before_match (_detection_rules cls) raw) raw)
          (fst (detect_collection_class class_name cls raw))
  /\ (forall f1 c1 f2 c2,
        Forall (fun rule => fst rule raw <> inr true) (_detection_rules cls) ->
        f1 raw = inr true ->
        snd (detect_collection_class class_name
               (register_detection_rule f2 c2
                  (register_detection_rule f1 c1 cls)) raw)
        = inr (Some c1)).
Proof.
  intros Hno.
  unfold detect_collection_class. rewrite detect_in_spec by exact Hno.
  cbn [fst snd].
  split; [reflexivity|]. split; [|split; [|split]].
  - intros before f c after -> Hf Hbefore.
    rewrite first_matching_class_app by exact Hbefore.
    unfold first_matching_class, returns_true. cbn [find fst].
    now rewrite Hf.
  - intros Hnone.
    rewrite <- (app_nil_r (_detection_rules cls)).
    now rewrite first_matching_class_app.
  - apply incl_appl, incl_refl.
  - intros f1 c1 f2 c2 Hnone Hf1.
    assert (Hall : rules_before_match (_detection_rules cls) raw
                   = _detection_rules cls).
    { rewrite <- (app_nil_r (_detection_rules cls)) at 1.
      rewrite rules_before_match_app by exact Hnone.
      apply app_nil_r. }
    rewrite Hall in Hno.
    cbn [register_detection_rule _detection_rules].
    rewrite <- app_assoc. cbn [app].
    rewrite detect_in_spec.
    + cbn [snd]. f_equal.
      rewrite first_matching_class_app by exact Hnone.
      unfold first_matching_class, returns_true. cbn [find fst].
      now rewrite Hf1.
    + rewrite rules_before_match_app by exact Hnone.
      cbn [rules_before_match]. unfold returns_true at 1. cbn [fst].
      rewrite Hf1. now rewrite app_nil_r.
Qed.

End DetectionFacts.

Lemma detection_order_witness :
  first_matching_class (_detection_rules three_rules) VNone = Some "R1"
  /\ first_matching_class (_detection_rules module_registry)
       (VDict [("albums", VList [])]) = None.
Proof.
  split.
  - apply (proj1 (proj2 (detection_order (fun c => c) three_rules VNone
                           ltac:(repeat constructor)))
             [(always_raises, "R0")] always_true "R1" [(always_true, "R2")]).
    + reflexivity.
    + reflexivity.
    + repeat constructor. discriminate.
  - apply (proj1 (proj2 (proj2 (detection_order collection_class_name
                                  module_registry
                                  (VDict [("albums", VList [])])
                                  ltac:(repeat constructor))))).
    repeat constructor. discriminate.
Defined.

(** C5 as the specification states it: it fails for a rule whose
    predicate raises [KeyboardInterrupt].  The rule is not passed over:
    the exception leaves [detect_collection_class], although the rule
    after it matches. *)
Lemma detection_is_interrupted :
  first_matching_class (_detection_rules interrupted_rules) VNone
  = Some "R1"
  /\ detect_collection_class (fun c => c) interrupted_rules VNone
     = ([], inl (KeyboardInterrupt "")).
Proof. split; reflexivity. Qed.

(** Scenario B of the specification, and the log of a run in which a
    predicate raises. *)
Example scenario_B :
  detect_collection_class collection_class_name module_registry
    (VDict [("albums", VList [])])
  = ([mklog WARNING "No suitable data format detected"], inr None).
Proof. reflexivity. Qed.

Example detection_skips_a_raising_rule :
  detect_collection_class (fun c => c) three_rules VNone
  = ([mklog WARNING "Detection failed for R0: boom";
      mklog DEBUG "Detected format for R1"], inr (Some "R1")).
Proof. reflexivity. Qed.

(** ** Collections *)

Lemma each_valid_inv {A : Type} (validate : value -> Val A) (i : nat)
    (items : list value) l (xs : list A) :
  each validate i items = (l, inr ([], Some xs)) ->
  Forall2 (fun v x => exists l', validate v = (l', inr ([], Some x)))
    items xs.
Proof.
  revert i l xs. induction items as [|v items IH]; intros i l xs; cbn [each].
  - unfold valid. intros H. injection H as <- <-. constructor.
  - intros H.
    apply ap_valid_inv in H as (l1 & l2 & g & tl & H & Htl & -> & ->).
    apply ap_valid_inv in H as (l3 & l4 & g' & x & H & Hx & -> & ->).
    unfold valid in H. injection H as <- <-.
    apply at_loc_valid_inv in Hx. constructor; [eauto|].
    exact (IH _ _ _ Htl).
Qed.

Lemma each_valid {A : Type} (validate : value -> Val A) (i : nat)
    (items : list value) (xs : list A) :
  Forall2 (fun v x => exists l', validate v = (l', inr ([], Some x)))
    items xs ->
  exists l, each validate i items = (l, inr ([], Some xs)).
Proof.
  intros H. revert i.
  induction H as [|v x items xs (l' & Hv) _ IH]; intros i; cbn [each].
  - now exists [].
  - destruct (IH (S i)) as (l & Hl). rewrite Hl, Hv.
    exists (([] ++ l') ++ l). reflexivity.
Qed.

Lemma Forall2_In_left {A B : Type} (P : A -> B -> Prop) l l' a :
  Forall2 P l l' -> In a l -> exists b, In b l' /\ P a b.
Proof.
  induction 1 as [|x y l l' Hxy _ IH]; simpl; [tauto|].
  intros [<-|Hin]; [eauto|].
  destruct (IH Hin) as (b & Hb & HP). eauto.
Qed.

(** A collection is built only from an object whose ["books"] key
    holds an array all of whose elements give a book, and then
    [get_entities] lists the books of the elements in the order of the
    array; if the key is absent, its value is not an array, or one
    element fails, no collection is built. *)
Lemma collection_all_or_nothing (top : value) :
  (forall l c,
      BookCollection_validate top = (l, Valid c) ->
      exists d items,
        top = VDict d /\ Dict.get "books" d = Some (VList items)
        /\ Forall2 (fun v b => exists l', Book_validate v = (l', Valid b))
             items (get_entities c))
  /\ ((forall d, top <> VDict d)
      \/ (exists d, top = VDict d /\ Dict.get "books" d = None)
      \/ (exists d v, top = VDict d /\ Dict.get "books" d = Some v
                      /\ forall items, v <> VList items)
      \/ (exists d items v,
             top = VDict d /\ Dict.get "books" d = Some (VList items)
             /\ In v items /\ forall l b, Book_validate v <> (l, Valid b))
      -> forall l c, BookCollection_validate top <> (l, Valid c))
  /\ (forall d items bs,
        top = VDict d -> Dict.get "books" d = Some (VList items) ->
        Forall2 (fun v b => exists l', Book_validate v = (l', Valid b))
          items bs ->
        exists l,
          BookCollection_validate top = (l, Valid (mkBookCollection bs))).
Proof.
  assert (Hvalid : forall l c,
      BookCollection_validate top = (l, Valid c) ->
      exists d items,
        top = VDict d /\ Dict.get "books" d = Some (VList items)
        /\ Forall2 (fun v b => exists l', Book_validate v = (l', Valid b))
             items (get_entities c)).
  { intros l c H. unfold BookCollection_validate in H.
    apply run_valid_inv in H. unfold BookCollection_validator in H.
    destruct top as [| | | | |?|d|?];
      try (unfold invalid in H; discriminate).
    apply ap_valid_inv in H as (l1 & l2 & g & bs & H & Hbs & -> & ->).
    unfold valid in H. injection H as <- <-.
    unfold required_field in Hbs.
    destruct (Dict.get "books" d) as [v|] eqn:Ev; [|discriminate].
    apply at_loc_valid_inv in Hbs. unfold list_of_Book in Hbs.
    destruct v as [| | | | |items|?|?];
      try (unfold invalid in Hbs; discriminate).
    exists d, items. split; [reflexivity|]. split; [exact Ev|].
    apply each_valid_inv in Hbs. simpl.
    eapply Forall2_impl; [|exact Hbs].
    intros v b (l' & Hv). exists l'. unfold Book_validate. now rewrite Hv. }
  split; [exact Hvalid|]. split.
  2:{ intros d items bs -> Hget Hall.
      assert (Hall' : Forall2
                (fun v b => exists l', Book_validator v = (l', inr ([], Some b)))
                items bs).
      { eapply Forall2_impl; [|exact Hall].
        intros v b (l' & Hv). exists l'. now apply run_valid_inv. }
      destruct (each_valid Book_validator 0 items bs Hall') as (l & Hl).
      exists ([] ++ l).
      unfold BookCollection_validate, BookCollection_validator,
        required_field, list_of_Book.
      rewrite Hget. cbn [at_loc]. rewrite Hl. reflexivity. }
  intros Hfail l c H. apply Hvalid in H as (d & items & -> & Hget & Hall).
  destruct Hfail as [Hf|[(d' & Hd & Hf)|[(d' & v & Hd & Hf & Hnl)
                    |(d' & items' & v & Hd & Hf & Hin & Hv)]]].
  - now apply (Hf d).
  - injection Hd as <-. congruence.
  - injection Hd as <-. rewrite Hget in Hf. injection Hf as <-.
    now apply (Hnl items).
  - injection Hd as <-. rewrite Hget in Hf. injection Hf as <-.
    destruct (Forall2_In_left _ _ _ _ Hall Hin) as (b & _ & l' & Hb).
    exact (Hv l' b Hb).
Qed.

Lemma collection_all_or_nothing_witness :
  exists d items,
    VDict [("books", VList [VDict hobbit_record])] = VDict d
    /\ Dict.get "books" d = Some (VList items)
    /\ Forall2 (fun v b => exists l', Book_validate v = (l', Valid b))
         items [hobbit].
Proof.
  apply (proj1 (collection_all_or_nothing
                  (VDict [("books", VList [VDict hobbit_record])]))
           [] (mkBookCollection [hobbit])).
  vm_compute. reflexivity.
Defined.

Lemma Book_validator_reports (v : value) : reports (Book_validator v).
Proof.
  unfold Book_validator.
  destruct (extract_metadata v); try apply invalid_reports.
  unfold Book_fields.
  repeat apply ap_reports; try apply valid_reports;
    apply field_reports; intros w;
    try (apply validated_reports; intros [a|]);
    try apply valid_reports; try apply invalid_reports.
  - apply validated_reports. intros a. apply valid_reports.
  - destruct w; try apply invalid_reports; apply valid_reports.
Qed.

Lemma BookCollection_validator_reports (top : value) :
  reports (BookCollection_validator top).
Proof.
  unfold BookCollection_validator.
  destruct top; try apply invalid_reports.
  apply ap_reports; [apply valid_reports|].
  apply required_field_reports. intros v. unfold list_of_Book.
  destruct v; try apply invalid_reports.
  apply each_reports, Book_validator_reports.
Qed.

(** An exception that leaves the parse of a collection left the
    construction of one of its elements. *)
Lemma collection_raised_inv (top : value) l e :
  BookCollection_validate top = (l, Raised e) ->
  exists d items v l',
    top = VDict d /\ Dict.get "books" d = Some (VList items)
    /\ In v items /\ Book_validate v = (l', Raised e).
Proof.
  unfold BookCollection_validate, BookCollection_validator.
  destruct top as [| | | | |?|d|?]; try discriminate.
  unfold required_field.
  destruct (Dict.get "books" d) as [v|] eqn:Ev; [|discriminate].
  unfold list_of_Book.
  destruct v as [| | | | |items|?|?]; try discriminate.
  destruct (each Book_validator 0 items) as [l0 [e0|[errs a]]] eqn:Ee.
  - cbn. intros H. injection H as _ <-.
    apply each_raised_inv in Ee as (v & l' & Hin & Hv).
    exists d, items, v, l'. repeat split; try assumption.
    unfold Book_validate. now rewrite Hv.
  - cbn. destruct errs; [destruct a|]; discriminate.
Qed.

(** When no exception leaves the construction of an element, the parse
    of a top-level object without the key ["books"], with a value under
    it that is not an array, or with an element from which no book is
    built, fails with a structural error. *)
Lemma collection_fails_structurally (top : value) :
  (forall d, top <> VDict d)
  \/ (exists d, top = VDict d /\ Dict.get "books" d = None)
  \/ (exists d v, top = VDict d /\ Dict.get "books" d = Some v
                  /\ forall items, v <> VList items)
  \/ (exists d items v,
         top = VDict d /\ Dict.get "books" d = Some (VList items)
         /\ In v items /\ forall l b, Book_validate v <> (l, Valid b)) ->
  (forall d items v l e,
      top = VDict d -> Dict.get "books" d = Some (VList items) ->
      In v items -> Book_validate v <> (l, Raised e)) ->
  exists l errs,
    BookCollection_validate top = (l, ValidationError errs) /\ errs <> [].
Proof.
  intros Hfail Hraise.
  destruct (BookCollection_validate top) as [l [c|errs|e]] eqn:E.
  - exfalso.
    exact (proj1 (proj2 (collection_all_or_nothing top)) Hfail l c E).
  - exists l, errs. split; [reflexivity|].
    exact (run_error_inv _ _ _ (BookCollection_validator_reports top) E).
  - exfalso.
    destruct (collection_raised_inv _ _ _ E)
      as (d & items & v & l' & Hd & Hget & Hin & Hv).
    exact (Hraise d items v l' e Hd Hget Hin Hv).
Qed.

(** C6, where the code departs from it: the first element of the array
    is not a record and fails with a structural error, so the parse is
    to fail with a structural error; the pages of the second element are
    a float infinity, which [json.loads] gives for the number [1e999],
    and the [OverflowError] that [handle_pages_field] does not catch
    leaves the parse instead. *)
Theorem collection_parse_raises :
  Book_validate (VStr "not-an-object")
  = ([], ValidationError [mkerr [] "model_type"])
  /\ BookCollection_validate
       (VDict [("books",
                VList [VStr "not-an-object";
                       VDict [("pages", VFloat (S754_infinity false))]])])
     = ([], Raised (OverflowError "cannot convert float infinity to integer")).
Proof. split; reflexivity. Qed.

(** Scenario D of the specification: one element that is not a record. *)
Example scenario_D :
  BookCollection_validate (VDict [("books", VList [VStr "not-an-object"])])
  = ([], ValidationError
           [mkerr [LocField "books"; LocIndex 0] "model_type"]).
Proof. reflexivity. Qed.

Example collection_without_books :
  BookCollection_validate (VDict [("albums", VList [])])
  = ([], ValidationError [mkerr [LocField "books"] "missing"])
  /\ BookCollection_validate (VDict [("books", VStr "x")])
     = ([], ValidationError [mkerr [LocField "books"] "list_type"]).
Proof. split; reflexivity. Qed.

(** ** Field normalizers *)

Lemma py_strptime_cases (s : string) (fmt : list Date.item) :
  match Date.strptime s fmt with
  | inr d => py_strptime s fmt = ([], inr d)
  | inl _ => exists msg, py_strptime s fmt = ([], inl (ValueError msg))
  end.
Proof.
  unfold py_strptime. destruct (Date.strptime s fmt) as [[| |]|d];
    try reflexivity; eexists; reflexivity.
Qed.

(** The date normalizer raises when it calls [str] and [str] raises;
    otherwise it returns [normalized_date]. *)
Lemma handle_publication_date_field_value (v : value) :
  handle_publication_date_field v
  = if str_raises v then raise digit_limit_error
    else (fst (normalized_date v), inr (snd (normalized_date v))).
Proof.
  destruct v as [|b|n|f|s|l|d|d]; try reflexivity;
    try (unfold handle_publication_date_field, py_str;
         cbn [is_None eq_empty_str orb];
         destruct (str_raises _); reflexivity).
  destruct s as [|c s]; [reflexivity|].
  unfold handle_publication_date_field, normalized_date, first_parse,
    date_formats.
  cbn [is_None eq_empty_str orb Date.first_success str_raises].
  set (t := Str.strip (String c s)).
  pose proof (py_strptime_cases t Date.fmt_Y_m_d_dash) as H1.
  pose proof (py_strptime_cases t Date.fmt_Y_m_d_slash) as H2.
  pose proof (py_strptime_cases t Date.fmt_m_d_Y_slash) as H3.
  destruct (Date.strptime t Date.fmt_Y_m_d_dash) as [e1|d1].
  2:{ rewrite H1. reflexivity. }
  destruct H1 as (m1 & ->).
  destruct (Date.strptime t Date.fmt_Y_m_d_slash) as [e2|d2].
  2:{ rewrite H2. reflexivity. }
  destruct H2 as (m2 & ->).
  destruct (Date.strptime t Date.fmt_m_d_Y_slash) as [e3|d3].
  2:{ rewrite H3. reflexivity. }
  destruct H3 as (m3 & ->).
  reflexivity.
Qed.



Example publication_date_examples :
  handle_publication_date_field (VStr " 2020-01-05 ")
  = ([], inr (Some (a_date (Date.mkdate 2020 1 5))))
  /\ handle_publication_date_field (VStr "2020/1/5")
     = ([], inr (Some (a_date (Date.mkdate 2020 1 5))))
  /\ handle_publication_date_field (VStr "12/31/1999")
     = ([], inr (Some (a_date (Date.mkdate 1999 12 31))))
  /\ handle_publication_date_field (VStr " Jan 2020 ")
     = ([mklog WARNING "Cannot parse date format: Jan 2020. Storing as string."],
        inr (Some (a_str "Jan 2020")))
  /\ handle_publication_date_field (VStr "2020-02-30")
     = ([mklog WARNING
           "Cannot parse date format: 2020-02-30. Storing as string."],
        inr (Some (a_str "2020-02-30")))
  /\ handle_publication_date_field (VInt 2020)
     = ([], inr (Some (a_str "2020"))).
Proof. repeat split; vm_compute; reflexivity. Qed.

(** [int(v)] raises [OverflowError] on the two float infinities and on
    nothing else. *)
Lemma py_int_overflow (v : value) (msg : string) :
  py_int v = inl (OverflowError msg) ->
  exists s, v = VFloat (S754_infinity s).
Proof.
  destruct v as [| | |f|s| | |]; simpl; try discriminate.
  - destruct f as [s|s| |s m e]; simpl; try discriminate. eauto.
  - destruct (Num.int_of_str s); [discriminate|].
    destruct (Num.int_too_many_digits s); discriminate.
Qed.

(** [int(v)] raises nothing but [ValueError], [TypeError] and that
    [OverflowError]. *)
Lemma py_int_cases (v : value) :
  match py_int v with
  | inr _ => True
  | inl e =>
      ValueError_or_TypeError e = true
      \/ exists s, v = VFloat (S754_infinity s)
  end.
Proof.
  destruct v as [| | |f|s| | |]; cbn [py_int]; auto.
  - destruct f as [s|s| |s m e]; cbn [Num.int_of_float]; eauto.
  - destruct (Num.int_of_str s); [exact I|].
    destruct (Num.int_too_many_digits s); now left.
Qed.

(** Away from the float infinities, and when [str(v)] does not raise,
    pages normalization is what the specification says: [None] for
    [None] and the empty string; [None] and one warning when [int]
    fails; [None] for a result that is not positive; the integer
    otherwise. *)
Lemma pages_normalization (v : value) :
  (forall s, v <> VFloat (S754_infinity s)) ->
  str_raises v = false ->
  handle_pages_field v
  = (fst (normalized_pages v), inr (snd (normalized_pages v))).
Proof.
  intros Hfinite Hstr. unfold handle_pages_field, normalized_pages, py_str.
  rewrite Hstr.
  destruct v as [| | |f|s| | |]; try reflexivity.
  - destruct f as [s|s| |s m e]; try reflexivity.
    exfalso. now apply (Hfinite s).
  - destruct s as [|c s]; [reflexivity|].
    cbn [is_None eq_empty_str orb py_int].
    destruct (Num.int_of_str (String c s)); [reflexivity|].
    destruct (Num.int_too_many_digits (String c s)); reflexivity.
Qed.

Lemma pages_normalization_witness :
  handle_pages_field (VStr "310") = ([], inr (Some 310))
  /\ handle_pages_field (VStr "0") = ([], inr None)
  /\ handle_pages_field (VStr "-5") = ([], inr None)
  /\ handle_pages_field (VStr "abc")
     = ([mklog WARNING "Cannot parse pages value: abc. Setting to None."],
        inr None).
Proof.
  repeat split;
    (rewrite pages_normalization by (discriminate || reflexivity);
     vm_compute; reflexivity).
Defined.

(** C7, where the code departs from it: the pages of a float infinity,
    which [json.loads] gives for the number [1e999], are not [None]; the
    [OverflowError] of [int] is not caught and the book is not built. *)
Theorem pages_of_infinity_raises :
  handle_pages_field (VFloat (S754_infinity false))
  = ([], inl (OverflowError "cannot convert float infinity to integer"))
  /\ Book_validate (VDict [("pages", VFloat (S754_infinity false))])
     = ([], Raised (OverflowError "cannot convert float infinity to integer")).
Proof. split; reflexivity. Qed.

(** Scenario C of the specification. *)
Example scenario_C :
  exists b,
    Book_validate (VDict [("pages", VStr "abc")])
    = ([mklog WARNING "Cannot parse pages value: abc. Setting to None."],
       Valid b)
    /\ pages b = None.
Proof. eexists. split; [vm_compute; reflexivity|reflexivity]. Qed.

(** ** String normalization *)

Lemma lstrip_fixed (p : ascii -> bool) (s : string) :
  match Str.head s with Some c => p c = false | None => True end ->
  Str.lstrip_with p s = s.
Proof. destruct s as [|c s]; simpl; [reflexivity|]. now intros ->. Qed.

Lemma rstrip_fixed (p : ascii -> bool) (s : string) :
  match Str.last s with Some c => p c = false | None => True end ->
  Str.rstrip_with p s = s.
Proof.
  induction s as [|c s IH]; [reflexivity|].
  cbn [Str.last Str.rstrip_with]. destruct s as [|c' s].
  - simpl. now intros ->.
  - intros H. rewrite IH by exact H. reflexivity.
Qed.

Lemma sub_spaces_fixed (in_run : bool) (s : string) :
  (in_run = true -> no_leading_whitespace s = true) ->
  no_doubled_whitespace s = true ->
  whitespace_is_space s = true ->
  Str.sub_spaces in_run s = s.
Proof.
  unfold whitespace_is_space. revert in_run.
  induction s as [|c s IH]; intros in_run Hrun Hdbl Hsp; [reflexivity|].
  cbn [Str.sub_spaces no_doubled_whitespace Str.forallb] in *.
  apply andb_prop in Hdbl as [Hc Hdbl]. apply andb_prop in Hsp as [Hc' Hsp].
  destruct (Str.isspace c) eqn:Ec.
  - simpl in Hc, Hc'. apply negb_true_iff, negb_false_iff in Hc.
    apply Ascii.eqb_eq in Hc'. subst c.
    destruct in_run.
    + specialize (Hrun eq_refl). unfold no_leading_whitespace in Hrun.
      cbn [Str.head] in Hrun. rewrite Ec in Hrun. discriminate.
    + rewrite IH; auto.
  - rewrite IH; auto. discriminate.
Qed.

(** The three normal forms of a string that [string_value]
    returns. *)
Lemma lstrip_no_leading (s : string) :
  no_leading_whitespace (Str.lstrip_with Str.isspace s) = true.
Proof.
  induction s as [|c s IH]; [reflexivity|]. simpl.
  destruct (Str.isspace c) eqn:Ec; [exact IH|].
  unfold no_leading_whitespace. cbn [Str.head]. rewrite Ec; reflexivity.
Qed.

Lemma rstrip_no_trailing (s : string) :
  no_trailing_whitespace (Str.rstrip_with Str.isspace s) = true.
Proof.
  unfold no_trailing_whitespace.
  induction s as [|c s IH]; [reflexivity|]. cbn [Str.rstrip_with].
  destruct (Str.rstrip_with Str.isspace s) as [|c' r].
  - destruct (Str.isspace c) eqn:Ec; [reflexivity|].
    cbn [Str.last]. rewrite Ec; reflexivity.
  - exact IH.
Qed.

Lemma rstrip_keeps_no_leading (s : string) :
  no_leading_whitespace s = true ->
  no_leading_whitespace (Str.rstrip_with Str.isspace s) = true.
Proof.
  unfold no_leading_whitespace. destruct s as [|c s]; [reflexivity|].
  cbn [Str.rstrip_with Str.head]. intros Hc.
  destruct (Str.rstrip_with Str.isspace s).
  - apply negb_true_iff in Hc. rewrite Hc. cbn [Str.head].
    rewrite Hc. reflexivity.
  - exact Hc.
Qed.

Lemma strip_normal (s : string) :
  no_leading_whitespace (Str.strip s) = true
  /\ no_trailing_whitespace (Str.strip s) = true.
Proof.
  unfold Str.strip, Str.strip_with. split.
  - apply rstrip_keeps_no_leading, lstrip_no_leading.
  - apply rstrip_no_trailing.
Qed.

Lemma sub_spaces_after_space (s : string) :
  no_leading_whitespace (Str.sub_spaces true s) = true.
Proof.
  induction s as [|c s IH]; [reflexivity|]. cbn [Str.sub_spaces].
  destruct (Str.isspace c) eqn:Ec; [exact IH|].
  unfold no_leading_whitespace. cbn [Str.head]. rewrite Ec; reflexivity.
Qed.

Lemma sub_spaces_no_leading (s : string) :
  no_leading_whitespace s = true ->
  no_leading_whitespace (Str.sub_spaces false s) = true.
Proof.
  unfold no_leading_whitespace. destruct s as [|c s]; [reflexivity|].
  cbn [Str.sub_spaces Str.head]. intros Hc.
  apply negb_true_iff in Hc. rewrite Hc. cbn [Str.head]. rewrite Hc; reflexivity.
Qed.

Lemma last_cons (c : ascii) (s : string) :
  s <> EmptyString -> Str.last (String c s) = Str.last s.
Proof. destruct s; [congruence|reflexivity]. Qed.

Lemma last_Some_nonempty (s : string) (x : ascii) :
  Str.last s = Some x -> s <> EmptyString.
Proof. destruct s; [discriminate|discriminate]. Qed.

Lemma sub_spaces_last (in_run : bool) (s : string) (x : ascii) :
  Str.last s = Some x -> Str.isspace x = false ->
  Str.last (Str.sub_spaces in_run s) = Some x.
Proof.
  revert in_run. induction s as [|c s IH]; intros in_run; [discriminate|].
  intros Hlast Hx. destruct (string_dec s EmptyString) as [->|Hs].
  - cbn [Str.last] in Hlast. injection Hlast as ->.
    cbn [Str.sub_spaces]. rewrite Hx. reflexivity.
  - rewrite last_cons in Hlast by exact Hs.
    pose proof (IH true Hlast Hx) as Ht.
    pose proof (IH false Hlast Hx) as Hf.
    cbn [Str.sub_spaces].
    destruct (Str.isspace c).
    + destruct in_run; [exact Ht|].
      rewrite last_cons; [exact Ht|]. now apply (last_Some_nonempty _ x).
    + rewrite last_cons; [exact Hf|]. now apply (last_Some_nonempty _ x).
Qed.

Lemma sub_spaces_no_trailing (s : string) :
  no_trailing_whitespace s = true ->
  no_trailing_whitespace (Str.sub_spaces false s) = true.
Proof.
  unfold no_trailing_whitespace.
  destruct (Str.last s) as [x|] eqn:El.
  - intros Hx. apply negb_true_iff in Hx.
    rewrite (sub_spaces_last false s x El Hx). rewrite Hx; reflexivity.
  - destruct s as [|c s]; [reflexivity|].
    exfalso. clear -El. revert c El.
    induction s as [|c' s IH]; intros c El; [discriminate|].
    exact (IH c' El).
Qed.

Lemma sub_spaces_single (in_run : bool) (s : string) :
  no_doubled_whitespace (Str.sub_spaces in_run s) = true
  /\ whitespace_is_space (Str.sub_spaces in_run s) = true.
Proof.
  unfold whitespace_is_space. revert in_run.
  induction s as [|c s IH]; intros in_run; [now split|].
  cbn [Str.sub_spaces]. destruct (Str.isspace c) eqn:Ec.
  - destruct in_run; [apply IH|].
    cbn [no_doubled_whitespace Str.forallb].
    rewrite sub_spaces_after_space.
    destruct (IH true) as [-> ->]. now split.
  - cbn [no_doubled_whitespace Str.forallb]. rewrite Ec.
    destruct (IH false) as [-> ->]. now split.
Qed.

Lemma nonempty_true (s : string) : Str.nonempty s = true <-> s <> EmptyString.
Proof. destruct s; simpl; split; congruence. Qed.

Lemma sub_spaces_nonempty (s : string) :
  no_leading_whitespace s = true -> Str.nonempty s = true ->
  Str.nonempty (Str.re_sub_spaces s) = true.
Proof.
  unfold no_leading_whitespace, Str.re_sub_spaces.
  destruct s as [|c s]; [discriminate|]. cbn [Str.head Str.sub_spaces].
  intros Hc _. apply negb_true_iff in Hc. rewrite Hc. reflexivity.
Qed.

(** What [string_value] does with a string. *)
Lemma string_value_str (s : string) :
  string_value (VStr s)
  = if Str.nonempty (Str.strip s) then Some (Str.re_sub_spaces (Str.strip s))
    else None.
Proof.
  unfold string_value. cbn [is_None orb].
  destruct s as [|c s]; [reflexivity|]. cbn [eq_empty_str orb].
  destruct (Str.nonempty (Str.strip (String c s))) eqn:E; [|reflexivity].
  cbn [negb]. rewrite sub_spaces_nonempty; [reflexivity| |exact E].
  apply strip_normal.
Qed.

(** The string it returns is normalized. *)
Lemma string_value_str_normal (s n : string) :
  string_value (VStr s) = Some n ->
  n = Str.re_sub_spaces (Str.strip s)
  /\ n <> EmptyString
  /\ no_leading_whitespace n = true
  /\ no_trailing_whitespace n = true
  /\ no_doubled_whitespace n = true
  /\ whitespace_is_space n = true.
Proof.
  rewrite string_value_str.
  destruct (Str.nonempty (Str.strip s)) eqn:E; [|discriminate].
  intros H. injection H as <-.
  destruct (strip_normal s) as [Hl Ht].
  split; [reflexivity|]. split.
  { apply nonempty_true. now apply sub_spaces_nonempty. }
  split; [now apply sub_spaces_no_leading|].
  split; [now apply sub_spaces_no_trailing|].
  apply sub_spaces_single.
Qed.

Lemma strip_fixed (s : string) :
  no_leading_whitespace s = true -> no_trailing_whitespace s = true ->
  Str.strip s = s.
Proof.
  intros Hl Ht. unfold Str.strip, Str.strip_with. rewrite lstrip_fixed.
  - apply rstrip_fixed. unfold no_trailing_whitespace in Ht.
    destruct (Str.last s); [now apply negb_true_iff|exact I].
  - unfold no_leading_whitespace in Hl.
    destruct (Str.head s); [now apply negb_true_iff|exact I].
Qed.

(** C9, as amended: a string that is not empty, has no whitespace at
    either end and no two whitespace characters in a row, and whose
    whitespace characters are all spaces, is returned unchanged. *)
Theorem normalized_string_unchanged (s : string) :
  s <> EmptyString ->
  no_leading_whitespace s = true ->
  no_trailing_whitespace s = true ->
  no_doubled_whitespace s = true ->
  whitespace_is_space s = true ->
  handle_string_fields (VStr s) = ret (Some s).
Proof.
  intros Hne Hl Ht Hd Hsp. rewrite handle_string_fields_value.
  cbn [str_raises]. f_equal. f_equal. rewrite string_value_str.
  rewrite strip_fixed by assumption.
  apply nonempty_true in Hne. rewrite Hne.
  unfold Str.re_sub_spaces. rewrite sub_spaces_fixed; auto; discriminate.
Qed.

Lemma normalized_string_unchanged_witness :
  handle_string_fields (VStr "The Hobbit") = ret (Some "The Hobbit").
Proof.
  apply normalized_string_unchanged;
    [discriminate|reflexivity|reflexivity|reflexivity|reflexivity].
Defined.

(** C9 as the specification states it: it fails on a string with a tab
    between two letters, and on the empty string. *)
Lemma normalized_string_changed :
  no_leading_whitespace a_tab_b = true
  /\ no_trailing_whitespace a_tab_b = true
  /\ no_doubled_whitespace a_tab_b = true
  /\ handle_string_fields (VStr a_tab_b) = ret (Some "a b")
  /\ handle_string_fields (VStr a_tab_b) <> ret (Some a_tab_b)
  /\ no_leading_whitespace "" = true
  /\ no_trailing_whitespace "" = true
  /\ no_doubled_whitespace "" = true
  /\ handle_string_fields (VStr "") = ret None.
Proof. repeat split; try reflexivity. discriminate. Qed.

(** Normalization of strings is idempotent. *)
Corollary string_value_idempotent (s n : string) :
  string_value (VStr s) = Some n ->
  string_value (VStr n) = Some n.
Proof.
  intros H.
  apply string_value_str_normal in H as (_ & H1 & H2 & H3 & H4 & H5).
  rewrite string_value_str, strip_fixed by assumption.
  apply nonempty_true in H1. rewrite H1.
  unfold Str.re_sub_spaces. rewrite sub_spaces_fixed; auto; discriminate.
Qed.

(** ** The strings of values that are not strings *)

Lemma no_whitespace_app (s t : string) :
  no_whitespace (s ++ t) = no_whitespace s && no_whitespace t.
Proof.
  unfold no_whitespace. induction s as [|c s IH]; [reflexivity|].
  cbn [String.append Str.forallb]. rewrite IH. now rewrite andb_assoc.
Qed.

Lemma no_whitespace_ends (s : string) :
  no_whitespace s = true ->
  no_leading_whitespace s = true /\ no_trailing_whitespace s = true.
Proof.
  unfold no_whitespace, no_leading_whitespace, no_trailing_whitespace.
  intros H. split.
  - destruct s as [|c s]; [reflexivity|]. cbn [Str.forallb Str.head] in *.
    now apply andb_prop in H as [-> _].
  - induction s as [|c s IH]; [reflexivity|].
    cbn [Str.forallb] in H. apply andb_prop in H as [Hc Hs].
    destruct s as [|c' s]; [exact Hc|]. exact (IH Hs).
Qed.

Lemma no_whitespace_single (s : string) :
  no_whitespace s = true ->
  no_doubled_whitespace s = true /\ whitespace_is_space s = true.
Proof.
  unfold no_whitespace, whitespace_is_space.
  induction s as [|c s IH]; [now split|].
  cbn [Str.forallb no_doubled_whitespace]. intros H.
  apply andb_prop in H as [Hc Hs]. destruct (IH Hs) as [-> ->].
  apply negb_true_iff in Hc. rewrite Hc. now split.
Qed.

Lemma no_whitespace_uint (d : Decimal.uint) :
  no_whitespace (NilEmpty.string_of_uint d) = true.
Proof. induction d; [reflexivity|exact IHd ..]. Qed.

Lemma string_of_uint_no_whitespace (d : Decimal.uint) :
  no_whitespace (NilZero.string_of_uint d) = true
  /\ NilZero.string_of_uint d <> EmptyString.
Proof.
  destruct d;
    (split;
     [first [reflexivity
            |match goal with
             | |- no_whitespace (NilZero.string_of_uint ?x) = true =>
                 exact (no_whitespace_uint x)
             end]
     |discriminate]).
Qed.

Lemma str_of_int_no_whitespace (n : Z) :
  no_whitespace (Num.str_of_int n) = true /\ Num.str_of_int n <> EmptyString.
Proof.
  unfold Num.str_of_int, NilZero.string_of_int.
  destruct (Z.to_int n) as [d|d].
  - apply string_of_uint_no_whitespace.
  - split; [|discriminate].
    change (no_whitespace (NilZero.string_of_uint d) = true).
    apply string_of_uint_no_whitespace.
Qed.

Lemma zeros_no_whitespace (n : nat) : no_whitespace (Num.zeros n) = true.
Proof. induction n; [reflexivity|exact IHn]. Qed.

Lemma rstrip_zeros_no_whitespace (s : string) :
  no_whitespace s = true -> no_whitespace (Num.rstrip_zeros s) = true.
Proof.
  unfold no_whitespace. induction s as [|c s IH]; [reflexivity|].
  cbn [Str.forallb Num.rstrip_zeros]. intros H.
  apply andb_prop in H as [Hc Hs]. specialize (IH Hs).
  destruct (Num.rstrip_zeros s).
  - destruct (Ascii.eqb c "0"); [reflexivity|].
    cbn [Str.forallb]. now rewrite Hc.
  - cbn [Str.forallb] in *. now rewrite Hc.
Qed.

Lemma substring_no_whitespace (n m : nat) (s : string) :
  no_whitespace s = true -> no_whitespace (substring n m s) = true.
Proof.
  unfold no_whitespace. revert n m.
  induction s as [|c s IH]; intros n m H.
  - destruct n, m; reflexivity.
  - cbn [Str.forallb] in H. apply andb_prop in H as [Hc Hs].
    destruct n as [|n]; cbn [substring].
    + destruct m as [|m]; [reflexivity|].
      cbn [Str.forallb]. rewrite Hc. now apply IH.
    + now apply IH.
Qed.

Lemma format_repr_no_whitespace (digits : string) (decpt : Z) :
  no_whitespace digits = true ->
  no_whitespace (Num.format_repr digits decpt) = true
  /\ Num.format_repr digits decpt <> EmptyString.
Proof.
  intros Hd. unfold Num.format_repr.
  destruct ((decpt <=? -4) || (16 <? decpt)).
  - assert (Hm : no_whitespace
                   match digits with
                   | String c EmptyString => digits
                   | String c rest => String c (String "."%char rest)
                   | EmptyString => digits
                   end = true).
    { destruct digits as [|c [|c' rest]]; exact Hd. }
    split.
    + rewrite !no_whitespace_app, Hm.
      destruct (str_of_int_no_whitespace (Z.abs (decpt - 1))) as [He _].
      destruct (decpt - 1 <? 0), (Z.abs (decpt - 1) <? 10);
        rewrite ?no_whitespace_app, He; reflexivity.
    + destruct (match digits with
                | String c EmptyString => digits
                | String c rest => String c (String "."%char rest)
                | EmptyString => digits
                end); discriminate.
  - destruct (decpt <=? 0).
    + split; [|discriminate].
      rewrite !no_whitespace_app, zeros_no_whitespace, Hd. reflexivity.
    + destruct (Z.of_nat (String.length digits) <=? decpt).
      * split.
        -- rewrite !no_whitespace_app, zeros_no_whitespace, Hd. reflexivity.
        -- destruct digits; [|discriminate].
           destruct (Num.zeros _); discriminate.
      * split.
        -- rewrite !no_whitespace_app, !substring_no_whitespace by exact Hd.
           reflexivity.
        -- destruct (substring 0 _ digits); discriminate.
Qed.

Lemma float_repr_no_whitespace (f : Num.float) :
  no_whitespace (Num.float_repr f) = true
  /\ Num.float_repr f <> EmptyString.
Proof.
  destruct f as [s|s| |s m e]; cbn [Num.float_repr].
  - destruct s; split; (reflexivity || discriminate).
  - destruct s; split; (reflexivity || discriminate).
  - split; (reflexivity || discriminate).
  - unfold Num.repr_finite.
    destruct (Num.shortest_digits 17 _ m e _ 1) as [c n].
    destruct (str_of_int_no_whitespace c) as [Hc _].
    apply rstrip_zeros_no_whitespace in Hc.
    destruct (format_repr_no_whitespace (Num.rstrip_zeros (Num.str_of_int c))
                (Num.decimal_exponent m e - n
                 + Z.of_nat (String.length (Num.str_of_int c))) Hc)
      as [H1 H2].
    destruct s.
    + split; [|discriminate]. rewrite no_whitespace_app, H1. reflexivity.
    + split; [exact H1|exact H2].
Qed.

Lemma isoformat_no_whitespace (d : Date.date) :
  no_whitespace (Date.isoformat d) = true
  /\ Date.isoformat d <> EmptyString.
Proof.
  unfold Date.isoformat, Date.zero_pad. split.
  - rewrite !no_whitespace_app, !zeros_no_whitespace.
    rewrite !(proj1 (str_of_int_no_whitespace _)). reflexivity.
  - destruct (Num.zeros _); [|discriminate].
    destruct (Num.str_of_int (Date.year d)); discriminate.
Qed.

Lemma last_app_single (s : string) (c : ascii) :
  Str.last (s ++ String c EmptyString) = Some c.
Proof.
  induction s as [|a s IH]; [reflexivity|].
  cbn [String.append]. rewrite last_cons; [exact IH|].
  destruct s; discriminate.
Qed.

Lemma bracketed_ends (opening closing : ascii) (s : string) :
  Str.isspace opening = false -> Str.isspace closing = false ->
  let t := String opening (s ++ String closing EmptyString) in
  t <> EmptyString
  /\ no_leading_whitespace t = true /\ no_trailing_whitespace t = true.
Proof.
  intros Ho Hc t. split; [discriminate|]. split.
  - unfold no_leading_whitespace, t. cbn [Str.head]. now rewrite Ho.
  - unfold no_trailing_whitespace, t.
    rewrite last_cons by (destruct s; discriminate).
    rewrite last_app_single. now rewrite Hc.
Qed.

(** The string of a value that is not a string is not empty and has no
    whitespace at either end; the string of a scalar has no whitespace
    at all. *)
Lemma str_text_ends (v : value) :
  (forall s, v <> VStr s) ->
  str_text v <> EmptyString
  /\ no_leading_whitespace (str_text v) = true
  /\ no_trailing_whitespace (str_text v) = true
  /\ (is_scalar v = true -> no_whitespace (str_text v) = true).
Proof.
  intros Hv.
  assert (Hscalar : forall s,
             no_whitespace s = true /\ s <> EmptyString ->
             s <> EmptyString /\ no_leading_whitespace s = true
             /\ no_trailing_whitespace s = true
             /\ (is_scalar v = true -> no_whitespace s = true)).
  { intros s [Hs Hne]. destruct (no_whitespace_ends s Hs). auto. }
  destruct v as [|b|n|f|s|l|d|d]; cbn [str_text repr_text].
  - apply Hscalar. split; [reflexivity|discriminate].
  - apply Hscalar. destruct b; (split; [reflexivity|discriminate]).
  - apply Hscalar, str_of_int_no_whitespace.
  - apply Hscalar, float_repr_no_whitespace.
  - exfalso. now apply (Hv s).
  - destruct (bracketed_ends "[" "]"
                (Str.join ", " (map repr_text l)) eq_refl eq_refl)
      as (H1 & H2 & H3).
    repeat split; try assumption. discriminate.
  - destruct (bracketed_ends "{" "}"
                (Str.join ", "
                   (map (fun kv =>
                           (str_repr (fst kv) ++ ": " ++ repr_text (snd kv))%string)
                      d)) eq_refl eq_refl)
      as (H1 & H2 & H3).
    repeat split; try assumption. discriminate.
  - apply Hscalar, isoformat_no_whitespace.
Qed.

(** What [string_value] does with a value that is not a
    string. *)
Lemma string_value_other (v : value) :
  (forall s, v <> VStr s) ->
  string_value v = if is_None v then None else Some (str_text v).
Proof.
  intros Hv. destruct v; try reflexivity. exfalso. now apply (Hv s).
Qed.

Lemma string_value_other_normal (v : value) (n : string) :
  (forall s, v <> VStr s) ->
  string_value v = Some n ->
  n <> EmptyString
  /\ no_leading_whitespace n = true
  /\ no_trailing_whitespace n = true
  /\ (is_scalar v = true ->
      no_doubled_whitespace n = true /\ whitespace_is_space n = true).
Proof.
  intros Hv H. rewrite string_value_other in H by assumption.
  destruct (is_None v); [discriminate|]. injection H as <-.
  destruct (str_text_ends v Hv) as (H1 & H2 & H3 & H4).
  repeat split; try assumption; apply no_whitespace_single; auto.
Qed.

(** ** The name of a book *)

(** C10, as amended: the name of a book that was built is the
    normalization of the title or of the name that was supplied, or of
    the default; it is not empty and has no whitespace at either end;
    and, when the value it comes from is not an array or an object, its
    only whitespace is single spaces. *)
Theorem name_is_normalized (data : value) (l : list log_record) (b : Book) :
  Book_validate data = (l, Valid b) ->
  exists R source,
    data = VDict R
    /\ (Dict.get "title" R = Some source \/ Dict.get "name" R = Some source
        \/ source = VStr "Untitled Book")
    /\ handle_string_fields source = ret (Some (name b))
    /\ name b <> EmptyString
    /\ no_leading_whitespace (name b) = true
    /\ no_trailing_whitespace (name b) = true
    /\ (is_scalar source = true ->
        no_doubled_whitespace (name b) = true
        /\ whitespace_is_space (name b) = true).
Proof.
  intros H.
  apply Book_validate_returns in H as (R & -> & (l' & Hreturns) & _).
  destruct (handle_string_fields_returns _ _ _ Hreturns) as (-> & Hname & _).
  symmetry in Hname.
  exists R, (name_source R). split; [reflexivity|]. split.
  { unfold name_source, name_or_default.
    destruct (Dict.get "title" R) as [t|]; [destruct (truthy t); auto|];
      destruct (Dict.get "name" R) as [n|]; try destruct (truthy n); auto. }
  split; [exact Hreturns|].
  destruct (name_source R) as [|b'|n|f|s|l'|d|d] eqn:Es;
    try (refine (string_value_other_normal _ _ _ Hname);
         discriminate).
  apply string_value_str_normal in Hname
    as (_ & H1 & H2 & H3 & H4 & H5).
  repeat split; assumption.
Qed.

Lemma name_is_normalized_witness :
  exists R source,
    VDict hobbit_record = VDict R
    /\ (Dict.get "title" R = Some source \/ Dict.get "name" R = Some source
        \/ source = VStr "Untitled Book")
    /\ handle_string_fields source = ret (Some (name hobbit))
    /\ name hobbit <> EmptyString
    /\ no_leading_whitespace (name hobbit) = true
    /\ no_trailing_whitespace (name hobbit) = true
    /\ (is_scalar source = true ->
        no_doubled_whitespace (name hobbit) = true
        /\ whitespace_is_space (name hobbit) = true).
Proof.
  exact (name_is_normalized (VDict hobbit_record) [] hobbit hobbit_validates).
Defined.

(** C10 as the specification states it: it fails for a title that is an
    array; the name of the book is the string of the array, with the two
    spaces of its element. *)
Lemma name_with_doubled_whitespace :
  exists b,
    Book_validate (VDict [("title", VList [VStr "a  b"])]) = ([], Valid b)
    /\ name b = "['a  b']"
    /\ no_doubled_whitespace (name b) = false.
Proof.
  eexists. split; [vm_compute; reflexivity|]. split; reflexivity.
Qed.

(** ** The reconciliation of title and name *)

(** A title that is a string with something left after trimming becomes
    the name, normalized like the title itself. *)
Lemma title_becomes_name (R : pydict) (l : list log_record) (b : Book)
    (t : string) :
  Book_validate (VDict R) = (l, Valid b) ->
  Dict.get "title" R = Some (VStr t) ->
  Str.strip t <> EmptyString ->
  name b = Str.re_sub_spaces (Str.strip t) /\ title b = Some (name b).
Proof.
  intros H Ht Hne.
  apply Book_validate_valid_inv in H as (R' & HR & Hname & _ & Htitle & _).
  injection HR as <-.
  assert (Htruthy : truthy (VStr t) = true).
  { destruct t; [|reflexivity]. now contradiction Hne. }
  unfold name_source in Hname. rewrite Ht, Htruthy in Hname.
  unfold field_of in Htitle. rewrite Ht in Htitle.
  rewrite string_value_str in Hname, Htitle.
  apply nonempty_true in Hne. rewrite Hne in Hname, Htitle.
  injection Hname as <-. now split.
Qed.

(** Without a title and without a name, or with empty ones, the name is
    the default. *)
Lemma default_name (R : pydict) (l : list log_record) (b : Book) :
  Book_validate (VDict R) = (l, Valid b) ->
  absent_or_empty "title" R -> absent_or_empty "name" R ->
  name b = "Untitled Book".
Proof.
  intros H Ht Hn.
  apply Book_validate_valid_inv in H as (R' & HR & Hname & _).
  injection HR as <-.
  assert (E : name_source R = VStr "Untitled Book").
  { unfold name_source, name_or_default.
    destruct Ht as [-> | [-> | ->]], Hn as [-> | [-> | ->]]; reflexivity. }
  rewrite E in Hname. now injection Hname as <-.
Qed.

Example title_and_name_examples :
  (exists b, Book_validate (VDict [("title", VStr " The Hobbit ")])
             = ([], Valid b) /\ name b = "The Hobbit")
  /\ (exists b, Book_validate (VDict []) = ([], Valid b)
                /\ name b = "Untitled Book").
Proof.
  split; (eexists; split; [vm_compute; reflexivity|reflexivity]).
Qed.

(** C3, where the code departs from it: for a title of three spaces and
    no name, the name is not the default; no book is built at all. *)
Theorem blank_title_gives_no_name :
  absent_or_empty "name" [("title", VStr "   ")]
  /\ Str.strip "   " = ""
  /\ Book_validate (VDict [("title", VStr "   ")])
     = ([], ValidationError [mkerr [LocField "name"] "string_type"]).
Proof. repeat split. now left. Qed.

(** ** Failures of construction *)

(** C2, where the code departs from it: records, all of them mappings,
    from which no book is built.  A name of one space is rejected by the
    type of [name]; a price that is an integer too large for a float
    raises [OverflowError]. *)
Theorem blank_name_fails :
  Book_validate (VDict [("name", VStr " ")])
  = ([], ValidationError [mkerr [LocField "name"] "string_type"])
  /\ Book_validate (VDict [("title", VStr "ok"); ("price", VInt (10 ^ 400))])
     = ([], Raised (OverflowError "int too large to convert to float")).
Proof. split; vm_compute; reflexivity. Qed.

(** For a mapping whose values [str] can render, these are the only
    failures: outside them a book is built, whatever the other fields
    hold. *)

Lemma ap_is_valid {A B : Type} (f : Val (A -> B)) (x : Val A) :
  is_valid f -> is_valid x -> is_valid (f <*> x).
Proof.
  intros (l1 & g & ->) (l2 & a & ->). now exists (l1 ++ l2), (g a).
Qed.

Lemma field_validated_is_valid {A : Type} nm (dflt : A) (h : value -> M A)
    (d : pydict) :
  (forall v, Dict.get nm d = Some v -> exists l a, h v = (l, inr a)) ->
  is_valid (field nm dflt (fun v => validated (h v) any_of_them) d).
Proof.
  intros H. unfold field. destruct (Dict.get nm d) as [v|].
  - destruct (H v eq_refl) as (l & a & E). unfold validated. rewrite E.
    now exists (l ++ []), a.
  - now exists [], dflt.
Qed.

Lemma handle_string_fields_total (v : value) :
  str_raises v = false -> exists l a, handle_string_fields v = (l, inr a).
Proof.
  intros Hv. rewrite handle_string_fields_value, Hv. now eexists; eexists.
Qed.

Lemma handle_authors_field_total (v : value) :
  str_raises v = false -> exists l a, handle_authors_field v = (l, inr a).
Proof.
  intros Hv. rewrite handle_authors_field_value, Hv. now eexists; eexists.
Qed.

Lemma handle_pages_field_returns (v : value) :
  (forall s, v <> VFloat (S754_infinity s)) ->
  ((forall n, v <> VInt n) -> str_raises v = false) ->
  exists l a, handle_pages_field v = (l, inr a).
Proof.
  intros Hfinite Hstr.
  destruct v as [|b|n|f|s|li|d|d];
    try (rewrite pages_normalization;
         [now eexists; eexists|exact Hfinite|apply Hstr; discriminate]).
  now eexists; eexists.
Qed.

Lemma handle_price_field_returns (v : value) :
  (forall n, v = VInt n -> Num.float_of_int n <> None) ->
  ((forall n, v <> VInt n) -> str_raises v = false) ->
  exists l a, handle_price_field v = (l, inr a).
Proof.
  intros Hn Hstr. unfold handle_price_field, py_str.
  destruct v as [|b|n|f|s|li|d|d];
    try (rewrite Hstr by discriminate);
    try (eexists; eexists; reflexivity).
  - cbn [is_None eq_empty_str orb py_float].
    specialize (Hn n eq_refl).
    destruct (Num.float_of_int n); [|congruence].
    eexists; eexists; reflexivity.
  - destruct s as [|c s]; [eexists; eexists; reflexivity|].
    cbn [is_None eq_empty_str orb py_float].
    destruct (Num.float_of_str (String c s));
      eexists; eexists; reflexivity.
Qed.

Lemma handle_publication_date_field_returns (v : value) :
  str_raises v = false ->
  exists l a, handle_publication_date_field v = (l, inr a).
Proof.
  intros Hv. rewrite handle_publication_date_field_value, Hv.
  now eexists; eexists.
Qed.

Lemma construction_succeeds (R : pydict) :
  string_value (name_source R) <> None ->
  (forall s, Dict.get "pages" R <> Some (VFloat (S754_infinity s))) ->
  (forall n, Dict.get "price" R = Some (VInt n) ->
             Num.float_of_int n <> None) ->
  str_raises (name_source R) = false ->
  (forall k v, In k stringified_fields -> Dict.get k R = Some v ->
               str_raises v = false) ->
  (forall k v, In k numeric_fields -> Dict.get k R = Some v ->
               (forall n, v <> VInt n) -> str_raises v = false) ->
  exists l b, Book_validate (VDict R) = (l, Valid b).
Proof.
  intros Hname Hpages Hprice Hsource Hstr Hnum.
  destruct (extract_metadata_dict R) as (P & HP & Hraw & HnameP & Hother).
  assert (Hfield : forall k, In k stringified_fields ->
             forall v, Dict.get k P = Some v -> str_raises v = false).
  { intros k Hk v Hv. apply (Hstr k v Hk). rewrite <- Hother; [exact Hv| |];
      intros ->; cbn [stringified_fields In] in Hk;
      intuition discriminate. }
  assert (Hv : is_valid (Book_fields P)).
  { unfold Book_fields.
    repeat apply ap_is_valid;
      try (apply field_validated_is_valid; intros v Hv;
           first [apply handle_string_fields_total
                 |apply handle_authors_field_total
                 |apply handle_publication_date_field_returns];
           refine (Hfield _ _ v Hv);
           cbn [stringified_fields In]; tauto).
    - now exists [], mkBook.
    - unfold field. rewrite HnameP. unfold validated.
      rewrite handle_string_fields_value, Hsource.
      destruct (string_value (name_source R)) as [n|];
        [|congruence].
      now exists [], n.
    - apply field_validated_is_valid. intros v Hv.
      rewrite Hother in Hv by discriminate.
      apply handle_pages_field_returns.
      + intros s ->. exact (Hpages s Hv).
      + apply (Hnum "pages" v); [cbn; tauto|exact Hv].
    - apply field_validated_is_valid. intros v Hv.
      rewrite Hother in Hv by discriminate.
      apply handle_price_field_returns.
      + intros n ->. now apply Hprice.
      + apply (Hnum "price" v); [cbn; tauto|exact Hv].
    - unfold field. rewrite Hraw. now exists [], (overflow_of R). }
  destruct Hv as (l & b & Hv). exists l, b.
  unfold Book_validate, Book_validator. rewrite HP, Hv. reflexivity.
Qed.

(** ** Authors *)

Lemma strip_is_trimmed (s : string) :
  Str.nonempty (Str.strip s) = true -> is_trimmed (Str.strip s) = true.
Proof.
  intros H. unfold is_trimmed. rewrite H.
  destruct (strip_normal s) as [-> ->]. reflexivity.
Qed.

Lemma is_trimmed_strip (s : string) :
  is_trimmed s = true -> Str.strip s = s /\ Str.nonempty s = true.
Proof.
  unfold is_trimmed. intros H.
  apply andb_prop in H as [H Ht]. apply andb_prop in H as [Hn Hl].
  split; [now apply strip_fixed|exact Hn].
Qed.

Lemma Forall_map_filter {A : Type} (f : A -> string) (l : list A) :
  Forall (fun a => is_trimmed a = true)
    (map (fun x => Str.strip (f x))
       (filter (fun x => Str.nonempty (Str.strip (f x))) l)).
Proof.
  induction l as [|x l IH]; cbn [filter map]; [constructor|].
  destruct (Str.nonempty (Str.strip (f x))) eqn:E; [|exact IH].
  cbn [map]. constructor; [now apply strip_is_trimmed|exact IH].
Qed.

Lemma authors_value_trimmed (v : value) :
  Forall (fun a => is_trimmed a = true) (authors_value v).
Proof.
  destruct v as [|b|n|f|s|l|d|d]; cbn [authors_value];
    try constructor;
    try (apply (Forall_map_filter (fun x => x)));
    try (apply (Forall_map_filter str_text));
    match goal with
    | |- Forall _ (if ?c then _ else _) =>
        destruct c eqn:E; constructor;
        [now apply strip_is_trimmed|constructor]
    end.
Qed.

(** X1: whatever the input, when [handle_authors_field] returns it has
    logged nothing, no author is empty and no author has whitespace at
    either end; [None] gives no author at all. *)
Theorem authors_are_trimmed (v : value) (l : list log_record)
    (authors : list string) (a : string) :
  handle_authors_field v = (l, inr authors) ->
  In a authors ->
  a <> EmptyString
  /\ no_leading_whitespace a = true
  /\ no_trailing_whitespace a = true
  /\ v <> VNone
  /\ l = [].
Proof.
  intros Hv Hin.
  apply handle_authors_field_returns in Hv as (-> & -> & _).
  pose proof (authors_value_trimmed v) as H.
  rewrite Forall_forall in H. specialize (H a Hin).
  unfold is_trimmed in H.
  apply andb_prop in H as [H Ht]. apply andb_prop in H as [Hn Hl].
  apply nonempty_true in Hn. repeat split; try assumption.
  intros ->. exact Hin.
Qed.

Lemma authors_are_trimmed_witness :
  "Anna" <> EmptyString
  /\ no_leading_whitespace "Anna" = true
  /\ no_trailing_whitespace "Anna" = true
  /\ VList [VStr "  Anna  "; VStr ""] <> VNone
  /\ @nil log_record = [].
Proof.
  apply (authors_are_trimmed (VList [VStr "  Anna  "; VStr ""]) []
           ["Anna"] "Anna").
  - vm_compute. reflexivity.
  - now left.
Defined.

Lemma authors_value_of_trimmed (authors : list string) :
  Forall (fun a => is_trimmed a = true) authors ->
  authors_value (VList (map VStr authors)) = authors.
Proof.
  intros H. cbn [authors_value].
  induction H as [|a authors Ha _ IH]; [reflexivity|].
  cbn [map filter str_text].
  destruct (is_trimmed_strip a Ha) as [Hs Hn]. rewrite Hs, Hn.
  cbn [map str_text]. rewrite Hs. f_equal. exact IH.
Qed.

(** X2: validating again the authors that [handle_authors_field]
    returned changes nothing. *)
Theorem authors_idempotent (v : value) (l : list log_record)
    (authors : list string) :
  handle_authors_field v = (l, inr authors) ->
  handle_authors_field (VList (map VStr authors)) = ret authors.
Proof.
  intros Hv. apply handle_authors_field_returns in Hv as (_ & -> & _).
  rewrite handle_authors_field_value, str_raises_strings.
  rewrite authors_value_of_trimmed by apply authors_value_trimmed.
  reflexivity.
Qed.

Lemma authors_idempotent_witness :
  handle_authors_field (VList (map VStr ["Anna"; "Bob"]))
  = ret ["Anna"; "Bob"].
Proof.
  apply (authors_idempotent (VStr " Anna ;Bob,") []).
  vm_compute. reflexivity.
Defined.

Lemma forallb_lstrip (q p : ascii -> bool) (s : string) :
  Str.forallb q s = true -> Str.forallb q (Str.lstrip_with p s) = true.
Proof.
  induction s as [|c s IH]; [reflexivity|]. cbn [Str.lstrip_with].
  intros H. destruct (p c); [|exact H].
  cbn [Str.forallb] in H. apply andb_prop in H as [_ H]. now apply IH.
Qed.

Lemma forallb_rstrip (q p : ascii -> bool) (s : string) :
  Str.forallb q s = true -> Str.forallb q (Str.rstrip_with p s) = true.
Proof.
  induction s as [|c s IH]; [reflexivity|].
  cbn [Str.rstrip_with Str.forallb]. intros H.
  apply andb_prop in H as [Hc Hs]. specialize (IH Hs).
  destruct (Str.rstrip_with p s).
  - destruct (p c); [reflexivity|]. cbn [Str.forallb]. now rewrite Hc.
  - cbn [Str.forallb] in *. now rewrite Hc.
Qed.

Lemma split_pieces_no_separator (s : string) :
  Forall (fun p => no_separator p = true) (Str.re_split_separators s).
Proof.
  unfold no_separator.
  induction s as [|c s IH]; cbn [Str.re_split_separators].
  - repeat constructor.
  - destruct (Str.is_separator c) eqn:Ec.
    + constructor; [reflexivity|exact IH].
    + destruct (Str.re_split_separators s) as [|p ps].
      * constructor; [|constructor]. cbn [Str.forallb]. now rewrite Ec.
      * inversion IH as [|? ? Hp Hps]; subst. constructor; [|exact Hps].
        cbn [Str.forallb]. now rewrite Ec.
Qed.

(** X3: an author that [handle_authors_field] takes from a string
    holds no comma and no semicolon. *)
Theorem authors_of_string_have_no_separator (s a : string)
    (l : list log_record) (authors : list string) :
  handle_authors_field (VStr s) = (l, inr authors) ->
  In a authors -> no_separator a = true.
Proof.
  intros Hv. apply handle_authors_field_returns in Hv as (_ & -> & _).
  cbn [authors_value]. rewrite in_map_iff.
  intros (p & <- & Hp). apply filter_In in Hp as [Hp _].
  pose proof (split_pieces_no_separator s) as H.
  rewrite Forall_forall in H. specialize (H p Hp).
  unfold no_separator, Str.strip, Str.strip_with in *.
  now apply forallb_rstrip, forallb_lstrip.
Qed.

Lemma authors_of_string_have_no_separator_witness :
  no_separator "B" = true.
Proof.
  apply (authors_of_string_have_no_separator "A, B; C" "B" []
           ["A"; "B"; "C"]).
  - vm_compute. reflexivity.
  - right. now left.
Defined.

Lemma split_no_separator (a : string) :
  no_separator a = true -> Str.re_split_separators a = [a].
Proof.
  unfold no_separator. induction a as [|c a IH]; [reflexivity|].
  cbn [Str.forallb Str.re_split_separators]. intros H.
  apply andb_prop in H as [Hc Ha]. apply negb_true_iff in Hc.
  rewrite Hc, (IH Ha). reflexivity.
Qed.

Lemma split_app_separator (a rest : string) (c : ascii) :
  no_separator a = true -> Str.is_separator c = true ->
  Str.re_split_separators (a ++ String c rest)
  = a :: Str.re_split_separators rest.
Proof.
  unfold no_separator. intros Ha Hc.
  induction a as [|x a IH]; cbn [String.append Str.re_split_separators].
  - now rewrite Hc.
  - cbn [Str.forallb] in Ha. apply andb_prop in Ha as [Hx Ha].
    apply negb_true_iff in Hx. rewrite Hx, (IH Ha). reflexivity.
Qed.

Lemma split_join (a : string) (authors : list string) :
  Forall (fun a => no_separator a = true) (a :: authors) ->
  Str.re_split_separators (Str.join ", " (a :: authors))
  = a :: map (fun b => String " " b) authors.
Proof.
  revert a. induction authors as [|b authors IH]; intros a H.
  - inversion H; subst. now apply split_no_separator.
  - inversion H as [|? ? Ha Hrest]; subst.
    unfold Str.join in *.
    change (String.concat ", " (a :: b :: authors))
      with (a ++ String "," (String " " (String.concat ", " (b :: authors)))
           )%string.
    rewrite split_app_separator by (assumption || reflexivity).
    f_equal. cbn [Str.re_split_separators].
    change (Str.is_separator " ") with false. cbv iota.
    rewrite (IH b Hrest). reflexivity.
Qed.

(** X4: the authors of a book, written as one string with [", "]
    between them, are read back as they were, provided none of them
    holds a comma or a semicolon. *)
Theorem authors_join_round_trip (authors : list string) :
  Forall (fun a => is_trimmed a = true) authors ->
  Forall (fun a => no_separator a = true) authors ->
  handle_authors_field (VStr (Str.join ", " authors)) = ret authors.
Proof.
  intros Ht Hs. cbn [handle_authors_field]. f_equal. f_equal.
  destruct authors as [|a authors]; [reflexivity|].
  rewrite split_join by exact Hs.
  inversion Ht as [|? ? Ha Ht']; subst. clear Ht Hs.
  cbn [filter]. destruct (is_trimmed_strip a Ha) as [Hsa Hna].
  rewrite Hsa, Hna. cbn [map]. rewrite Hsa. f_equal.
  induction Ht' as [|b authors Hb _ IH]; [reflexivity|].
  destruct (is_trimmed_strip b Hb) as [Hsb Hnb].
  assert (E : Str.strip (String " " b) = b) by exact Hsb.
  cbn [map filter]. rewrite E, Hnb. cbn [map]. rewrite E. f_equal. exact IH.
Qed.

Lemma authors_join_round_trip_witness :
  handle_authors_field (VStr (Str.join ", " ["J.R.R. Tolkien"; "Anna"]))
  = ret ["J.R.R. Tolkien"; "Anna"].
Proof.
  apply authors_join_round_trip; repeat constructor.
Defined.

(** ** Price and pages *)

Lemma handle_price_field_cases (v : value) :
  handle_price_field v
  = if is_None v || eq_empty_str v then ([], inr None)
    else
      match py_float v with
      | inr f => ([], inr (if Num.float_nonneg f then Some f else None))
      | inl e =>
          if ValueError_or_TypeError e
          then
            if str_raises v then ([], inl digit_limit_error)
            else ([mklog WARNING
                     ("Cannot parse price value: " ++ str_text v
                      ++ ". Setting to None.")], inr None)
          else ([], inl e)
      end.
Proof.
  unfold handle_price_field, py_str.
  destruct (is_None v || eq_empty_str v); [reflexivity|].
  destruct (py_float v) as [[]|f]; try reflexivity;
    cbn [lift bind try_except ValueError_or_TypeError];
    destruct (str_raises v); reflexivity.
Qed.

Lemma handle_pages_field_cases (v : value) :
  handle_pages_field v
  = if is_None v || eq_empty_str v then ([], inr None)
    else
      match py_int v with
      | inr n => ([], inr (if 0 <? n then Some n else None))
      | inl e =>
          if ValueError_or_TypeError e
          then
            if str_raises v then ([], inl digit_limit_error)
            else ([mklog WARNING
                     ("Cannot parse pages value: " ++ str_text v
                      ++ ". Setting to None.")], inr None)
          else ([], inl e)
      end.
Proof.
  unfold handle_pages_field, py_str.
  destruct (is_None v || eq_empty_str v); [reflexivity|].
  destruct (py_int v) as [[]|n]; try reflexivity;
    cbn [lift bind try_except ValueError_or_TypeError];
    destruct (str_raises v); reflexivity.
Qed.

Lemma float_nonneg_not_nan (f : Num.float) :
  Num.float_nonneg f = true -> f <> S754_nan.
Proof. intros H ->. discriminate. Qed.

(** X5: a price that is kept is the float of the input, it is not
    negative and not NaN, and nothing was logged for it. *)
Theorem kept_price_is_not_negative (v : value) (l : list log_record)
    (p : Num.float) :
  handle_price_field v = (l, inr (Some p)) ->
  py_float v = inr p /\ Num.float_nonneg p = true /\ p <> S754_nan
  /\ l = [].
Proof.
  rewrite handle_price_field_cases.
  destruct (is_None v || eq_empty_str v); [discriminate|].
  destruct (py_float v) as [e|f].
  - destruct (ValueError_or_TypeError e); [|discriminate].
    destruct (str_raises v); discriminate.
  - destruct (Num.float_nonneg f) eqn:E; [|discriminate].
    intros H. injection H as <- <-.
    repeat split; try assumption. now apply float_nonneg_not_nan.
Qed.

Lemma kept_price_is_not_negative_witness :
  py_float (VStr "4.5") = inr (S754_finite false 5066549580791808 (-50))
  /\ Num.float_nonneg (S754_finite false 5066549580791808 (-50)) = true
  /\ S754_finite false 5066549580791808 (-50) <> S754_nan
  /\ @nil log_record = [].
Proof.
  apply (kept_price_is_not_negative (VStr "4.5")). vm_compute. reflexivity.
Defined.




(** X7: in a book that was built, the pages are positive and the price
    is not negative and not NaN. *)
Theorem Book_numbers_in_range (data : value) (l : list log_record)
    (b : Book) :
  Book_validate data = (l, Valid b) ->
  (forall n, pages b = Some n -> 0 < n)
  /\ (forall p, price b = Some p ->
                Num.float_nonneg p = true /\ p <> S754_nan).
Proof.
  intros H.
  apply Book_validate_valid_inv in H
    as (R & _ & _ & _ & _ & _ & _ & _ & Hpages & Hprice & _).
  unfold field_returns in *. split.
  - intros n Hn. rewrite Hn in Hpages.
    destruct (Dict.get "pages" R) as [v|]; [|discriminate].
    destruct Hpages as (l' & Hv). rewrite handle_pages_field_cases in Hv.
    destruct (is_None v || eq_empty_str v); [discriminate|].
    destruct (py_int v) as [e|k].
    + destruct (ValueError_or_TypeError e); [|discriminate].
      destruct (str_raises v); discriminate.
    + destruct (0 <? k) eqn:E; [|discriminate].
      injection Hv as _ <-. now apply Z.ltb_lt.
  - intros p Hp. rewrite Hp in Hprice.
    destruct (Dict.get "price" R) as [v|]; [|discriminate].
    destruct Hprice as (l' & Hv). rewrite handle_price_field_cases in Hv.
    destruct (is_None v || eq_empty_str v); [discriminate|].
    destruct (py_float v) as [e|f].
    + destruct (ValueError_or_TypeError e); [|discriminate].
      destruct (str_raises v); discriminate.
    + destruct (Num.float_nonneg f) eqn:E; [|discriminate].
      injection Hv as _ <-. split; [exact E|now apply float_nonneg_not_nan].
Qed.

Lemma Book_numbers_in_range_witness :
  (forall n, pages hobbit = Some n -> 0 < n)
  /\ (forall p, price hobbit = Some p ->
                Num.float_nonneg p = true /\ p <> S754_nan).
Proof.
  exact (Book_numbers_in_range (VDict hobbit_record) [] hobbit
           hobbit_validates).
Defined.

(** ** The string fields of a book *)

Lemma string_value_trimmed (v : value) (s : string) :
  string_value v = Some s -> is_trimmed s = true.
Proof.
  intros H. unfold is_trimmed.
  assert (Hs : s <> EmptyString /\ no_leading_whitespace s = true
               /\ no_trailing_whitespace s = true).
  { destruct v as [|b|n|f|t|l|d|d];
      match type of H with
      | string_value (VStr _) = _ =>
          apply string_value_str_normal in H
            as (_ & H1 & H2 & H3 & _)
      | string_value ?w = _ =>
          assert (Hd : forall t, w <> VStr t) by discriminate;
          destruct (string_value_other_normal w s Hd H)
            as (H1 & H2 & H3 & _)
      end; now repeat split. }
  destruct Hs as (H1 & -> & ->). apply nonempty_true in H1. now rewrite H1.
Qed.

Lemma field_of_string_trimmed (nm : string) (R : pydict) (s : string) :
  field_of nm None string_value R = Some s -> is_trimmed s = true.
Proof.
  unfold field_of. destruct (Dict.get nm R) as [v|]; [|discriminate].
  apply string_value_trimmed.
Qed.

(** X8: in a book that was built, a string field is null or a string
    that is not empty and has no whitespace at either end, and so is
    every author. *)
Theorem Book_strings_are_trimmed (data : value) (l : list log_record)
    (b : Book) :
  Book_validate data = (l, Valid b) ->
  (forall s, In (Some s) (optional_strings b) -> is_trimmed s = true)
  /\ is_trimmed (name b) = true
  /\ Forall (fun a => is_trimmed a = true) (authors b).
Proof.
  intros H.
  apply Book_validate_valid_inv in H
    as (R & _ & Hname & _ & Ht & Ha & Hi & _ & _ & _ & H1 & H2 & H3 & H4
        & H5 & H6 & H7).
  split; [|split].
  - unfold optional_strings. intros s Hin. cbn [In] in Hin.
    repeat destruct Hin as [Hin|Hin];
      try contradiction;
      match goal with
      | Hf : ?f b = field_of _ _ _ _, Hin : ?f b = Some _ |- _ =>
          rewrite Hf in Hin; exact (field_of_string_trimmed _ _ _ Hin)
      end.
  - exact (string_value_trimmed _ _ Hname).
  - rewrite Ha. unfold field_of.
    destruct (Dict.get "authors" R); [|constructor].
    apply authors_value_trimmed.
Qed.

Lemma Book_strings_are_trimmed_witness :
  (forall s, In (Some s) (optional_strings hobbit) -> is_trimmed s = true)
  /\ is_trimmed (name hobbit) = true
  /\ Forall (fun a => is_trimmed a = true) (authors hobbit).
Proof.
  exact (Book_strings_are_trimmed (VDict hobbit_record) [] hobbit
           hobbit_validates).
Defined.

(** ** Publication dates *)

Lemma handle_publication_date_field_string (c : ascii) (s : string) :
  handle_publication_date_field (VStr (String c s))
  = match first_parse (Str.strip (String c s)) with
    | Some d => ([], inr (Some (a_date d)))
    | None =>
        ([mklog WARNING
            ("Cannot parse date format: " ++ Str.strip (String c s)
             ++ ". Storing as string.")],
         inr (Some (a_str (Str.strip (String c s)))))
    end.
Proof.
  unfold handle_publication_date_field, first_parse, date_formats.
  cbn [is_None eq_empty_str orb Date.first_success].
  set (t := Str.strip (String c s)).
  pose proof (py_strptime_cases t Date.fmt_Y_m_d_dash) as H1.
  pose proof (py_strptime_cases t Date.fmt_Y_m_d_slash) as H2.
  pose proof (py_strptime_cases t Date.fmt_m_d_Y_slash) as H3.
  destruct (Date.strptime t Date.fmt_Y_m_d_dash);
    [destruct H1 as (m1 & ->)|now rewrite H1].
  destruct (Date.strptime t Date.fmt_Y_m_d_slash);
    [destruct H2 as (m2 & ->)|now rewrite H2].
  destruct (Date.strptime t Date.fmt_m_d_Y_slash);
    [destruct H3 as (m3 & ->)|now rewrite H3].
  reflexivity.
Qed.

Lemma strptime_valid (s : string) (fmt : list Date.item) (d : Date.date) :
  Date.strptime s fmt = inr d -> valid_date d.
Proof.
  unfold Date.strptime, valid_date.
  destruct (Date.match_format fmt s Date.no_groups) as [[g [|c r]]|];
    try discriminate.
  destruct (Date.make_date (Date.g_Y g) (Date.g_m g) (Date.g_d g))
    as [d'|] eqn:E; [|discriminate].
  intros H. injection H as <-.
  unfold Date.make_date in E |- *.
  destruct (_ && _) eqn:Hrange; [|discriminate]. injection E as <-.
  cbn [Date.year Date.month Date.day]. now rewrite Hrange.
Qed.

Lemma first_parse_valid (s : string) (d : Date.date) :
  first_parse s = Some d -> valid_date d.
Proof.
  unfold first_parse, date_formats. cbn [Date.first_success].
  destruct (Date.strptime s Date.fmt_Y_m_d_dash) as [e1|d1] eqn:E1.
  - destruct (Date.strptime s Date.fmt_Y_m_d_slash) as [e2|d2] eqn:E2.
    + destruct (Date.strptime s Date.fmt_m_d_Y_slash) as [e3|d3] eqn:E3;
        [discriminate|].
      intros H. injection H as <-. exact (strptime_valid _ _ _ E3).
    + intros H. injection H as <-. exact (strptime_valid _ _ _ E2).
  - intros H. injection H as <-. exact (strptime_valid _ _ _ E1).
Qed.

(** X9: a date that comes out of a string is a date of the calendar
    (month 1 to 12, a day the month has, year 1 to 9999), and no warning
    is logged for it. *)
Theorem parsed_date_is_valid (s : string) (l : list log_record)
    (d : Date.date) :
  handle_publication_date_field (VStr s) = (l, inr (Some (a_date d))) ->
  valid_date d /\ first_parse (Str.strip s) = Some d /\ l = [].
Proof.
  destruct s as [|c s]; [discriminate|].
  rewrite handle_publication_date_field_string.
  destruct (first_parse (Str.strip (String c s))) as [d'|] eqn:E;
    [|discriminate].
  intros H. injection H as <- <-.
  split; [exact (first_parse_valid _ _ E)|]. now split.
Qed.

Lemma parsed_date_is_valid_witness :
  valid_date (Date.mkdate 2020 2 29)
  /\ first_parse (Str.strip " 2/29/2020 ") = Some (Date.mkdate 2020 2 29)
  /\ @nil log_record = [].
Proof.
  apply (parsed_date_is_valid " 2/29/2020 "). vm_compute. reflexivity.
Defined.

(** X10: a string of whitespace only, if it is not empty, is not turned
    into null as it is in the other fields: the field holds the empty
    string and a warning is logged. *)
Theorem blank_date_is_kept_as_empty_string (s : string) :
  s <> EmptyString -> Str.strip s = EmptyString ->
  handle_publication_date_field (VStr s)
  = ([mklog WARNING "Cannot parse date format: . Storing as string."],
     inr (Some (a_str ""))).
Proof.
  intros Hne Hblank. destruct s as [|c s]; [congruence|].
  rewrite handle_publication_date_field_string, Hblank. reflexivity.
Qed.

Lemma blank_date_is_kept_as_empty_string_witness :
  handle_publication_date_field (VStr "  ")
  = ([mklog WARNING "Cannot parse date format: . Storing as string."],
     inr (Some (a_str ""))).
Proof.
  apply blank_date_is_kept_as_empty_string; [discriminate|reflexivity].
Defined.

(** The written form of a valid date, piece by piece. *)

Lemma four_digit_years :
  forallb four_digit_year (map Z.of_nat (seq 1 (Z.to_nat 9999))) = true.
Proof. vm_compute. reflexivity. Qed.

Lemma four_digit_year_in_range (y : Z) :
  1 <= y <= 9999 -> four_digit_year y = true.
Proof.
  intros Hy. pose proof four_digit_years as H.
  rewrite forallb_forall in H. apply H.
  rewrite in_map_iff. exists (Z.to_nat y). split; [lia|].
  apply in_seq. split; lia.
Qed.

Lemma month_and_day_match (m d : Z) (g : Date.groups) :
  1 <= m <= 12 -> 1 <= d <= 31 ->
  Date.match_format
    [Date.Lit "-"; Date.Dir Date.dir_m; Date.Lit "-"; Date.Dir Date.dir_d]
    ("-" ++ Date.zero_pad 2 (Num.str_of_int m) ++ "-"
     ++ Date.zero_pad 2 (Num.str_of_int d))
    g
  = Some (Date.mkgroups (Date.g_Y g) m d, EmptyString).
Proof.
  intros Hm Hd.
  assert (Em : m = 1 \/ m = 2 \/ m = 3 \/ m = 4 \/ m = 5 \/ m = 6 \/ m = 7
               \/ m = 8 \/ m = 9 \/ m = 10 \/ m = 11 \/ m = 12) by lia.
  assert (Ed : d = 1 \/ d = 2 \/ d = 3 \/ d = 4 \/ d = 5 \/ d = 6 \/ d = 7
               \/ d = 8 \/ d = 9 \/ d = 10 \/ d = 11 \/ d = 12 \/ d = 13
               \/ d = 14 \/ d = 15 \/ d = 16 \/ d = 17 \/ d = 18 \/ d = 19
               \/ d = 20 \/ d = 21 \/ d = 22 \/ d = 23 \/ d = 24 \/ d = 25
               \/ d = 26 \/ d = 27 \/ d = 28 \/ d = 29 \/ d = 30 \/ d = 31)
    by lia.
  clear Hm Hd.
  repeat destruct Em as [Em|Em]; subst m;
    repeat destruct Ed as [Ed|Ed]; subst d; reflexivity.
Qed.

Lemma days_in_month_le_31 (y m : Z) : Date.days_in_month y m <= 31.
Proof.
  unfold Date.days_in_month.
  destruct (m =? 2); [destruct (Date.is_leap y); lia|].
  destruct (_ || _); lia.
Qed.

Lemma match_format_year (a b c e : ascii) (rest : string)
    (fmt : list Date.item) (g : Date.groups) :
  Date.digit a = true -> Date.digit b = true ->
  Date.digit c = true -> Date.digit e = true ->
  Date.match_format (Date.Dir Date.dir_Y :: fmt)
    (String a (String b (String c (String e rest)))) g
  = Date.match_format fmt rest
      (Date.set_group Date.dir_Y
         (String a (String b (String c (String e EmptyString)))) g).
Proof.
  intros Ha Hb Hc He.
  cbn [Date.match_format Date.alternatives Date.first_success
       Date.match_classes].
  rewrite Ha, Hb, Hc, He.
  now destruct (Date.match_format fmt rest _).
Qed.

Lemma strptime_isoformat (d : Date.date) :
  valid_date d -> Date.strptime (Date.isoformat d) Date.fmt_Y_m_d_dash = inr d.
Proof.
  destruct d as [y m dd]. unfold valid_date.
  cbn [Date.year Date.month Date.day]. intros Hvalid.
  assert (Hrange : 1 <= y <= 9999 /\ 1 <= m <= 12 /\ 1 <= dd <= 31).
  { unfold Date.make_date in Hvalid.
    destruct (_ && _) eqn:E; [|discriminate].
    repeat (apply andb_prop in E as [E ?]).
    pose proof (days_in_month_le_31 y m). lia. }
  destruct Hrange as (Hy & Hm & Hd).
  pose proof (four_digit_year_in_range y Hy) as Hyear.
  unfold four_digit_year in Hyear.
  unfold Date.isoformat. cbn [Date.year Date.month Date.day].
  destruct (Date.zero_pad 4 (Num.str_of_int y))
    as [|a [|b [|c [|e [|? ?]]]]] eqn:Ey; try discriminate.
  apply andb_prop in Hyear as [Hyear Hn].
  apply andb_prop in Hyear as [Hyear He].
  apply andb_prop in Hyear as [Hyear Hc].
  apply andb_prop in Hyear as [Ha Hb].
  destruct (Num.int_of_str (String a (String b (String c (String e "")))))
    as [n|] eqn:En; [|discriminate].
  apply Z.eqb_eq in Hn. subst n.
  unfold Date.strptime, Date.fmt_Y_m_d_dash.
  cbn [String.append].
  rewrite match_format_year by assumption.
  unfold Date.set_group at 1. rewrite En.
  pose proof (month_and_day_match m dd
                (Date.mkgroups y (Date.g_m Date.no_groups)
                   (Date.g_d Date.no_groups)) Hm Hd) as Htail.
  cbn [String.append] in Htail. rewrite Htail.
  cbn [Date.g_Y Date.g_m Date.g_d]. now rewrite Hvalid.
Qed.

Lemma handle_publication_date_field_isoformat (d : Date.date) :
  valid_date d ->
  handle_publication_date_field (VStr (Date.isoformat d))
  = ([], inr (Some (a_date d))).
Proof.
  intros Hvalid.
  destruct (isoformat_no_whitespace d) as [Hws Hne].
  destruct (no_whitespace_ends _ Hws) as [Hl Ht].
  pose proof (strip_fixed _ Hl Ht) as Hstrip.
  pose proof (strptime_isoformat d Hvalid) as Hparse.
  destruct (Date.isoformat d) as [|c s] eqn:E; [congruence|].
  rewrite handle_publication_date_field_string, Hstrip.
  unfold first_parse, date_formats. cbn [Date.first_success].
  now rewrite Hparse.
Qed.

(** X11: the string that [get_all_metadata] writes for a date is read
    back as the same date, without a warning. *)
Theorem isoformat_round_trip (d : Date.date) :
  valid_date d ->
  handle_publication_date_field (VStr (str_of_date_or_str (a_date d)))
  = ([], inr (Some (a_date d))).
Proof.
  intros Hvalid. cbn [str_of_date_or_str].
  now apply handle_publication_date_field_isoformat.
Qed.

Lemma isoformat_round_trip_witness :
  handle_publication_date_field
    (VStr (str_of_date_or_str (a_date (Date.mkdate 2020 2 29))))
  = ([], inr (Some (a_date (Date.mkdate 2020 2 29)))).
Proof. apply isoformat_round_trip. reflexivity. Defined.

(** The three formats exclude one another. *)

Lemma first_success_Some {A B : Type} (k : A -> option B) (l : list A)
    (b : B) :
  Date.first_success k l = Some b -> exists a, In a l /\ k a = Some b.
Proof.
  induction l as [|a l IH]; cbn [Date.first_success]; [discriminate|].
  destruct (k a) as [b'|] eqn:E.
  - intros H. injection H as <-. exists a. split; [now left|exact E].
  - intros H. destruct (IH H) as (a' & Hin & Ha'). exists a'.
    split; [now right|exact Ha'].
Qed.

Lemma match_classes_Some (cs : list Date.char_class) (s txt rest : string) :
  Date.match_classes cs s = Some (txt, rest) ->
  s = (txt ++ rest)%string
  /\ Forall2 (fun p c => p c = true) cs (list_ascii_of_string txt).
Proof.
  revert s txt rest. induction cs as [|p cs IH]; intros s txt rest;
    cbn [Date.match_classes].
  - intros H. injection H as <- <-. split; [reflexivity|constructor].
  - destruct s as [|c s]; [discriminate|].
    destruct (p c) eqn:Ep; [|discriminate].
    destruct (Date.match_classes cs s) as [[txt' rest']|] eqn:E;
      [|discriminate].
    intros H. injection H as <- <-.
    destruct (IH _ _ _ E) as [-> Hall].
    split; [reflexivity|]. cbn [list_ascii_of_string]. now constructor.
Qed.

(** A match of a format that begins with the year and a separator. *)
Lemma year_first_shape (sep : ascii) (fmt : list Date.item) (s : string)
    (g : Date.groups) r :
  Date.match_format (Date.Dir Date.dir_Y :: Date.Lit sep :: fmt) s g
  = Some r ->
  exists a b c e rest,
    s = String a (String b (String c (String e (String sep rest))))
    /\ Date.digit b = true /\ Date.digit c = true.
Proof.
  cbn [Date.match_format Date.alternatives Date.first_success].
  destruct (Date.match_classes _ s) as [[txt rest]|] eqn:E.
  2:{ discriminate. }
  apply match_classes_Some in E as [-> Hall].
  destruct rest as [|x rest]; [discriminate|].
  destruct (Ascii.eqb sep x) eqn:Ex; [|discriminate].
  apply Ascii.eqb_eq in Ex. subst x. intros _.
  destruct txt as [|a [|b [|c [|e [|? ?]]]]];
    cbn [list_ascii_of_string] in Hall;
    repeat match goal with
           | H : Forall2 _ _ _ |- _ => inversion H; subst; clear H
           end.
  exists a, b, c, e, rest. repeat split; assumption.
Qed.

(** A match of a format that begins with the month and a slash. *)
Lemma month_first_shape (fmt : list Date.item) (s : string)
    (g : Date.groups) r :
  Date.match_format (Date.Dir Date.dir_m :: Date.Lit "/" :: fmt) s g
  = Some r ->
  (exists a rest, s = String a (String "/" rest))
  \/ (exists a b rest, s = String a (String b (String "/" rest))).
Proof.
  cbn [Date.match_format]. intros H.
  apply first_success_Some in H as (cs & Hin & H).
  destruct (Date.match_classes cs s) as [[txt rest]|] eqn:E;
    [|discriminate].
  apply match_classes_Some in E as [-> Hall].
  destruct rest as [|x rest]; [discriminate|].
  destruct (Ascii.eqb "/" x) eqn:Ex; [|discriminate].
  apply Ascii.eqb_eq in Ex. subst x. clear H.
  cbn [Date.alternatives In] in Hin.
  destruct Hin as [<-|[<-|[<-|[]]]];
    destruct txt as [|a [|b [|? ?]]];
    cbn [list_ascii_of_string] in Hall;
    repeat match goal with
           | H : Forall2 _ _ _ |- _ => inversion H; subst; clear H
           end;
    cbn [String.append]; eauto.
Qed.

Lemma strptime_matches (s : string) (fmt : list Date.item) (d : Date.date) :
  Date.strptime s fmt = inr d ->
  exists r, Date.match_format fmt s Date.no_groups = Some r.
Proof.
  unfold Date.strptime.
  destruct (Date.match_format fmt s Date.no_groups); [eauto|discriminate].
Qed.

Lemma formats_exclude (s : string) :
  (forall d, Date.strptime s Date.fmt_Y_m_d_dash = inr d ->
     (forall d', Date.strptime s Date.fmt_Y_m_d_slash <> inr d')
     /\ (forall d', Date.strptime s Date.fmt_m_d_Y_slash <> inr d'))
  /\ (forall d, Date.strptime s Date.fmt_Y_m_d_slash = inr d ->
        forall d', Date.strptime s Date.fmt_m_d_Y_slash <> inr d').
Proof.
  assert (Hym : forall sep fmt r r',
             Date.match_format
               (Date.Dir Date.dir_Y :: Date.Lit sep :: fmt) s Date.no_groups
             = Some r ->
             Date.match_format Date.fmt_m_d_Y_slash s Date.no_groups
             = Some r' -> False).
  { intros sep fmt r r' Hy Hm.
    apply year_first_shape in Hy as (a & b & c & e & rest & -> & Hb & Hc).
    apply month_first_shape in Hm
      as [(a' & rest' & E)|(a' & b' & rest' & E)];
      injection E as _ E; subst; discriminate. }
  split.
  - intros d H1. apply strptime_matches in H1 as (r1 & H1). split.
    + intros d' H2. apply strptime_matches in H2 as (r2 & H2).
      apply year_first_shape in H1 as (a & b & c & e & rest & -> & _).
      apply year_first_shape in H2 as (? & ? & ? & ? & ? & E & _).
      discriminate.
    + intros d' H3. apply strptime_matches in H3 as (r3 & H3).
      exact (Hym _ _ _ _ H1 H3).
  - intros d H2 d' H3.
    apply strptime_matches in H2 as (r2 & H2).
    apply strptime_matches in H3 as (r3 & H3).
    exact (Hym _ _ _ _ H2 H3).
Qed.

(** X12: a string gives a date exactly when one of the three formats
    reads it as that date; no string is read by two formats, so the
    order in which they are tried does not change the result. *)
Theorem date_formats_are_unambiguous (s : string) (d : Date.date) :
  first_parse s = Some d
  <-> exists fmt, In fmt date_formats /\ Date.strptime s fmt = inr d.
Proof.
  unfold first_parse, date_formats. cbn [Date.first_success In].
  destruct (formats_exclude s) as [H1 H2].
  split.
  - destruct (Date.strptime s Date.fmt_Y_m_d_dash) as [e1|d1] eqn:E1.
    + destruct (Date.strptime s Date.fmt_Y_m_d_slash) as [e2|d2] eqn:E2.
      * destruct (Date.strptime s Date.fmt_m_d_Y_slash) as [e3|d3] eqn:E3;
          [discriminate|].
        intros H. injection H as <-. eauto 6.
      * intros H. injection H as <-. eauto 6.
    + intros H. injection H as <-. eauto 6.
  - intros (fmt & [<-|[<-|[<-|[]]]] & Hd).
    + now rewrite Hd.
    + destruct (Date.strptime s Date.fmt_Y_m_d_dash) as [e1|d1] eqn:E1.
      * now rewrite Hd.
      * destruct (H1 d1 eq_refl) as [Hno _]. now apply Hno in Hd.
    + destruct (Date.strptime s Date.fmt_Y_m_d_dash) as [e1|d1] eqn:E1.
      * destruct (Date.strptime s Date.fmt_Y_m_d_slash) as [e2|d2] eqn:E2;
          [now rewrite Hd|].
        now apply (H2 d2 eq_refl) in Hd.
      * destruct (H1 d1 eq_refl) as [_ Hno]. now apply Hno in Hd.
Qed.

Lemma date_formats_are_unambiguous_witness :
  first_parse "03/15/2021" = Some (Date.mkdate 2021 3 15).
Proof.
  apply (proj2 (date_formats_are_unambiguous "03/15/2021"
                  (Date.mkdate 2021 3 15))).
  exists Date.fmt_m_d_Y_slash. split; [cbn; tauto|reflexivity].
Defined.

(** ** The registry *)

Section RegistryFacts.
Context {E C : Type} (class_name : C -> string).

(** X13: after [register_entity_class name c], [get_entity_class name]
    is [c], also when the name was registered before; the other names,
    the collection classes and detection are as they were. *)
Theorem register_entity_class_lookup (cls : EntityTypeRegistry E C)
    (name : string) (c : E) :
  let cls' := register_entity_class name c cls in
  get_entity_class E C cls' name = Some c
  /\ (forall other, other <> name ->
        get_entity_class E C cls' other = get_entity_class E C cls other)
  /\ (forall other,
        get_collection_class E C cls' other
        = get_collection_class E C cls other)
  /\ get_default_collection_class cls' = get_default_collection_class cls
  /\ (forall raw, detect_collection_class class_name cls' raw
                  = detect_collection_class class_name cls raw).
Proof.
  cbn zeta. unfold get_entity_class, register_entity_class.
  cbn [_entity_classes]. split; [apply get_set_same|]. split.
  - intros other Hother. now apply get_set_other.
  - repeat split.
Qed.

(** X14: after [register_collection_class name c],
    [get_collection_class name] is [c] and the other names are as they
    were; the default class is still the class of the name registered
    first, which is [c] only if the registry was empty or [name] is that
    first name. *)
Theorem register_collection_class_lookup (cls : EntityTypeRegistry E C)
    (name : string) (c : C) :
  let cls' := register_collection_class name c cls in
  get_collection_class E C cls' name = Some c
  /\ (forall other, other <> name ->
        get_collection_class E C cls' other
        = get_collection_class E C cls other)
  /\ get_default_collection_class cls'
     = match _collection_classes cls with
       | [] => Some c
       | (first, c0) :: _ => if String.eqb name first then Some c else Some c0
       end
  /\ (forall other,
        get_entity_class E C cls' other = get_entity_class E C cls other)
  /\ (forall raw, detect_collection_class class_name cls' raw
                  = detect_collection_class class_name cls raw).
Proof.
  cbn zeta.
  unfold get_collection_class, register_collection_class,
    get_default_collection_class.
  cbn [_collection_classes]. split; [apply get_set_same|]. split.
  - intros other Hother. now apply get_set_other.
  - split; [|now split].
    destruct (_collection_classes cls) as [|[first c0] rest];
      [reflexivity|].
    cbn [Dict.set]. now destruct (String.eqb name first).
Qed.

(** X15: a rule registered later is consulted only when the loop
    reaches it: detection after [register_detection_rule f c] gives what
    it gave before if that was a class or an exception; otherwise it
    gives [c] if [f] returns true, no class if [f] returns false or
    raises an [Exception], and the exception of [f] if that is not an
    [Exception]. *)
Theorem register_detection_rule_detects (cls : EntityTypeRegistry E C)
    (f : detection_func) (c : C) (raw : value) :
  snd (detect_collection_class class_name
         (register_detection_rule f c cls) raw)
  = match snd (detect_collection_class class_name cls raw) with
    | inr (Some c0) => inr (Some c0)
    | inl e => inl e
    | inr None =>
        match f raw with
        | inr true => inr (Some c)
        | inr false => inr None
        | inl e => if is_Exception e then inr None else inl e
        end
    end.
Proof.
  unfold detect_collection_class, register_detection_rule.
  cbn [_detection_rules].
  assert (Hwarn : forall msg (m : M (option C)),
             snd (logger_warning msg ;;; m) = snd m).
  { intros msg [l r]. reflexivity. }
  induction (_detection_rules cls) as [|[g c'] rules IH];
    cbn [app detect_in].
  - destruct (f raw) as [e|[|]]; try reflexivity.
    destruct (is_Exception e); reflexivity.
  - destruct (g raw) as [e|[|]]; [|reflexivity|exact IH].
    destruct (is_Exception e); [|reflexivity].
    rewrite !Hwarn. exact IH.
Qed.

End RegistryFacts.

(** ** The book format *)

(** X16: [_detect_book_format] returns true exactly for a dictionary
    whose [books] key holds a list; it never raises on a dictionary, and
    what it raises on another value is a [TypeError]. *)
Theorem detect_book_format_true (raw : value) :
  (_detect_book_format raw = inr true
   <-> exists d items,
         raw = VDict d /\ Dict.get "books" d = Some (VList items))
  /\ (forall e, _detect_book_format raw = inl e ->
        (exists msg, e = TypeError msg) /\ forall d, raw <> VDict d).
Proof.
  split; [split|].
  - unfold _detect_book_format.
    destruct raw as [| | | |s|l|d|]; try discriminate.
    + cbn [py_in py_getitem]. destruct (Str.contains "books" s); discriminate.
    + cbn [py_in py_getitem]. destruct (existsb _ l); discriminate.
    + cbn [py_in py_getitem]. unfold Dict.mem.
      destruct (Dict.get "books" d) as [v|] eqn:Eget; [|discriminate].
      destruct v; try discriminate. eauto.
  - intros (d & items & -> & Hget). unfold _detect_book_format.
    cbn [py_in py_getitem]. unfold Dict.mem. now rewrite Hget.
  - intros e. unfold _detect_book_format.
    destruct raw as [| | | |s|l|d|]; cbn [py_in py_getitem type_name].
    1-4,8: (intros H; injection H as <-; split; [eauto|discriminate]).
    + destruct (Str.contains "books" s); [|discriminate].
      intros H; injection H as <-; split; [eauto|discriminate].
    + destruct (existsb _ l); [|discriminate].
      intros H; injection H as <-; split; [eauto|discriminate].
    + unfold Dict.mem. destruct (Dict.get "books" d) as [v|];
        [destruct v|]; discriminate.
Qed.

(** X17: whatever [BookCollection] accepts is detected as a book
    collection by the registry of the module. *)
Theorem accepted_collection_is_detected (top : value)
    (l : list log_record) (c : BookCollection) :
  BookCollection_validate top = (l, Valid c) ->
  detect_collection_class collection_class_name module_registry top
  = ([mklog DEBUG "Detected format for BookCollection"],
     inr (Some class_BookCollection)).
Proof.
  intros H. unfold BookCollection_validate in H.
  apply run_valid_inv in H. unfold BookCollection_validator in H.
  destruct top as [| | | | |?|d|?]; try (unfold invalid in H; discriminate).
  apply ap_valid_inv in H as (l1 & l2 & g & bs & _ & Hbs & _ & _).
  unfold required_field in Hbs.
  destruct (Dict.get "books" d) as [v|] eqn:Ev; [|discriminate].
  apply at_loc_valid_inv in Hbs. unfold list_of_Book in Hbs.
  destruct v as [| | | | |items|?|?];
    try (unfold invalid in Hbs; discriminate).
  unfold detect_collection_class, module_registry.
  cbn [register_detection_rule register_collection_class
       register_entity_class empty_registry _detection_rules app detect_in].
  unfold _detect_book_format. cbn [py_in py_getitem]. unfold Dict.mem.
  rewrite Ev. reflexivity.
Qed.

Lemma accepted_collection_is_detected_witness :
  detect_collection_class collection_class_name module_registry
    (VDict [("books", VList [VDict hobbit_record])])
  = ([mklog DEBUG "Detected format for BookCollection"],
     inr (Some class_BookCollection)).
Proof.
  apply (accepted_collection_is_detected
           (VDict [("books", VList [VDict hobbit_record])])
           [] (mkBookCollection [hobbit])).
  vm_compute. reflexivity.
Defined.

(** ** The overflow and the metadata view, in order *)

Lemma overflow_filter_gen (data acc : pydict) :
  Dict.wf data ->
  (forall k, In k (Dict.keys data) -> ~ In k (Dict.keys acc)) ->
  fold_left
    (fun raw_metadata kv =>
       if negb (is_core_field (fst kv))
       then Dict.set (fst kv) (snd kv) raw_metadata
       else raw_metadata)
    data acc
  = acc ++ filter (fun kv => negb (is_core_field (fst kv))) data.
Proof.
  unfold Dict.wf. revert acc.
  induction data as [|[k v] data IH]; intros acc Hwf Hfresh;
    cbn [fold_left filter fst snd].
  - now rewrite app_nil_r.
  - inversion Hwf as [|? ? Hnotin Hwf']; subst.
    destruct (negb (is_core_field k)).
    + rewrite set_fresh by (apply Hfresh; now left).
      rewrite IH; [now rewrite <- app_assoc|assumption|].
      intros k' Hin. unfold Dict.keys. rewrite map_app, in_app_iff.
      intros [Hacc|[<-|[]]]; [|contradiction].
      apply (Hfresh k'); [now right|exact Hacc].
    + apply IH; [assumption|].
      intros k' Hin. apply Hfresh. now right.
Qed.

(** X18: the overflow of a book lists the items of the record whose key
    is not a core field in the order of the record. *)
Theorem overflow_keeps_order (R : pydict) (l : list log_record) (b : Book) :
  Dict.wf R ->
  Book_validate (VDict R) = (l, Valid b) ->
  raw_metadata b = filter (fun kv => negb (is_core_field (fst kv))) R.
Proof.
  intros Hwf H.
  apply Book_validate_valid_inv in H as (R' & HR & _ & -> & _).
  injection HR as <-. unfold overflow_of.
  rewrite overflow_filter_gen; [reflexivity|exact Hwf|].
  intros k _ [].
Qed.

Lemma overflow_keeps_order_witness :
  raw_metadata hobbit
  = filter (fun kv => negb (is_core_field (fst kv))) hobbit_record.
Proof.
  exact (overflow_keeps_order hobbit_record [] hobbit hobbit_record_wf
           hobbit_validates).
Defined.

Lemma wf_update {V : Type} (d other : list (string * V)) :
  Dict.wf d -> Dict.wf (Dict.update d other).
Proof.
  unfold Dict.update. revert d.
  induction other as [|[k v] other IH]; intros d Hwf; cbn [fold_left].
  - exact Hwf.
  - apply IH. now apply wf_set.
Qed.

(** X20: a field of the record that is not a core field is in the
    metadata view of the book, with the value it has in the record. *)
Theorem unknown_fields_reach_the_view (R : pydict) (l : list log_record)
    (b : Book) (k : string) (v : value) :
  Dict.wf R ->
  Book_validate (VDict R) = (l, Valid b) ->
  Dict.get k R = Some v -> ~ In k core_fields ->
  Dict.get k (get_all_metadata b) = Some v.
Proof.
  intros Hwf H Hk Hcore.
  apply Book_validate_valid_inv in H as (R' & HR & _ & Hraw & _).
  injection HR as <-.
  rewrite get_all_metadata_update, Hraw.
  rewrite get_update by apply overflow_keys.
  rewrite get_overflow by exact Hwf.
  destruct (is_core_field k) eqn:E.
  - apply is_core_field_In in E. contradiction.
  - now rewrite Hk.
Qed.

Lemma unknown_fields_reach_the_view_witness :
  Dict.get "rating" (get_all_metadata hobbit) = Some rating_4_5.
Proof.
  apply (unknown_fields_reach_the_view hobbit_record [] hobbit "rating"
           rating_4_5 hobbit_record_wf hobbit_validates).
  - reflexivity.
  - unfold core_fields. simpl. intuition discriminate.
Defined.

(** ** When a book is built *)





Lemma handle_publication_date_field_no_raise (v : value) l
    (a : option date_or_str) :
  handle_publication_date_field v = (l, inr a) -> str_raises v = false.
Proof.
  rewrite handle_publication_date_field_value.
  now destruct (str_raises v).
Qed.




(** X22: when the record has a title, the title of the book is what
    [handle_string_fields] returns for it; the name of the book is that
    title if the title of the record is truthy, whatever its type; a
    falsy title (0, false, an empty list) is kept as the title but the
    name comes from the name of the record or the default. *)
Theorem name_follows_truthy_title (R : pydict) (l : list log_record)
    (b : Book) (t : value) :
  Book_validate (VDict R) = (l, Valid b) ->
  Dict.get "title" R = Some t ->
  handle_string_fields t = ret (title b)
  /\ (truthy t = true -> title b = Some (name b))
  /\ (truthy t = false ->
      handle_string_fields (name_or_default R) = ret (Some (name b))).
Proof.
  intros H Ht.
  apply Book_validate_returns in H
    as (R' & HR & (l' & Hname) & _ & Htitle & _).
  injection HR as <-.
  unfold field_returns in Htitle. rewrite Ht in Htitle.
  destruct Htitle as (l'' & Htitle).
  destruct (handle_string_fields_returns _ _ _ Hname) as (-> & Hn & _).
  destruct (handle_string_fields_returns _ _ _ Htitle) as (-> & Hv & _).
  unfold name_source in Hname, Hn. rewrite Ht in Hname, Hn.
  split; [exact Htitle|]. split; intros Htruthy;
    rewrite Htruthy in Hname, Hn.
  - congruence.
  - exact Hname.
Qed.

Lemma name_follows_truthy_title_witness :
  handle_string_fields (VStr " The Hobbit ") = ret (title hobbit)
  /\ (truthy (VStr " The Hobbit ") = true -> title hobbit = Some (name hobbit))
  /\ (truthy (VStr " The Hobbit ") = false ->
      handle_string_fields (name_or_default hobbit_record)
      = ret (Some (name hobbit))).
Proof.
  apply (name_follows_truthy_title hobbit_record [] hobbit
           (VStr " The Hobbit ") hobbit_validates).
  reflexivity.
Defined.

(** ** What construction logs *)

Lemma field_validated_log {A : Type} nm (dflt : A) (h : value -> M A)
    d l a :
  field nm dflt (fun v => validated (h v) any_of_them) d
  = (l, inr ([], Some a)) ->
  l = field_log nm h d.
Proof.
  intros H. apply field_validated_valid_inv in H. unfold field_log.
  destruct (Dict.get nm d) as [v|]; [now rewrite H|now destruct H].
Qed.

Lemma field_string_log nm dflt d l a :
  field nm dflt (fun v => validated (handle_string_fields v) any_of_them) d
  = (l, inr ([], Some a)) ->
  l = [].
Proof.
  intros H. apply field_validated_valid_inv in H.
  destruct (Dict.get nm d) as [v|]; [|now destruct H].
  now apply handle_string_fields_returns in H.
Qed.

Lemma field_name_log nm dflt d l a :
  field nm dflt (fun v => validated (handle_string_fields v) str_type) d
  = (l, inr ([], Some a)) ->
  l = [].
Proof.
  intros H. apply field_str_valid_inv in H.
  destruct (Dict.get nm d) as [v|]; [|now destruct H].
  now apply handle_string_fields_returns in H.
Qed.

Lemma field_authors_log nm dflt d l a :
  field nm dflt (fun v => validated (handle_authors_field v) any_of_them) d
  = (l, inr ([], Some a)) ->
  l = [].
Proof.
  intros H. apply field_validated_valid_inv in H.
  destruct (Dict.get nm d) as [v|]; [|now destruct H].
  now apply handle_authors_field_returns in H.
Qed.

Lemma field_dict_type_valid_log nm dflt d l a :
  field nm dflt dict_type d = (l, inr ([], Some a)) -> l = [].
Proof.
  unfold field, dict_type, valid, invalid.
  destruct (Dict.get nm d) as [v|]; [|congruence].
  destruct v; cbn [at_loc]; congruence.
Qed.

(** The log of the fields is the logs of the date, the pages and the
    price, in this order. *)
Lemma Book_fields_log (d : pydict) l b :
  Book_fields d = (l, inr ([], Some b)) ->
  l = field_log "publication_date" handle_publication_date_field d
      ++ field_log "pages" handle_pages_field d
      ++ field_log "price" handle_price_field d.
Proof.
  unfold Book_fields. intros H.
  repeat match type of H with
         | _ <*> _ = _ =>
             let l1 := fresh "l" in let l2 := fresh "l" in
             let g := fresh "g" in let a := fresh "a" in
             let Hx := fresh "Hx" in
             apply ap_valid_inv in H as (l1 & l2 & g & a & H & Hx & -> & ->)
         end.
  unfold valid in H. injection H as <- _.
  repeat match goal with
         | Hf : field _ _ (fun v => validated (handle_string_fields v)
                                      any_of_them) _ = _ |- _ =>
             apply field_string_log in Hf; subst
         | Hf : field _ _ (fun v => validated (handle_string_fields v)
                                      str_type) _ = _ |- _ =>
             apply field_name_log in Hf; subst
         | Hf : field _ _ (fun v => validated (handle_authors_field v)
                                      any_of_them) _ = _ |- _ =>
             apply field_authors_log in Hf; subst
         | Hf : field _ _ dict_type _ = _ |- _ =>
             apply field_dict_type_valid_log in Hf; subst
         | Hf : field _ _ (fun v => validated _ any_of_them) _ = _ |- _ =>
             apply field_validated_log in Hf; subst
         end.
  cbn [app]. rewrite !app_nil_r. now rewrite <- app_assoc.
Qed.

Lemma handle_pages_field_log (v : value) l r :
  handle_pages_field v = (l, r) ->
  (List.length l <= 1)%nat /\ Forall (fun x => level x = WARNING) l
  /\ (l <> [] -> r = inr None).
Proof.
  rewrite handle_pages_field_cases.
  destruct (is_None v || eq_empty_str v);
    [|destruct (py_int v) as [e|n];
      [destruct (ValueError_or_TypeError e);
       [destruct (str_raises v)|]|]];
    intros H; injection H as <- <-; cbn [List.length];
    (split; [lia|split; [repeat constructor|congruence]]).
Qed.

Lemma handle_price_field_log (v : value) l r :
  handle_price_field v = (l, r) ->
  (List.length l <= 1)%nat /\ Forall (fun x => level x = WARNING) l
  /\ (l <> [] -> r = inr None).
Proof.
  rewrite handle_price_field_cases.
  destruct (is_None v || eq_empty_str v);
    [|destruct (py_float v) as [e|n];
      [destruct (ValueError_or_TypeError e);
       [destruct (str_raises v)|]|]];
    intros H; injection H as <- <-; cbn [List.length];
    (split; [lia|split; [repeat constructor|congruence]]).
Qed.

Lemma handle_publication_date_field_log (v : value) l r :
  handle_publication_date_field v = (l, r) ->
  (List.length l <= 1)%nat /\ Forall (fun x => level x = WARNING) l
  /\ (l <> [] -> exists s, r = inr (Some (a_str s))).
Proof.
  rewrite handle_publication_date_field_value.
  destruct (str_raises v);
    [intros H; injection H as <- <-;
     split; [cbn; lia|split; [constructor|congruence]]|].
  unfold normalized_date.
  destruct v as [|b|n|f|s|li|d|d];
    try (intros H; injection H as <- <-;
         split; [cbn; lia|split; [constructor|congruence]]).
  destruct s as [|c s];
    [intros H; injection H as <- <-;
     split; [cbn; lia|split; [constructor|congruence]]|].
  destruct (first_parse _); intros H; injection H as <- <-;
    cbn [List.length fst snd];
    (split; [lia|split; [repeat constructor|]]);
    [congruence|eauto].
Qed.

(** X23: the log of building a book is the log of the publication date,
    then of the pages, then of the price; each of the three is empty or
    one warning; a warning for the date means that the text was kept,
    a warning for the pages or the price that the field is null. *)
Theorem construction_logs_three_warnings_at_most (R : pydict)
    (l : list log_record) (b : Book) :
  Book_validate (VDict R) = (l, Valid b) ->
  let ld := field_log "publication_date" handle_publication_date_field R in
  let lp := field_log "pages" handle_pages_field R in
  let lpr := field_log "price" handle_price_field R in
  l = ld ++ lp ++ lpr
  /\ (List.length ld <= 1 /\ List.length lp <= 1 /\ List.length lpr <= 1)%nat
  /\ Forall (fun x => level x = WARNING) l
  /\ (ld <> [] -> exists s, publication_date b = Some (a_str s))
  /\ (lp <> [] -> pages b = None)
  /\ (lpr <> [] -> price b = None).
Proof.
  intros H ld lp lpr.
  assert (Hl : l = ld ++ lp ++ lpr).
  { unfold Book_validate in H. apply run_valid_inv in H.
    unfold Book_validator in H.
    destruct (extract_metadata_dict R) as (P & HP & _ & _ & Hother).
    rewrite HP in H. apply Book_fields_log in H.
    unfold field_log in H. rewrite !Hother in H by discriminate.
    exact H. }
  apply Book_validate_returns in H
    as (R' & HR & _ & _ & _ & _ & _ & Hd & Hp & Hpr & _).
  injection HR as <-.
  unfold field_returns in Hd, Hp, Hpr.
  assert (Fd : (List.length ld <= 1)%nat
               /\ Forall (fun x => level x = WARNING) ld
               /\ (ld <> [] -> exists s, publication_date b = Some (a_str s))).
  { unfold ld, field_log.
    destruct (Dict.get "publication_date" R) as [v|];
      [|split; [cbn; lia|split; [constructor|congruence]]].
    destruct Hd as (l' & Hd).
    destruct (handle_publication_date_field_log _ _ _ Hd) as (H1 & H2 & H3).
    rewrite Hd. cbn [fst]. split; [exact H1|]. split; [exact H2|].
    intros Hne. destruct (H3 Hne) as (s & Hs). exists s. congruence. }
  assert (Fp : (List.length lp <= 1)%nat
               /\ Forall (fun x => level x = WARNING) lp
               /\ (lp <> [] -> pages b = None)).
  { unfold lp, field_log.
    destruct (Dict.get "pages" R) as [v|];
      [|split; [cbn; lia|split; [constructor|congruence]]].
    destruct Hp as (l' & Hp).
    destruct (handle_pages_field_log _ _ _ Hp) as (H1 & H2 & H3).
    rewrite Hp. cbn [fst]. split; [exact H1|]. split; [exact H2|].
    intros Hne. specialize (H3 Hne). congruence. }
  assert (Fpr : (List.length lpr <= 1)%nat
                /\ Forall (fun x => level x = WARNING) lpr
                /\ (lpr <> [] -> price b = None)).
  { unfold lpr, field_log.
    destruct (Dict.get "price" R) as [v|];
      [|split; [cbn; lia|split; [constructor|congruence]]].
    destruct Hpr as (l' & Hpr).
    destruct (handle_price_field_log _ _ _ Hpr) as (H1 & H2 & H3).
    rewrite Hpr. cbn [fst]. split; [exact H1|]. split; [exact H2|].
    intros Hne. specialize (H3 Hne). congruence. }
  destruct Fd as (Fd1 & Fd2 & Fd3), Fp as (Fp1 & Fp2 & Fp3),
    Fpr as (Fpr1 & Fpr2 & Fpr3).
  split; [exact Hl|]. split; [now repeat split|].
  split; [rewrite Hl, !Forall_app; now repeat split|].
  now repeat split.
Qed.

Lemma construction_logs_three_warnings_at_most_witness :
  let ld := field_log "publication_date" handle_publication_date_field
              unparsed_record in
  let lp := field_log "pages" handle_pages_field unparsed_record in
  let lpr := field_log "price" handle_price_field unparsed_record in
  unparsed_log = ld ++ lp ++ lpr
  /\ (List.length ld <= 1 /\ List.length lp <= 1 /\ List.length lpr <= 1)%nat
  /\ Forall (fun x => level x = WARNING) unparsed_log
  /\ (ld <> [] -> exists s, publication_date unparsed_book = Some (a_str s))
  /\ (lp <> [] -> pages unparsed_book = None)
  /\ (lpr <> [] -> price unparsed_book = None).
Proof.
  apply (construction_logs_three_warnings_at_most unparsed_record
           unparsed_log unparsed_book).
  vm_compute. reflexivity.
Defined.

(** ** The registry of the module *)

(** X24: with the registry of the module, detection never raises,
    whatever the value; it gives [BookCollection] for a dictionary whose
    [books] key holds a list and no class for anything else. *)
Theorem module_registry_detects_books (raw : value) :
  exists log,
    detect_collection_class collection_class_name module_registry raw
    = (log,
       inr match raw with
           | VDict d =>
               match Dict.get "books" d with
               | Some (VList _) => Some class_BookCollection
               | _ => None
               end
           | _ => None
           end).
Proof.
  unfold detect_collection_class, module_registry.
  cbn [register_detection_rule register_collection_class
       register_entity_class empty_registry _detection_rules app detect_in].
  unfold _detect_book_format.
  destruct raw as [| | | |s|l|d|]; cbn [py_in py_getitem];
    try (eexists; reflexivity).
  - destruct (Str.contains "books" s); eexists; reflexivity.
  - destruct (existsb _ l); eexists; reflexivity.
  - unfold Dict.mem. destruct (Dict.get "books" d) as [v|];
      [destruct v|]; eexists; reflexivity.
Qed.

(** ** Strings that no format reads *)

Lemma month_classes_digit (p : Date.char_class) (c : ascii) :
  In p [Date.only "1"; Date.only "0"; Date.between "0" "2";
        Date.between "1" "9"; Date.digit] ->
  p c = true -> Date.digit c = true.
Proof.
  cbn [In]. intros [<-|[<-|[<-|[<-|[<-|[]]]]]];
    destruct c as [[] [] [] [] [] [] [] []]; vm_compute;
    intros H; first [reflexivity|discriminate H].
Qed.

Lemma leading_digits_digit (c : ascii) (s : string) :
  Date.digit c = true ->
  leading_digits (String c s)
  = (S (fst (leading_digits s)), snd (leading_digits s)).
Proof.
  intros H. cbn [leading_digits]. rewrite H.
  now destruct (leading_digits s).
Qed.

Lemma leading_digits_other (c : ascii) (s : string) :
  Date.digit c = false -> leading_digits (String c s) = (O, Some c).
Proof. intros H. cbn [leading_digits]. now rewrite H. Qed.

Lemma year_first_digits (sep : ascii) (fmt : list Date.item) (s : string)
    (g : Date.groups) r :
  Date.digit sep = false ->
  Date.match_format (Date.Dir Date.dir_Y :: Date.Lit sep :: fmt) s g
  = Some r ->
  leading_digits s = (4%nat, Some sep).
Proof.
  intros Hsep.
  cbn [Date.match_format Date.alternatives Date.first_success].
  destruct (Date.match_classes _ s) as [[txt rest]|] eqn:E.
  2:{ discriminate. }
  apply match_classes_Some in E as [-> Hall].
  destruct rest as [|x rest]; [discriminate|].
  destruct (Ascii.eqb sep x) eqn:Ex; [|discriminate].
  apply Ascii.eqb_eq in Ex. subst x. intros _.
  destruct txt as [|a [|b [|c [|e [|? ?]]]]];
    cbn [list_ascii_of_string] in Hall;
    repeat match goal with
           | H : Forall2 _ _ _ |- _ => inversion H; subst; clear H
           end.
  cbn [String.append].
  rewrite !leading_digits_digit by assumption.
  rewrite leading_digits_other by assumption. reflexivity.
Qed.

Lemma month_first_digits (fmt : list Date.item) (s : string)
    (g : Date.groups) r :
  Date.match_format (Date.Dir Date.dir_m :: Date.Lit "/" :: fmt) s g
  = Some r ->
  leading_digits s = (1%nat, Some "/"%char)
  \/ leading_digits s = (2%nat, Some "/"%char).
Proof.
  cbn [Date.match_format]. intros H.
  apply first_success_Some in H as (cs & Hin & H).
  destruct (Date.match_classes cs s) as [[txt rest]|] eqn:E;
    [|discriminate].
  apply match_classes_Some in E as [-> Hall].
  destruct rest as [|x rest]; [discriminate|].
  destruct (Ascii.eqb "/" x) eqn:Ex; [|discriminate].
  apply Ascii.eqb_eq in Ex. subst x. clear H.
  cbn [Date.alternatives In] in Hin.
  destruct Hin as [<-|[<-|[<-|[]]]];
    destruct txt as [|a [|b [|? ?]]];
    cbn [list_ascii_of_string] in Hall;
    repeat match goal with
           | H : Forall2 _ _ _ |- _ => inversion H; subst; clear H
           end;
    cbn [String.append];
    repeat match goal with
           | H : ?p ?c = true |- _ =>
               lazymatch p with
               | Date.digit => fail
               | _ => apply (month_classes_digit p c) in H;
                      [|cbn [In]; tauto]
               end
           end;
    rewrite !leading_digits_digit by assumption;
    rewrite leading_digits_other by reflexivity; cbn [fst snd]; tauto.
Qed.

Lemma first_parse_shape (s : string) (d : Date.date) :
  first_parse s = Some d -> date_shape s = true.
Proof.
  unfold first_parse. intros H.
  apply first_success_Some in H as (fmt & Hin & H).
  destruct (Date.strptime s fmt) as [e|d'] eqn:E; [discriminate|].
  apply strptime_matches in E as (r & E).
  unfold date_shape, date_formats in *. cbn [In] in Hin.
  destruct Hin as [<-|[<-|[<-|[]]]].
  - now rewrite (year_first_digits "-" _ _ _ _ eq_refl E).
  - now rewrite (year_first_digits "/" _ _ _ _ eq_refl E).
  - now destruct (month_first_digits _ _ _ _ E) as [-> | ->].
Qed.

Lemma forallb_app (p : ascii -> bool) (s t : string) :
  Str.forallb p (s ++ t) = Str.forallb p s && Str.forallb p t.
Proof.
  induction s as [|c s IH]; [reflexivity|].
  cbn [String.append Str.forallb]. rewrite IH. now rewrite andb_assoc.
Qed.

Lemma append_assoc (s t u : string) :
  ((s ++ t) ++ u)%string = (s ++ (t ++ u))%string.
Proof.
  induction s as [|c s IH]; [reflexivity|].
  cbn [String.append]. now rewrite IH.
Qed.

Lemma leading_digits_app (X : string) (x : ascii) (rest : string) :
  Str.forallb Date.digit X = true -> Date.digit x = false ->
  leading_digits (X ++ String x rest) = (String.length X, Some x).
Proof.
  intros HX Hx. induction X as [|c X IH]; cbn [String.append].
  - now apply leading_digits_other.
  - cbn [Str.forallb] in HX. apply andb_prop in HX as [Hc HX].
    rewrite leading_digits_digit by exact Hc. now rewrite (IH HX).
Qed.

Lemma leading_digits_all (X : string) :
  Str.forallb Date.digit X = true ->
  leading_digits X = (String.length X, None).
Proof.
  intros HX. induction X as [|c X IH]; [reflexivity|].
  cbn [Str.forallb] in HX. apply andb_prop in HX as [Hc HX].
  rewrite leading_digits_digit by exact Hc. now rewrite (IH HX).
Qed.

Lemma date_shape_digits_dot (X rest : string) :
  Str.forallb Date.digit X = true ->
  date_shape (X ++ String "." rest) = false.
Proof.
  intros HX. unfold date_shape.
  rewrite leading_digits_app by (exact HX || reflexivity).
  now destruct (String.length X) as [|[|[|[|[|n]]]]].
Qed.

Lemma date_shape_digits (X : string) :
  Str.forallb Date.digit X = true -> date_shape X = false.
Proof.
  intros HX. unfold date_shape. rewrite leading_digits_all by exact HX.
  now destruct (String.length X) as [|[|[|[|[|n]]]]].
Qed.

Lemma date_shape_head (c : ascii) (rest : string) :
  Date.digit c = false -> date_shape (String c rest) = false.
Proof.
  intros Hc. unfold date_shape. now rewrite leading_digits_other.
Qed.

Lemma digits_uint (d : Decimal.uint) :
  Str.forallb Date.digit (NilEmpty.string_of_uint d) = true.
Proof. induction d; [reflexivity|exact IHd ..]. Qed.

(** The text of an integer is digits, after a minus sign if it is
    negative. *)
Lemma str_of_int_digits (n : Z) :
  Str.forallb Date.digit (Num.str_of_int n) = true
  \/ exists rest, Num.str_of_int n = String "-" rest.
Proof.
  unfold Num.str_of_int, NilZero.string_of_int.
  destruct (Z.to_int n) as [d|d]; [left|right; eauto].
  destruct d; first [reflexivity|apply digits_uint].
Qed.

Lemma rstrip_zeros_digits (s : string) :
  Str.forallb Date.digit s = true
  \/ (exists rest, s = String "-" rest) ->
  Str.forallb Date.digit (Num.rstrip_zeros s) = true
  \/ exists rest, Num.rstrip_zeros s = String "-" rest.
Proof.
  intros [H|(rest & ->)].
  - left. induction s as [|c s IH]; [reflexivity|].
    cbn [Str.forallb Num.rstrip_zeros] in *.
    apply andb_prop in H as [Hc Hs]. specialize (IH Hs).
    destruct (Num.rstrip_zeros s).
    + destruct (Ascii.eqb c "0"); [reflexivity|].
      cbn [Str.forallb]. now rewrite Hc.
    + cbn [Str.forallb] in *. now rewrite Hc.
  - right. cbn [Num.rstrip_zeros].
    destruct (Num.rstrip_zeros rest); cbn; eauto.
Qed.

Lemma substring_digits (n m : nat) (s : string) :
  Str.forallb Date.digit s = true ->
  Str.forallb Date.digit (substring n m s) = true.
Proof.
  revert n m. induction s as [|c s IH]; intros n m H.
  - destruct n, m; reflexivity.
  - cbn [Str.forallb] in H. apply andb_prop in H as [Hc Hs].
    destruct n as [|n]; cbn [substring].
    + destruct m as [|m]; [reflexivity|].
      cbn [Str.forallb]. rewrite Hc. now apply IH.
    + now apply IH.
Qed.

Lemma zeros_digits (n : nat) : Str.forallb Date.digit (Num.zeros n) = true.
Proof. induction n; [reflexivity|exact IHn]. Qed.

Lemma format_repr_shape (digits : string) (decpt : Z) :
  Str.forallb Date.digit digits = true
  \/ (exists rest, digits = String "-" rest) ->
  date_shape (Num.format_repr digits decpt) = false.
Proof.
  intros Hd. unfold Num.format_repr.
  destruct ((decpt <=? -4) || (16 <? decpt)).
  - destruct digits as [|c [|c' rest]]; cbn [String.append].
    + now apply date_shape_head.
    + destruct (Date.digit c) eqn:Ec; [|now apply date_shape_head].
      unfold date_shape. rewrite leading_digits_digit by exact Ec.
      rewrite leading_digits_other by reflexivity. reflexivity.
    + destruct (Date.digit c) eqn:Ec; [|now apply date_shape_head].
      unfold date_shape. rewrite leading_digits_digit by exact Ec.
      rewrite leading_digits_other by reflexivity. reflexivity.
  - destruct (decpt <=? 0); [reflexivity|].
    destruct (Z.of_nat (String.length digits) <=? decpt).
    + destruct Hd as [Hd|(rest & ->)].
      * change ".0"%string with (String "." "0").
        rewrite <- append_assoc. apply date_shape_digits_dot.
        now rewrite forallb_app, Hd, zeros_digits.
      * now apply date_shape_head.
    + destruct Hd as [Hd|(rest & ->)].
      * cbn [String.append]. apply date_shape_digits_dot.
        now apply substring_digits.
      * destruct (Z.to_nat decpt); cbn [substring String.append];
          now apply date_shape_head.
Qed.

Lemma float_repr_shape (f : Num.float) :
  date_shape (Num.float_repr f) = false.
Proof.
  destruct f as [s|s| |s m e]; cbn [Num.float_repr];
    try (destruct s; reflexivity); try reflexivity.
  destruct s; [now apply date_shape_head|].
  cbn [String.append]. unfold Num.repr_finite.
  destruct (Num.shortest_digits _ _ _ _ _ _) as [c n].
  apply format_repr_shape, rstrip_zeros_digits, str_of_int_digits.
Qed.

(** The text of a value that is not a string or a date is read by none
    of the three formats. *)
Lemma str_text_not_a_date (v : value) :
  (forall s, v <> VStr s) -> (forall d, v <> VDate d) ->
  first_parse (str_text v) = None.
Proof.
  intros Hs Hd.
  destruct (first_parse (str_text v)) as [d|] eqn:E; [|reflexivity].
  apply first_parse_shape in E.
  assert (F : date_shape (str_text v) = false).
  { destruct v as [|b|n|f|s|l|d0|d0]; cbn [str_text repr_text].
    - reflexivity.
    - now destruct b.
    - destruct (str_of_int_digits n) as [H|(rest & ->)];
        [now apply date_shape_digits|now apply date_shape_head].
    - apply float_repr_shape.
    - now destruct (Hs s).
    - now apply date_shape_head.
    - now apply date_shape_head.
    - now destruct (Hd d0). }
  congruence.
Qed.

(** ** Building a book again from its metadata view *)

Lemma get_app {V : Type} (k : string) (d1 d2 : list (string * V)) :
  Dict.get k (d1 ++ d2)
  = match Dict.get k d1 with
    | Some v => Some v
    | None => Dict.get k d2
    end.
Proof.
  induction d1 as [|[k' v'] d1 IH]; [reflexivity|].
  cbn [app Dict.get]. now destruct (String.eqb k k').
Qed.

Lemma get_item_if {A : Type} (k k' : string) (f : A -> value)
    (o : option A) :
  Dict.get k (item_if k' f o)
  = if String.eqb k k' then option_map f o else None.
Proof.
  destruct o as [a|]; cbn [item_if Dict.get option_map];
    now destruct (String.eqb k k').
Qed.

Lemma descriptive_items_eq (b : Book) :
  descriptive_items b
  = item_if "title" VStr (title b)
    ++ item_if "authors" (fun a => VList (map VStr a))
         match authors b with [] => None | a => Some a end
    ++ item_if "isbn" VStr (isbn b)
    ++ item_if "publication_date" (fun d => VStr (str_of_date_or_str d))
         (publication_date b)
    ++ item_if "pages" VInt (pages b)
    ++ item_if "price" VFloat (price b)
    ++ item_if "description" VStr (description b)
    ++ item_if "cover_image_url" VStr (cover_image_url b)
    ++ item_if "purchase_url" VStr (purchase_url b).
Proof. unfold descriptive_items. now destruct (authors b). Qed.

Ltac descriptive_lookup :=
  rewrite descriptive_items_eq, !get_app, !get_item_if;
  repeat match goal with
         | |- context [String.eqb ?a ?b] =>
             let r := eval vm_compute in (String.eqb a b) in
             change (String.eqb a b) with r
         end;
  cbv iota;
  repeat match goal with
         | |- context [option_map _ ?o] => destruct o; cbn [option_map]
         end;
  reflexivity.

Lemma descriptive_items_get (b : Book) :
  let D := descriptive_items b in
  Dict.get "title" D = option_map VStr (title b)
  /\ Dict.get "authors" D
     = match authors b with
       | [] => None
       | a => Some (VList (map VStr a))
       end
  /\ Dict.get "isbn" D = option_map VStr (isbn b)
  /\ Dict.get "publication_date" D
     = option_map (fun d => VStr (str_of_date_or_str d)) (publication_date b)
  /\ Dict.get "pages" D = option_map VInt (pages b)
  /\ Dict.get "price" D = option_map VFloat (price b)
  /\ Dict.get "description" D = option_map VStr (description b)
  /\ Dict.get "cover_image_url" D = option_map VStr (cover_image_url b)
  /\ Dict.get "purchase_url" D = option_map VStr (purchase_url b)
  /\ Dict.get "publisher" D = None
  /\ Dict.get "genre" D = None
  /\ Dict.get "language" D = None
  /\ Dict.get "format" D = None
  /\ Dict.get "name" D = None.
Proof.
  cbv zeta. repeat split; try descriptive_lookup.
  rewrite descriptive_items_eq, !get_app, !get_item_if.
  repeat match goal with
         | |- context [String.eqb ?a ?b] =>
             let r := eval vm_compute in (String.eqb a b) in
             change (String.eqb a b) with r
         end.
  cbv iota. destruct (title b), (authors b); reflexivity.
Qed.

Lemma filter_none {A : Type} (f : A -> bool) (l : list A) :
  (forall x, In x l -> f x = false) -> filter f l = [].
Proof.
  induction l as [|a l IH]; intros H; [reflexivity|].
  cbn [filter]. rewrite (H a) by now left.
  apply IH. intros x Hx. apply H. now right.
Qed.

Lemma filter_all {A : Type} (f : A -> bool) (l : list A) :
  (forall x, In x l -> f x = true) -> filter f l = l.
Proof.
  induction l as [|a l IH]; intros H; [reflexivity|].
  cbn [filter]. rewrite (H a) by now left.
  f_equal. apply IH. intros x Hx. apply H. now right.
Qed.

Lemma view_of_built (data : value) (l : list log_record) (b : Book) :
  Book_validate data = (l, Valid b) ->
  get_all_metadata b = descriptive_items b ++ raw_metadata b
  /\ (forall k, In k core_fields -> Dict.get k (raw_metadata b) = None)
  /\ overflow_of (get_all_metadata b) = raw_metadata b.
Proof.
  intros H. apply Book_validate_valid_inv in H as (R & _ & _ & Hraw & _).
  destruct (overflow_keys R) as [Hwf Hkeys]. rewrite <- Hraw in Hwf, Hkeys.
  assert (Heq : get_all_metadata b = descriptive_items b ++ raw_metadata b).
  { rewrite get_all_metadata_update. apply update_disjoint; [exact Hwf|].
    intros k Hr Hd. apply (Hkeys k Hr).
    now apply descriptive_fields_core, (descriptive_items_keys b). }
  split; [exact Heq|]. split.
  - intros k Hk. apply get_None_not_key. intros Hin. exact (Hkeys k Hin Hk).
  - assert (Hview : Dict.wf (get_all_metadata b)).
    { unfold get_all_metadata. cbv zeta. apply wf_update.
      repeat match goal with
             | |- Dict.wf (match ?o with _ => _ end) => destruct o
             | |- Dict.wf (Dict.set _ _ _) => apply wf_set
             end;
        constructor. }
    unfold overflow_of.
    rewrite overflow_filter_gen; [|exact Hview|intros k _ []].
    cbn [app]. rewrite Heq, filter_app.
    assert (Hd : filter (fun kv => negb (is_core_field (fst kv)))
                   (descriptive_items b) = []).
    { apply filter_none. intros kv Hin. apply negb_false_iff.
      apply is_core_field_In.
      apply descriptive_fields_core, (descriptive_items_keys b).
      unfold Dict.keys. now apply in_map. }
    assert (Hr : filter (fun kv => negb (is_core_field (fst kv)))
                   (raw_metadata b) = raw_metadata b).
    { apply filter_all. intros kv Hin.
      destruct (is_core_field (fst kv)) eqn:E; [|reflexivity].
      apply is_core_field_In in E. exfalso.
      apply (Hkeys (fst kv)); [|exact E]. unfold Dict.keys. now apply in_map. }
    now rewrite Hd, Hr.
Qed.

Lemma trimmed_string_again (t : string) :
  is_trimmed t = true ->
  string_value (VStr t) = Some (Str.re_sub_spaces t).
Proof.
  intros H. destruct (is_trimmed_strip t H) as [Hs Hn].
  now rewrite string_value_str, Hs, Hn.
Qed.

Lemma kept_pages_again (v : value) (l : list log_record) (n : Z) :
  handle_pages_field v = (l, inr (Some n)) ->
  handle_pages_field (VInt n) = ([], inr (Some n)).
Proof.
  rewrite !handle_pages_field_cases. cbn [is_None eq_empty_str orb py_int].
  destruct (is_None v || eq_empty_str v); [discriminate|].
  destruct (py_int v) as [e|k].
  - destruct (ValueError_or_TypeError e); [|discriminate].
    destruct (str_raises v); discriminate.
  - destruct (0 <? k) eqn:E; [|discriminate].
    intros H. injection H as _ <-. now rewrite E.
Qed.

Lemma kept_price_again (v : value) (l : list log_record) (f : Num.float) :
  handle_price_field v = (l, inr (Some f)) ->
  handle_price_field (VFloat f) = ([], inr (Some f)).
Proof.
  rewrite !handle_price_field_cases. cbn [is_None eq_empty_str orb py_float].
  destruct (is_None v || eq_empty_str v); [discriminate|].
  destruct (py_float v) as [e|k].
  - destruct (ValueError_or_TypeError e); [|discriminate].
    destruct (str_raises v); discriminate.
  - destruct (Num.float_nonneg k) eqn:E; [|discriminate].
    intros H. injection H as _ <-. now rewrite E.
Qed.

Lemma strip_strip (s : string) : Str.strip (Str.strip s) = Str.strip s.
Proof. destruct (strip_normal s). now apply strip_fixed. Qed.

Lemma handle_publication_date_field_other (v : value) :
  (forall s, v <> VStr s) -> (forall d, v <> VDate d) -> v <> VNone ->
  str_raises v = false ->
  handle_publication_date_field v = ([], inr (Some (a_str (str_text v)))).
Proof.
  intros Hs Hd Hn Hv. rewrite handle_publication_date_field_value, Hv.
  destruct v as [|b|n|f|t|li|d|d]; try reflexivity.
  - now destruct Hn.
  - now destruct (Hs t).
  - now destruct (Hd d).
Qed.

(** A text that was kept because no format reads it is kept again. *)
Lemma kept_text_again (v : value) (l : list log_record) (c : ascii)
    (s : string) :
  handle_publication_date_field v = (l, inr (Some (a_str (String c s)))) ->
  exists l',
    handle_publication_date_field (VStr (String c s))
    = (l', inr (Some (a_str (String c s)))).
Proof.
  intros H.
  pose proof (handle_publication_date_field_no_raise _ _ _ H) as Hno.
  assert (Hs : Str.strip (String c s) = String c s
               /\ first_parse (String c s) = None).
  { destruct v as [|b|n|f|t|li|d|d]; try discriminate;
      try (rewrite handle_publication_date_field_other in H
             by (discriminate || exact Hno);
           match type of H with
           | (_, inr (Some (a_str (str_text ?w)))) = _ =>
               assert (E : str_text w = String c s) by congruence;
               rewrite <- E;
               destruct (str_text_ends w) as (_ & H1 & H2 & _);
               [discriminate|];
               split; [now apply strip_fixed|];
               apply str_text_not_a_date; discriminate
           end).
    destruct t as [|c' t]; [discriminate|].
    rewrite handle_publication_date_field_string in H.
    destruct (first_parse (Str.strip (String c' t))) eqn:E;
      [discriminate|].
    assert (E' : Str.strip (String c' t) = String c s) by congruence.
    rewrite <- E'. split; [apply strip_strip|exact E]. }
  destruct Hs as [Hstrip Hparse].
  rewrite handle_publication_date_field_string, Hstrip, Hparse. eauto.
Qed.

(** X25: a book that was built can be built again from its metadata
    view.  The new book has the same overflow, authors, pages and price;
    its descriptive strings are those of the first book with every run
    of whitespace made one space; the publication date is the same,
    except that a kept empty string becomes null; the name is the title,
    or the default when there is no title; the navigation fields are
    null. *)
Theorem view_round_trip (data : value) (l : list log_record) (b : Book) :
  Book_validate data = (l, Valid b) ->
  (forall d, publication_date b = Some (a_date d) -> valid_date d) ->
  exists l' b',
    Book_validate (VDict (get_all_metadata b)) = (l', Valid b')
    /\ raw_metadata b' = raw_metadata b
    /\ authors b' = authors b
    /\ pages b' = pages b
    /\ price b' = price b
    /\ publication_date b'
       = match publication_date b with
         | Some (a_str EmptyString) => None
         | p => p
         end
    /\ descriptive_strings b'
       = map (option_map Str.re_sub_spaces) (descriptive_strings b)
    /\ name b'
       = match title b' with Some t => t | None => "Untitled Book" end
    /\ navigation_fields b' = [None; None; None; None].
Proof.
  intros H Hdate.
  destruct (view_of_built _ _ _ H) as (Heq & Hrawcore & Hover).
  assert (HV : forall k, In k core_fields ->
                 Dict.get k (get_all_metadata b)
                 = Dict.get k (descriptive_items b)).
  { intros k Hk. rewrite Heq, get_app, (Hrawcore k Hk).
    now destruct (Dict.get k (descriptive_items b)). }
  destruct (descriptive_items_get b)
    as (Gt & Ga & Gi & Gd & Gp & Gpr & G1 & G2 & G3 & G4 & G5 & G6 & G7
        & Gn).
  rewrite <- HV in Gt, Ga, Gi, Gd, Gp, Gpr, G1, G2, G3, G4, G5, G6, G7, Gn
    by (unfold core_fields; cbn [In]; tauto).
  clear HV Heq Hrawcore.
  pose proof H as Hinv.
  apply Book_validate_valid_inv in Hinv
    as (R & _ & _ & _ & Ht & Ha & Hi & Hd & Hp & Hpr & H1 & H2 & H3 & _).
  assert (Hname : forall t, title b = Some t ->
            string_value (name_source (get_all_metadata b))
            = Some (Str.re_sub_spaces t)).
  { intros t Et. unfold name_source. rewrite Gt, Et. cbn [option_map truthy].
    rewrite Ht in Et. apply field_of_string_trimmed in Et.
    destruct (is_trimmed_strip t Et) as [_ ->].
    now apply trimmed_string_again. }
  assert (Hdefault : title b = None ->
            string_value (name_source (get_all_metadata b))
            = Some "Untitled Book").
  { intros Et. unfold name_source, name_or_default. rewrite Gt, Gn, Et.
    reflexivity. }
  assert (Hex : exists l' b',
             Book_validate (VDict (get_all_metadata b)) = (l', Valid b')).
  { apply construction_succeeds.
    - destruct (title b) as [t|] eqn:Et.
      + now rewrite (Hname t eq_refl).
      + now rewrite (Hdefault eq_refl).
    - intros s. rewrite Gp. now destruct (pages b).
    - intros n. rewrite Gpr. now destruct (price b).
    - unfold name_source, name_or_default. rewrite Gt, Gn.
      destruct (title b) as [t|]; cbn [option_map]; [|reflexivity].
      now destruct (truthy (VStr t)).
    - intros k v Hk. cbn [stringified_fields In] in Hk.
      repeat destruct Hk as [<-|Hk]; try contradiction;
        rewrite ?Gt, ?Ga, ?Gi, ?Gd, ?G1, ?G2, ?G3, ?G4, ?G5, ?G6, ?G7;
        try discriminate;
        try (match goal with
             | |- option_map _ ?o = _ -> _ => destruct o
             end; cbn [option_map]; [|discriminate];
             intros E; injection E as <-; reflexivity).
      destruct (authors b) as [|a rest]; [discriminate|].
      intros E. injection E as <-. apply str_raises_strings.
    - intros k v Hk. cbn [numeric_fields In] in Hk.
      destruct Hk as [<-|[<-|[]]]; rewrite ?Gp, ?Gpr.
      + destruct (pages b) as [n|]; cbn [option_map]; [|discriminate].
        intros E Hint. injection E as <-. now destruct (Hint n).
      + destruct (price b) as [f|]; cbn [option_map]; [|discriminate].
        intros E _. now injection E as <-. }
  destruct Hex as (l' & b' & Hb'). exists l', b'. split; [exact Hb'|].
  apply Book_validate_valid_inv in Hb'
    as (R' & HR' & Hname' & Hraw' & Ht' & Ha' & Hi' & Hd' & Hp' & Hpr'
        & H1' & H2' & H3' & H4' & H5' & H6' & H7').
  injection HR' as <-.
  unfold field_of, field_returns in Ht', Ha', Hi', Hd', Hp', Hpr', H1', H2',
    H3', H4', H5', H6', H7'.
  rewrite Gt in Ht'. rewrite Ga in Ha'. rewrite Gi in Hi'.
  rewrite Gd in Hd'. rewrite Gp in Hp'. rewrite Gpr in Hpr'.
  rewrite G1 in H1'. rewrite G2 in H2'. rewrite G3 in H3'.
  rewrite G4 in H4'. rewrite G5 in H5'. rewrite G6 in H6'.
  rewrite G7 in H7'.
  assert (Hstr : forall nm o o',
             o = field_of nm None string_value R ->
             o' = match option_map VStr o with
                  | Some v => string_value v
                  | None => None
                  end ->
             o' = option_map Str.re_sub_spaces o).
  { intros nm o o' Ho Ho'. destruct o as [t|]; [|exact Ho'].
    symmetry in Ho. apply field_of_string_trimmed in Ho.
    cbn [option_map] in *. now rewrite trimmed_string_again in Ho'. }
  split; [now rewrite Hraw', Hover|].
  split.
  { assert (Htrimmed : Forall (fun a => is_trimmed a = true) (authors b)).
    { rewrite Ha. unfold field_of.
      destruct (Dict.get "authors" R); [|constructor].
      apply authors_value_trimmed. }
    rewrite Ha'. destruct (authors b) as [|a rest]; [reflexivity|].
    now apply authors_value_of_trimmed. }
  split.
  { unfold field_returns in Hp.
    destruct (pages b) as [n|]; cbn [option_map] in Hp'; [|exact Hp'].
    destruct (Dict.get "pages" R) as [v|]; [|discriminate].
    destruct Hp as (l0 & Hp). destruct Hp' as (l1 & Hp').
    rewrite (kept_pages_again _ _ _ Hp) in Hp'. congruence. }
  split.
  { unfold field_returns in Hpr.
    destruct (price b) as [f|]; cbn [option_map] in Hpr'; [|exact Hpr'].
    destruct (Dict.get "price" R) as [v|]; [|discriminate].
    destruct Hpr as (l0 & Hpr). destruct Hpr' as (l1 & Hpr').
    rewrite (kept_price_again _ _ _ Hpr) in Hpr'. congruence. }
  split.
  { unfold field_returns in Hd.
    destruct (publication_date b) as [[d|s]|] eqn:Ed;
      cbn [option_map str_of_date_or_str] in Hd'; [| |exact Hd'].
    - destruct Hd' as (l1 & Hd').
      rewrite (handle_publication_date_field_isoformat d (Hdate d eq_refl))
        in Hd'.
      congruence.
    - destruct Hd' as (l1 & Hd'). destruct s as [|c s].
      + injection Hd' as _ Hd'. now symmetry.
      + destruct (Dict.get "publication_date" R) as [v|]; [|discriminate].
        destruct Hd as (l0 & Hd).
        destruct (kept_text_again _ _ _ _ Hd) as (l2 & Hk).
        rewrite Hk in Hd'. congruence. }
  split.
  { unfold descriptive_strings. cbn [map].
    rewrite (Hstr _ _ _ Ht Ht'), (Hstr _ _ _ Hi Hi'), (Hstr _ _ _ H1 H1'),
      (Hstr _ _ _ H2 H2'), (Hstr _ _ _ H3 H3').
    reflexivity. }
  split.
  { rewrite (Hstr _ _ _ Ht Ht').
    destruct (title b) as [t|] eqn:Et; cbn [option_map].
    - rewrite (Hname t eq_refl) in Hname'. congruence.
    - rewrite (Hdefault eq_refl) in Hname'. congruence. }
  unfold navigation_fields. now rewrite H4', H5', H6', H7'.
Qed.

Lemma view_round_trip_witness :
  exists l' b',
    Book_validate (VDict (get_all_metadata hobbit)) = (l', Valid b')
    /\ raw_metadata b' = raw_metadata hobbit
    /\ authors b' = authors hobbit
    /\ pages b' = pages hobbit
    /\ price b' = price hobbit
    /\ publication_date b'
       = match publication_date hobbit with
         | Some (a_str EmptyString) => None
         | p => p
         end
    /\ descriptive_strings b'
       = map (option_map Str.re_sub_spaces) (descriptive_strings hobbit)
    /\ name b'
       = match title b' with Some t => t | None => "Untitled Book" end
    /\ navigation_fields b' = [None; None; None; None].
Proof.
  apply (view_round_trip (VDict hobbit_record) [] hobbit hobbit_validates).
  intros d Hd. discriminate Hd.
Defined.
